(** * termbox: the double-buffered cell renderer, its session state and
      the event loop of [termbox.c], embedded in Rocq.

    Platform assumptions (LP64): [unsigned int], [uint32_t] and [int] are
    32 bits wide, [uint16_t] 16 bits, [char] 8 bits, [size_t] 64 bits;
    [struct tb_cell] is 8 bytes without padding.  Machine integers are
    values of [Z] with the wrap-around written out.  An access outside an
    allocated array is undefined behaviour in C; the operations of this
    file return [None] there, so that a result [Some s] always stands for
    a defined execution. *)

From Stdlib Require Import ZArith Lia.
From stdpp Require Import base decidable option list.

Local Open Scope Z_scope.

(** ** Machine integers *)

Definition uint8 (z : Z) : Z := z mod 2 ^ 8.
Definition uint16 (z : Z) : Z := z mod 2 ^ 16.
Definition uint32 (z : Z) : Z := z mod 2 ^ 32.
Definition size_t (z : Z) : Z := z mod 2 ^ 64.

(** Conversion to [int] (two's complement). *)
Definition sint32 (z : Z) : Z :=
  let u := uint32 z in if u <? 2 ^ 31 then u else u - 2 ^ 32.

(** ** termbox.h: constants and the cell *)

Definition TB_KEY_F1 : Z := 0xFFFF - 0.
Definition TB_KEY_ESC : Z := 0x1B.

Definition TB_MOD_ALT : Z := 0x01.

Definition TB_BLACK : Z := 0x00.
Definition TB_RED : Z := 0x01.
Definition TB_GREEN : Z := 0x02.
Definition TB_YELLOW : Z := 0x03.
Definition TB_BLUE : Z := 0x04.
Definition TB_MAGENTA : Z := 0x05.
Definition TB_CYAN : Z := 0x06.
Definition TB_WHITE : Z := 0x07.

Definition TB_BOLD : Z := 0x10.
Definition TB_UNDERLINE : Z := 0x20.
Definition TB_BLINK : Z := 0x40.

Definition TB_EUNSUPPORTED_TERMINAL : Z := -1.
Definition TB_EFAILED_TO_OPEN_TTY : Z := -2.

Definition TB_INPUT_ESC : Z := 1.
Definition TB_INPUT_ALT : Z := 2.

(** [struct tb_cell { uint32_t ch; uint16_t fg; uint16_t bg; }] *)
Record tb_cell := { ch : Z; fg : Z; bg : Z }.

#[global] Instance tb_cell_eq_dec : EqDecision tb_cell.
Proof. solve_decision. Defined.

(** [struct tb_key_event { uint32_t ch; uint16_t key; uint16_t mod; }] *)
Record tb_key_event := { ev_ch : Z; ev_key : Z; ev_mod : Z }.

(** The cell that [cellbuf_clear] writes: [' '], [TB_WHITE], [TB_BLACK]. *)
Definition blank_cell : tb_cell := {| ch := 32; fg := TB_WHITE; bg := TB_BLACK |}.

(** ** Arrays of cells

    A cell array is a list; [load] and [store] are the element accesses
    [a[i]] and [a[i] = c], [memcpy] the copy of [n] consecutive cells
    from [src + s] to [dst + d].  Each is undefined outside the array. *)

Definition load (a : list tb_cell) (i : Z) : option tb_cell :=
  if decide (0 <= i) then a !! Z.to_nat i else None.

Definition store (a : list tb_cell) (i : Z) (c : tb_cell) : option (list tb_cell) :=
  if decide (0 <= i < Z.of_nat (length a)) then Some (<[Z.to_nat i := c]> a) else None.

Definition memcpy (dst : list tb_cell) (d : Z) (src : list tb_cell) (s : Z) (n : Z)
  : option (list tb_cell) :=
  if decide (0 <= d /\ 0 <= s /\ 0 <= n
             /\ d + n <= Z.of_nat (length dst) /\ s + n <= Z.of_nat (length src))
  then Some (take (Z.to_nat d) dst
             ++ take (Z.to_nat n) (drop (Z.to_nat s) src)
             ++ drop (Z.to_nat (d + n)) dst)
  else None.

(** ** Counted loops

    [for_upto n i body s] runs [body i], [body (i+1)], ..., [n] times:
    the loop [for (k = i; k < i + n; ++k) body]. *)

Fixpoint for_upto {St : Type} (n : nat) (i : Z) (body : Z -> St -> option St) (s : St)
  : option St :=
  match n with
  | O => Some s
  | S n' => s' ← body i s; for_upto n' (i + 1) body s'
  end.

(** ** The cell buffer *)

(** [struct cellbuf { unsigned int width; unsigned int height; struct tb_cell *cells; }] *)
Record cellbuf := { width : Z; height : Z; cells : list tb_cell }.

(** [#define CELL(buf, x, y) (buf)->cells[(y) * (buf)->width + (x)]]: the
    index, computed in [unsigned int]. *)
Definition CELL (buf : cellbuf) (x y : Z) : Z := uint32 (y * width buf + x).

Definition cell_at (buf : cellbuf) (x y : Z) : option tb_cell :=
  load (cells buf) (CELL buf x y).

Section Cellbuf.

(** The contents of freshly allocated storage are indeterminate:
    [junk i] is what cell [i] of a new block happens to hold. *)
Variable junk : nat -> tb_cell.

(** [malloc(nbytes)] for an array of cells; the allocation is assumed to
    succeed (the source asserts it). *)
Definition malloc_cells (nbytes : Z) : list tb_cell :=
  junk <$> seq 0 (Z.to_nat (nbytes / 8)).

Definition cellbuf_init (w h : Z) : cellbuf :=
  {| width := w; height := h; cells := malloc_cells (size_t (8 * w * h)) |}.

Definition cellbuf_clear (buf : cellbuf) : option cellbuf :=
  let ncells := uint32 (width buf * height buf) in
  cs ← for_upto (Z.to_nat ncells) 0 (fun i cs => store cs i blank_cell) (cells buf);
  Some {| width := width buf; height := height buf; cells := cs |}.

Definition cellbuf_resize (buf : cellbuf) (w h : Z) : option cellbuf :=
  if decide (width buf = w /\ height buf = h) then Some buf
  else
    let oldw := width buf in
    let oldh := height buf in
    let oldcells := cells buf in
    buf1 ← cellbuf_clear (cellbuf_init w h);
    let minw := if w <? oldw then w else oldw in
    let minh := if h <? oldh then h else oldh in
    cs ← for_upto (Z.to_nat minh) 0
           (fun i cs => memcpy cs (uint32 (i * w)) oldcells (uint32 (i * oldw)) minw)
           (cells buf1);
    Some {| width := w; height := h; cells := cs |}.

End Cellbuf.

(** ** UTF-8 *)

(** The loop [for (i = len - 1; i > 0; --i) { out[i] = (c & 0x3f) | 0x80; c >>= 6; }]:
    [n] iterations, last byte first; returns the shifted [c] and the bytes
    [out[1..]]. *)
Fixpoint utf8_trail (n : nat) (c : Z) (acc : list Z) : Z * list Z :=
  match n with
  | O => (c, acc)
  | S n' => utf8_trail n' (Z.shiftr c 6) (uint8 (Z.lor (Z.land c 0x3f) 0x80) :: acc)
  end.

(** [utf8_unicode_to_char(out, c)]: the bytes written to [out]; the
    returned length is the length of the list. *)
Definition utf8_unicode_to_char (c : Z) : list Z :=
  let '(first, len) :=
    if c <? 0x80 then (0, 1%nat)
    else if c <? 0x800 then (0xc0, 2%nat)
    else if c <? 0x10000 then (0xe0, 3%nat)
    else if c <? 0x200000 then (0xf0, 4%nat)
    else if c <? 0x4000000 then (0xf8, 5%nat)
    else (0xfc, 6%nat) in
  let '(c', trail) := utf8_trail (len - 1) c [] in
  uint8 (Z.lor c' first) :: trail.

(** The reference decoder, following the classical UTF-8 rules (sequences
    of 1 to 6 bytes): the first byte gives the length of the sequence and
    its own payload bits, each following byte must be of the form
    [10xxxxxx] and contributes six bits. *)
Definition utf8_lead (b0 : Z) : option (nat * Z) :=
  if b0 <? 0x80 then Some (1%nat, 0x7f)
  else if b0 <? 0xc0 then None
  else if b0 <? 0xe0 then Some (2%nat, 0x1f)
  else if b0 <? 0xf0 then Some (3%nat, 0x0f)
  else if b0 <? 0xf8 then Some (4%nat, 0x07)
  else if b0 <? 0xfc then Some (5%nat, 0x03)
  else if b0 <? 0xfe then Some (6%nat, 0x01)
  else None.

Fixpoint utf8_decode_trail (acc : Z) (bs : list Z) : option Z :=
  match bs with
  | [] => Some acc
  | b :: bs' =>
      if Z.land b 0xc0 =? 0x80
      then utf8_decode_trail (Z.lor (Z.shiftl acc 6) (Z.land b 0x3f)) bs'
      else None
  end.

Definition utf8_decode_ref (bs : list Z) : option Z :=
  match bs with
  | [] => None
  | b0 :: rest =>
      match utf8_lead b0 with
      | Some (len, mask) =>
          if decide (S (length rest) = len)
          then utf8_decode_trail (Z.land b0 mask) rest
          else None
      | None => None
      end
  end.

(** ** The terminal: capability table, output stream, system calls *)

(** Modelled from the spec: the indices of the capability table [funcs]
    (declared in term.h, which is not part of the sources at hand), in the
    order of the specification's list of capability strings. *)
Inductive func_id :=
  | T_ENTER_CA | T_EXIT_CA | T_SHOW_CURSOR | T_HIDE_CURSOR | T_CLEAR_SCREEN
  | T_SGR0 | T_UNDERLINE | T_BOLD | T_BLINK | T_ENTER_KEYPAD | T_EXIT_KEYPAD
  | T_SGR | T_MOVE_CURSOR.

#[global] Instance func_id_eq_dec : EqDecision func_id.
Proof. solve_decision. Defined.

(** What the program hands to the stream [out], call by call.  The
    capability strings themselves belong to term.h, so a write is recorded
    by the index of the string and the arguments of the format. *)
Inductive out_item :=
  | Fputs (f : func_id)                (* fputs(funcs[f], out) *)
  | Fprintf (f : func_id) (a b : Z)    (* fprintf(out, funcs[f], a, b) *)
  | Fputs_buf (bs : list Z)            (* fputs(buf, out): the bytes of the C string *)
  | Fflush.                            (* fflush(out) *)

#[global] Instance out_item_eq_dec : EqDecision out_item.
Proof. solve_decision. Defined.

(** A C string ends at its first NUL byte. *)
Fixpoint c_str (bs : list Z) : list Z :=
  match bs with
  | [] => []
  | b :: bs' => if b =? 0 then [] else b :: c_str bs'
  end.

(** [FILE *]: a stream is known by its descriptor; [None] is [NULL]. *)
Record FILE := { fileno : Z }.

Record termios := {
  c_iflag : Z; c_oflag : Z; c_cflag : Z; c_lflag : Z;
  c_cc_VMIN : Z; c_cc_VTIME : Z }.

(** [struct winsize] after [memset] and [ioctl(TIOCGWINSZ)]; both fields
    are [unsigned short]. *)
Record winsize := { ws_col : Z; ws_row : Z }.

(** The calls that [sys_log] records: those on the signal handler, on the
    terminal attributes and on the streams, and the [free] of
    [cellbuf_free].  It is not a record of every call the code makes:
    [ioctl(TIOCGWINSZ)] of [update_term_size] enters as the [winsize]
    argument of the functions that reach it, the [malloc] and [free] of
    [cellbuf_init] and [cellbuf_resize] are the lists they build and
    drop, and [fflush] is an item of [tty_out]. *)
Inductive sys_call :=
  | Signal_SIGWINCH                    (* signal(SIGWINCH, sigwinch_handler) *)
  | Tcsetattr (fd : Z) (t : termios)   (* tcsetattr(fd, TCSAFLUSH, &t) *)
  | Fclose (f : option FILE)           (* fclose(f) *)
  | Free_cells (cs : list tb_cell).    (* free(buf->cells) *)

(** What the outside answers during [tb_init]. *)
Record tty_env := {
  fopen_w : option FILE;       (* fopen("/dev/tty", "w") *)
  fopen_r : option FILE;       (* fopen("/dev/tty", "r") *)
  init_term_ret : Z;           (* init_term() *)
  tcgetattr_tios : termios;    (* what tcgetattr stores *)
  ioctl_winsize : winsize }.   (* what ioctl(TIOCGWINSZ) stores *)

(** One round of the event loop, as the outside decides it: the outcome
    of [select] and, when the descriptor is readable, the bytes that
    [fread(buf, 1, 32, in)] delivers. *)
Inductive select_outcome :=
  | Sel_timeout                 (* select returned 0 *)
  | Sel_not_ready               (* select returned non-zero, descriptor not set *)
  | Sel_read (bytes : list Z).  (* descriptor set; fread returned these bytes *)

(** The byte ring of ringbuffer.h and the decoder [extract_event] are used
    by termbox.c but defined elsewhere; the session is stated over any
    implementation of them. *)
Class RingBuffer (R : Type) := {
  init_ringbuffer : R -> Z -> R;
  free_ringbuffer : R -> R;
  ringbuffer_free_space : R -> Z;
  ringbuffer_push : R -> list Z -> R }.

(** The constants of <termios.h> that [tb_init] uses: the input flags
    [IGNBRK | BRKINT | PARMRK | ISTRIP | INLCR | IGNCR | ICRNL | IXON], the
    output flag [OPOST], the local flags
    [ECHO | ECHONL | ICANON | ISIG | IEXTEN], [CSIZE | PARENB], and [CS8]. *)
Record termios_flags := {
  IFLAGS : Z; OFLAGS : Z; LFLAGS : Z; CSIZE_PARENB : Z; CS8 : Z }.

Definition LAST_ATTR_INIT : Z := 0xFFFF.
Definition LAST_COORD_INIT : Z := 0xFFFFFFFE.

Section Session.

Context {R : Type} `{RingBuffer R}.

(** [extract_event(event, &inbuf, inputmode)]: the returned code, the
    event and the ring as the call leaves them. *)
Variable extract_event : tb_key_event -> R -> Z -> Z * tb_key_event * R.

Variable junk : nat -> tb_cell.

Variable flags : termios_flags.

(** The globals of termbox.c, the function-local statics of [send_attr]
    ([lastfg], [lastbg]) and [send_char] ([lastx], [lasty]), and the
    trace of what has been done to the outside: [tty_out] for the
    stream [out], [sys_log] for the calls of [sys_call]. *)
Record tb_state := {
  orig_tios : termios;
  back_buffer : cellbuf;
  front_buffer : cellbuf;
  termw : Z;
  termh : Z;
  inputmode : Z;
  inbuf : R;
  out : option FILE;
  in_ : option FILE;
  out_fileno : Z;
  in_fileno : Z;
  sigwinch_r : Z;
  lastfg : Z;
  lastbg : Z;
  lastx : Z;
  lasty : Z;
  tty_out : list out_item;
  sys_log : list sys_call }.

(** Assignments to the globals: [set_x v s] is the state after [x = v]. *)
Definition set_orig_tios (v : termios) (s : tb_state) : tb_state :=
  match s with
  | Build_tb_state tios bb fb tw th im rb fo fi ofd ifd sw lfg lbg lx ly tout slog =>
    Build_tb_state v bb fb tw th im rb fo fi ofd ifd sw lfg lbg lx ly tout slog
  end.

Definition set_back_buffer (v : cellbuf) (s : tb_state) : tb_state :=
  match s with
  | Build_tb_state tios bb fb tw th im rb fo fi ofd ifd sw lfg lbg lx ly tout slog =>
    Build_tb_state tios v fb tw th im rb fo fi ofd ifd sw lfg lbg lx ly tout slog
  end.

Definition set_front_buffer (v : cellbuf) (s : tb_state) : tb_state :=
  match s with
  | Build_tb_state tios bb fb tw th im rb fo fi ofd ifd sw lfg lbg lx ly tout slog =>
    Build_tb_state tios bb v tw th im rb fo fi ofd ifd sw lfg lbg lx ly tout slog
  end.

Definition set_termw (v : Z) (s : tb_state) : tb_state :=
  match s with
  | Build_tb_state tios bb fb tw th im rb fo fi ofd ifd sw lfg lbg lx ly tout slog =>
    Build_tb_state tios bb fb v th im rb fo fi ofd ifd sw lfg lbg lx ly tout slog
  end.

Definition set_termh (v : Z) (s : tb_state) : tb_state :=
  match s with
  | Build_tb_state tios bb fb tw th im rb fo fi ofd ifd sw lfg lbg lx ly tout slog =>
    Build_tb_state tios bb fb tw v im rb fo fi ofd ifd sw lfg lbg lx ly tout slog
  end.

Definition set_inputmode (v : Z) (s : tb_state) : tb_state :=
  match s with
  | Build_tb_state tios bb fb tw th im rb fo fi ofd ifd sw lfg lbg lx ly tout slog =>
    Build_tb_state tios bb fb tw th v rb fo fi ofd ifd sw lfg lbg lx ly tout slog
  end.

Definition set_inbuf (v : R) (s : tb_state) : tb_state :=
  match s with
  | Build_tb_state tios bb fb tw th im rb fo fi ofd ifd sw lfg lbg lx ly tout slog =>
    Build_tb_state tios bb fb tw th im v fo fi ofd ifd sw lfg lbg lx ly tout slog
  end.

Definition set_out (v : option FILE) (s : tb_state) : tb_state :=
  match s with
  | Build_tb_state tios bb fb tw th im rb fo fi ofd ifd sw lfg lbg lx ly tout slog =>
    Build_tb_state tios bb fb tw th im rb v fi ofd ifd sw lfg lbg lx ly tout slog
  end.

Definition set_in_ (v : option FILE) (s : tb_state) : tb_state :=
  match s with
  | Build_tb_state tios bb fb tw th im rb fo fi ofd ifd sw lfg lbg lx ly tout slog =>
    Build_tb_state tios bb fb tw th im rb fo v ofd ifd sw lfg lbg lx ly tout slog
  end.

Definition set_out_fileno (v : Z) (s : tb_state) : tb_state :=
  match s with
  | Build_tb_state tios bb fb tw th im rb fo fi ofd ifd sw lfg lbg lx ly tout slog =>
    Build_tb_state tios bb fb tw th im rb fo fi v ifd sw lfg lbg lx ly tout slog
  end.

Definition set_in_fileno (v : Z) (s : tb_state) : tb_state :=
  match s with
  | Build_tb_state tios bb fb tw th im rb fo fi ofd ifd sw lfg lbg lx ly tout slog =>
    Build_tb_state tios bb fb tw th im rb fo fi ofd v sw lfg lbg lx ly tout slog
  end.

Definition set_sigwinch_r (v : Z) (s : tb_state) : tb_state :=
  match s with
  | Build_tb_state tios bb fb tw th im rb fo fi ofd ifd sw lfg lbg lx ly tout slog =>
    Build_tb_state tios bb fb tw th im rb fo fi ofd ifd v lfg lbg lx ly tout slog
  end.

Definition set_lastfg (v : Z) (s : tb_state) : tb_state :=
  match s with
  | Build_tb_state tios bb fb tw th im rb fo fi ofd ifd sw lfg lbg lx ly tout slog =>
    Build_tb_state tios bb fb tw th im rb fo fi ofd ifd sw v lbg lx ly tout slog
  end.

Definition set_lastbg (v : Z) (s : tb_state) : tb_state :=
  match s with
  | Build_tb_state tios bb fb tw th im rb fo fi ofd ifd sw lfg lbg lx ly tout slog =>
    Build_tb_state tios bb fb tw th im rb fo fi ofd ifd sw lfg v lx ly tout slog
  end.

Definition set_lastx (v : Z) (s : tb_state) : tb_state :=
  match s with
  | Build_tb_state tios bb fb tw th im rb fo fi ofd ifd sw lfg lbg lx ly tout slog =>
    Build_tb_state tios bb fb tw th im rb fo fi ofd ifd sw lfg lbg v ly tout slog
  end.

Definition set_lasty (v : Z) (s : tb_state) : tb_state :=
  match s with
  | Build_tb_state tios bb fb tw th im rb fo fi ofd ifd sw lfg lbg lx ly tout slog =>
    Build_tb_state tios bb fb tw th im rb fo fi ofd ifd sw lfg lbg lx v tout slog
  end.

Definition set_tty_out (v : list out_item) (s : tb_state) : tb_state :=
  match s with
  | Build_tb_state tios bb fb tw th im rb fo fi ofd ifd sw lfg lbg lx ly tout slog =>
    Build_tb_state tios bb fb tw th im rb fo fi ofd ifd sw lfg lbg lx ly v slog
  end.

Definition set_sys_log (v : list sys_call) (s : tb_state) : tb_state :=
  match s with
  | Build_tb_state tios bb fb tw th im rb fo fi ofd ifd sw lfg lbg lx ly tout slog =>
    Build_tb_state tios bb fb tw th im rb fo fi ofd ifd sw lfg lbg lx ly tout v
  end.

Definition emit (o : out_item) (s : tb_state) : tb_state :=
  set_tty_out (tty_out s ++ [o]) s.

Definition sys (c : sys_call) (s : tb_state) : tb_state :=
  set_sys_log (sys_log s ++ [c]) s.

Definition with_cells (buf : cellbuf) (cs : list tb_cell) : cellbuf :=
  {| width := width buf; height := height buf; cells := cs |}.

(** *** Renderer *)

Definition update_term_size (sz : winsize) (s : tb_state) : tb_state :=
  set_termh (ws_row sz) (set_termw (ws_col sz) s).

Definition send_attr (fg bg : Z) (s : tb_state) : tb_state :=
  if decide (fg <> lastfg s \/ bg <> lastbg s) then
    let s := emit (Fputs T_SGR0) s in
    let s := emit (Fprintf T_SGR (Z.land fg 0x0F) (Z.land bg 0x0F)) s in
    let s := if decide (Z.land fg TB_BOLD <> 0) then emit (Fputs T_BOLD) s else s in
    let s := if decide (Z.land bg TB_BOLD <> 0) then emit (Fputs T_BLINK) s else s in
    set_lastbg bg (set_lastfg fg s)
  else s.

(** [lastx] and [lasty] are [int]; [x] is converted for the first
    comparison, [lasty] for the second. *)
Definition send_char (x y c : Z) (s : tb_state) : tb_state :=
  let buf := utf8_unicode_to_char c ++ [0] in
  let s :=
    if decide (sint32 x - 1 <> lastx s \/ y <> uint32 (lasty s))
    then emit (Fprintf T_MOVE_CURSOR (uint32 (y + 1)) (uint32 (x + 1))) s
    else s in
  let s := set_lasty (sint32 y) (set_lastx (sint32 x) s) in
  emit (Fputs_buf (c_str buf)) s.

Definition send_clear (s : tb_state) : tb_state :=
  let s := send_attr TB_WHITE TB_BLACK s in
  let s := emit (Fputs T_CLEAR_SCREEN) s in
  emit Fflush s.

Definition sigwinch_handler (s : tb_state) : tb_state := set_sigwinch_r 1 s.

Definition check_sigwinch (sz : winsize) (s : tb_state) : option tb_state :=
  if decide (sigwinch_r s <> 0) then
    let s := update_term_size sz s in
    bb ← cellbuf_resize junk (back_buffer s) (termw s) (termh s);
    let s := set_back_buffer bb s in
    fb ← cellbuf_resize junk (front_buffer s) (termw s) (termh s);
    let s := set_front_buffer fb s in
    fb ← cellbuf_clear (front_buffer s);
    let s := set_front_buffer fb s in
    let s := send_clear s in
    Some (set_sigwinch_r 0 s)
  else Some s.

(** The body of the inner loop of [tb_present], at column [x] of row [y]. *)
Definition present_cell (y x : Z) (s : tb_state) : option tb_state :=
  back ← load (cells (back_buffer s)) (CELL (back_buffer s) x y);
  front ← load (cells (front_buffer s)) (CELL (front_buffer s) x y);
  if decide (back = front) then Some s
  else
    let s := send_attr (fg back) (bg back) s in
    let s := send_char x y (ch back) s in
    cs ← store (cells (front_buffer s)) (CELL (front_buffer s) x y) back;
    Some (set_front_buffer (with_cells (front_buffer s) cs) s).

Definition present_row (y : Z) (s : tb_state) : option tb_state :=
  for_upto (Z.to_nat (width (front_buffer s))) 0 (present_cell y) s.

Definition tb_present (sz : winsize) (s : tb_state) : option tb_state :=
  s ← check_sigwinch sz s;
  s ← for_upto (Z.to_nat (height (front_buffer s))) 0 present_row s;
  Some (emit Fflush s).

(** *** Writing to the back buffer *)

Definition tb_put_cell (x y : Z) (cell : tb_cell) (s : tb_state) : option tb_state :=
  let bb := back_buffer s in
  if decide (width bb <= x \/ height bb <= y) then Some s
  else
    cs ← store (cells bb) (CELL bb x y) cell;
    Some (set_back_buffer (with_cells bb cs) s).

Definition tb_change_cell (x y ch fg bg : Z) (s : tb_state) : option tb_state :=
  let c := {| ch := ch; fg := fg; bg := bg |} in
  tb_put_cell x y c s.

(** The row counter [sy] is an [int] compared with the unsigned [h];
    it cannot count up to an [h] above [INT_MAX]. *)
Definition tb_blit (x y w h : Z) (src : list tb_cell) (s : tb_state) : option tb_state :=
  let bb := back_buffer s in
  if decide (width bb <= uint32 (x + w) \/ height bb <= uint32 (y + h)) then Some s
  else if decide (2 ^ 31 <= h) then None
  else
    let dst := CELL bb x y in
    cs ← for_upto (Z.to_nat h) 0
           (fun sy cs => memcpy cs (dst + sy * width bb) src (sy * w) w)
           (cells bb);
    Some (set_back_buffer (with_cells bb cs) s).

Definition tb_width (s : tb_state) : Z := termw s.
Definition tb_height (s : tb_state) : Z := termh s.

Definition tb_clear (sz : winsize) (s : tb_state) : option tb_state :=
  s ← check_sigwinch sz s;
  bb ← cellbuf_clear (back_buffer s);
  Some (set_back_buffer bb s).

Definition tb_select_input_mode (mode : Z) (s : tb_state) : Z * tb_state :=
  let s := if decide (mode <> 0) then set_inputmode mode s else s in
  (inputmode s, s).

(** *** Session set-up and tear-down *)

(** The attributes installed by [tb_init]: [tios] is zeroed by [memset],
    then masked and given the character size. *)
Definition raw_tios : termios :=
  {| c_iflag := Z.land 0 (Z.lnot (IFLAGS flags));
     c_oflag := Z.land 0 (Z.lnot (OFLAGS flags));
     c_cflag := Z.lor (Z.land 0 (Z.lnot (CSIZE_PARENB flags))) (CS8 flags);
     c_lflag := Z.land 0 (Z.lnot (LFLAGS flags));
     c_cc_VMIN := 0; c_cc_VTIME := 0 |}.

Definition tb_init (env : tty_env) (s : tb_state) : option (Z * tb_state) :=
  let s := set_out (fopen_w env) s in
  let s := set_in_ (fopen_r env) s in
  match out s, in_ s with
  | Some fout, Some fin =>
      let s := set_out_fileno (fileno fout) s in
      let s := set_in_fileno (fileno fin) s in
      if decide (init_term_ret env < 0) then Some (TB_EUNSUPPORTED_TERMINAL, s)
      else
        let s := sys Signal_SIGWINCH s in
        let s := set_orig_tios (tcgetattr_tios env) s in
        let s := sys (Tcsetattr (out_fileno s) raw_tios) s in
        let s := emit (Fputs T_ENTER_CA) s in
        let s := emit (Fputs T_ENTER_KEYPAD) s in
        let s := emit (Fputs T_HIDE_CURSOR) s in
        let s := emit (Fputs T_CLEAR_SCREEN) s in
        let s := emit Fflush s in
        let s := update_term_size (ioctl_winsize env) s in
        let s := set_back_buffer (cellbuf_init junk (termw s) (termh s)) s in
        let s := set_front_buffer (cellbuf_init junk (termw s) (termh s)) s in
        bb ← cellbuf_clear (back_buffer s);
        let s := set_back_buffer bb s in
        fb ← cellbuf_clear (front_buffer s);
        let s := set_front_buffer fb s in
        let s := set_inbuf (init_ringbuffer (inbuf s) 4096) s in
        Some (0, s)
  | _, _ => Some (TB_EFAILED_TO_OPEN_TTY, s)
  end.

Definition cellbuf_free (buf : cellbuf) (s : tb_state) : tb_state :=
  sys (Free_cells (cells buf)) s.

Definition tb_shutdown (s : tb_state) : tb_state :=
  let s := emit (Fputs T_SHOW_CURSOR) s in
  let s := emit (Fputs T_SGR0) s in
  let s := emit (Fputs T_CLEAR_SCREEN) s in
  let s := emit (Fputs T_EXIT_CA) s in
  let s := emit (Fputs T_EXIT_KEYPAD) s in
  let s := emit Fflush s in
  let s := sys (Tcsetattr (out_fileno s) (orig_tios s)) s in
  let s := sys (Fclose (out s)) s in
  let s := sys (Fclose (in_ s)) s in
  let s := cellbuf_free (back_buffer s) s in
  let s := cellbuf_free (front_buffer s) s in
  set_inbuf (free_ringbuffer (inbuf s)) s.

(** *** The event loop *)

(** How a run of [wait_fill_event] over the given rounds ends: it has
    returned, or it is still in its loop, waiting in [select]. *)
Inductive wait_result :=
  | Returned (ret : Z) (ev : tb_key_event) (s : tb_state)
  | Waiting (ev : tb_key_event) (s : tb_state).

Fixpoint wait_loop (rounds : list select_outcome) (ev : tb_key_event) (s : tb_state)
  : wait_result :=
  match rounds with
  | [] => Waiting ev s
  | Sel_timeout :: _ => Returned 0 ev s
  | Sel_not_ready :: rounds' => wait_loop rounds' ev s
  | Sel_read bytes :: rounds' =>
      let r := Z.of_nat (length bytes) in
      if decide (r = 0) then wait_loop rounds' ev s
      else if decide (ringbuffer_free_space (inbuf s) < r) then Returned (-1) ev s
      else
        let s := set_inbuf (ringbuffer_push (inbuf s) bytes) s in
        let '(code, ev, rb) := extract_event ev (inbuf s) (inputmode s) in
        let s := set_inbuf rb s in
        if decide (code = 0) then Returned 1 ev s
        else wait_loop rounds' ev s
  end.

Definition wait_fill_event (rounds : list select_outcome) (s : tb_state) : wait_result :=
  let ev := {| ev_ch := 0; ev_key := 0; ev_mod := 0 |} in
  let '(code, ev, rb) := extract_event ev (inbuf s) (inputmode s) in
  let s := set_inbuf rb s in
  if decide (code = 0) then Returned 1 ev s
  else wait_loop rounds ev s.

(** [tb_poll_event] passes no timeout, [tb_peek_event] the timeout split
    into seconds and microseconds; the timeout reaches [select] only,
    whose outcomes are the [rounds]. *)
Definition tb_poll_event (rounds : list select_outcome) (s : tb_state) : wait_result :=
  wait_fill_event rounds s.

Definition peek_timeval (timeout : Z) : Z * Z :=
  let tv_sec := timeout / 1000 in
  let tv_usec := (timeout - tv_sec * 1000) * 1000 in
  (tv_sec, tv_usec).

Definition tb_peek_event (timeout : Z) (rounds : list select_outcome) (s : tb_state)
  : wait_result :=
  let tv := peek_timeval timeout in
  wait_fill_event rounds s.

End Session.

Arguments tb_state R : clear implicits.
Arguments wait_result R : clear implicits.

(** ** Initial values, well-formedness and the vocabulary of the properties *)

(** The state at program start: zero-initialised globals, the
    initialisers of [inputmode] and of the four statics. *)
Definition tb_state0 {R : Type} (rb : R) : tb_state R :=
  let tios0 := {| c_iflag := 0; c_oflag := 0; c_cflag := 0; c_lflag := 0;
                  c_cc_VMIN := 0; c_cc_VTIME := 0 |} in
  {| orig_tios := tios0;
     back_buffer := {| width := 0; height := 0; cells := [] |};
     front_buffer := {| width := 0; height := 0; cells := [] |};
     termw := 0; termh := 0;
     inputmode := TB_INPUT_ESC;
     inbuf := rb;
     out := None; in_ := None; out_fileno := 0; in_fileno := 0;
     sigwinch_r := 0;
     lastfg := LAST_ATTR_INIT; lastbg := LAST_ATTR_INIT;
     lastx := sint32 LAST_COORD_INIT; lasty := sint32 LAST_COORD_INIT;
     tty_out := []; sys_log := [] |}.

(** The four renderer caches. *)
Definition caches {R : Type} (s : tb_state R) : Z * Z * Z * Z :=
  (lastfg s, lastbg s, lastx s, lasty s).

Definition sentinel_caches : Z * Z * Z * Z :=
  (LAST_ATTR_INIT, LAST_ATTR_INIT, sint32 LAST_COORD_INIT, sint32 LAST_COORD_INIT).

(** A buffer whose dimensions are [unsigned int] values and whose storage
    holds exactly [width * height] cells, a count that [unsigned int]
    arithmetic can form. *)
Definition wf_cellbuf (b : cellbuf) : Prop :=
  0 <= width b /\ 0 <= height b /\ width b * height b < 2 ^ 32
  /\ Z.of_nat (length (cells b)) = width b * height b.

(** [ws_col] and [ws_row] are [unsigned short]. *)
Definition wf_winsize (sz : winsize) : Prop :=
  0 <= ws_col sz < 2 ^ 16 /\ 0 <= ws_row sz < 2 ^ 16.

(** Both buffers allocated, with the same dimensions, which are those of
    a terminal window ([unsigned short] values, as [update_term_size]
    obtains them). *)
Definition wf_buffers {R : Type} (s : tb_state R) : Prop :=
  wf_cellbuf (back_buffer s) /\ wf_cellbuf (front_buffer s)
  /\ width (front_buffer s) = width (back_buffer s)
  /\ height (front_buffer s) = height (back_buffer s)
  /\ width (back_buffer s) < 2 ^ 16 /\ height (back_buffer s) < 2 ^ 16.

(** Every cell of the buffer is the blank cell. *)
Definition all_blank (b : cellbuf) : Prop :=
  forall x y, 0 <= x < width b -> 0 <= y < height b -> cell_at b x y = Some blank_cell.

(** The calls that write to the back buffer. *)
Inductive write_op :=
  | Put_cell (x y : Z) (c : tb_cell)
  | Change_cell (x y ch fg bg : Z)
  | Blit (x y w h : Z) (src : list tb_cell).

Definition run_write {R : Type} (op : write_op) (s : tb_state R) : option (tb_state R) :=
  match op with
  | Put_cell x y c => tb_put_cell x y c s
  | Change_cell x y ch fg bg => tb_change_cell x y ch fg bg s
  | Blit x y w h src => tb_blit x y w h src s
  end.

Fixpoint run_writes {R : Type} (ops : list write_op) (s : tb_state R)
  : option (tb_state R) :=
  match ops with
  | [] => Some s
  | op :: ops' => s' ← run_write op s; run_writes ops' s'
  end.

(** A write within the bounds of a [wd] by [ht] buffer: the cell position
    lies in the grid, or the rectangle fits in it and the source array
    holds the [w * h] cells to copy. *)
Definition in_bounds (wd ht : Z) (op : write_op) : Prop :=
  match op with
  | Put_cell x y _ => 0 <= x < wd /\ 0 <= y < ht
  | Change_cell x y _ _ _ => 0 <= x < wd /\ 0 <= y < ht
  | Blit x y w h src =>
      0 <= x /\ 0 <= y /\ 0 <= w /\ 0 <= h /\ x + w <= wd /\ y + h <= ht
      /\ w * h <= Z.of_nat (length src)
  end.

(** What [send_attr] puts on the stream when it emits: the reset, the
    colour pair, [T_BOLD] for the bold bit of [fg], and [T_BLINK] for the
    bit [blink_bit] of [bg]. *)
Definition attr_items (blink_bit : Z) (fg bg : Z) : list out_item :=
  [Fputs T_SGR0; Fprintf T_SGR (Z.land fg 0x0F) (Z.land bg 0x0F)]
  ++ (if decide (Z.land fg TB_BOLD <> 0) then [Fputs T_BOLD] else [])
  ++ (if decide (Z.land bg blink_bit <> 0) then [Fputs T_BLINK] else []).

(** What [send_char] puts on the stream: the cursor move unless the cell
    follows the last one written, then the bytes of the character. *)
Definition char_items {R : Type} (x y c : Z) (s : tb_state R) : list out_item :=
  (if decide (sint32 x - 1 <> lastx s \/ y <> uint32 (lasty s))
   then [Fprintf T_MOVE_CURSOR (uint32 (y + 1)) (uint32 (x + 1))] else [])
  ++ [Fputs_buf (c_str (utf8_unicode_to_char c ++ [0]))].

(** ** A byte ring and a decoder to run the event loop on *)

(** Modelled from the spec: the ring buffer of ringbuffer.h (not part of
    the sources at hand), as the logical byte stream the decoder sees: a
    fixed capacity, [free_space = capacity - size], and a [push] that
    fails silently when the bytes do not fit. *)
Record ring := { ring_capacity : Z; ring_bytes : list Z }.

Definition ring_free_space (r : ring) : Z :=
  ring_capacity r - Z.of_nat (length (ring_bytes r)).

Definition ring_push (r : ring) (bs : list Z) : ring :=
  if decide (Z.of_nat (length bs) <= ring_free_space r)
  then {| ring_capacity := ring_capacity r; ring_bytes := ring_bytes r ++ bs |}
  else r.

#[global] Instance ring_RingBuffer : RingBuffer ring := {|
  init_ringbuffer := fun _ size => {| ring_capacity := size; ring_bytes := [] |};
  free_ringbuffer := fun r => {| ring_capacity := 0; ring_bytes := [] |};
  ringbuffer_free_space := ring_free_space;
  ringbuffer_push := ring_push |}.

(** Modelled from the spec: the decoder [extract_event] (not part of the
    sources at hand), restricted to its one-byte cases: a control byte
    gives a key event, another byte below [0x80] a character event, and
    anything else, or an empty ring, asks for more bytes. *)
Definition extract_event_1 (ev : tb_key_event) (r : ring) (mode : Z)
  : Z * tb_key_event * ring :=
  match ring_bytes r with
  | b0 :: rest =>
      let r' := {| ring_capacity := ring_capacity r; ring_bytes := rest |} in
      if decide (b0 < 0x20 \/ b0 = 0x7F)
      then (0, {| ev_ch := 0; ev_key := b0; ev_mod := 0 |}, r')
      else if decide (b0 < 0x80)
      then (0, {| ev_ch := b0; ev_key := 0; ev_mod := 0 |}, r')
      else (-1, ev, r)
  | [] => (-1, ev, r)
  end.

(** Sample values: storage that holds a visible non-blank pattern when
    fresh, a terminal of 3 columns and 2 rows, and an environment in
    which [tb_init] succeeds. *)
Definition junk_pattern (i : nat) : tb_cell :=
  {| ch := 0x3F; fg := TB_RED; bg := TB_BLUE |}.

Definition flags0 : termios_flags :=
  {| IFLAGS := 0x5EB; OFLAGS := 0x1; LFLAGS := 0x804B; CSIZE_PARENB := 0x130; CS8 := 0x30 |}.

Definition win_3x2 : winsize := {| ws_col := 3; ws_row := 2 |}.
Definition win_4x3 : winsize := {| ws_col := 4; ws_row := 3 |}.

Definition env_ok : tty_env :=
  {| fopen_w := Some {| fileno := 3 |};
     fopen_r := Some {| fileno := 4 |};
     init_term_ret := 0;
     tcgetattr_tios := {| c_iflag := 0x500; c_oflag := 0x5; c_cflag := 0xBF;
                          c_lflag := 0x8A3B; c_cc_VMIN := 1; c_cc_VTIME := 0 |};
     ioctl_winsize := win_3x2 |}.

Definition ring0 : ring := {| ring_capacity := 0; ring_bytes := [] |}.

(** The session right after a successful [tb_init] on the 3 by 2 terminal. *)
Definition session_3x2 : tb_state ring :=
  match tb_init junk_pattern flags0 env_ok (tb_state0 ring0) with
  | Some (_, s) => s
  | None => tb_state0 ring0
  end.

(** An environment in which the tty opens for writing but not for
    reading, and one in which both streams open but the terminal is not
    recognised. *)
Definition env_no_read : tty_env :=
  {| fopen_w := Some {| fileno := 3 |};
     fopen_r := None;
     init_term_ret := 0;
     tcgetattr_tios := tcgetattr_tios env_ok;
     ioctl_winsize := win_3x2 |}.

Definition env_bad_term : tty_env :=
  {| fopen_w := Some {| fileno := 3 |};
     fopen_r := Some {| fileno := 4 |};
     init_term_ret := -1;
     tcgetattr_tios := tcgetattr_tios env_ok;
     ioctl_winsize := win_3x2 |}.

(** A red-on-black ['A'], and the same cell with the blink attribute of
    termbox.h in its background. *)
Definition cell_A : tb_cell := {| ch := 0x41; fg := TB_RED; bg := TB_BLACK |}.
Definition cell_A_blink : tb_cell :=
  {| ch := 0x41; fg := TB_RED; bg := Z.lor TB_BLACK TB_BLINK |}.

(** The 3 by 2 session with a ring of four bytes that holds the first
    byte of a two-byte rune. *)
Definition session_small_ring : tb_state ring :=
  set_inbuf {| ring_capacity := 4; ring_bytes := [0xC3] |} session_3x2.

(** A 3 by 2 buffer whose six cells are all different. *)
Definition numbered_cell (n : Z) : tb_cell :=
  {| ch := 0x30 + n; fg := TB_GREEN; bg := TB_BLACK |}.

Definition buf_3x2 : cellbuf :=
  {| width := 3; height := 2; cells := numbered_cell <$> [0; 1; 2; 3; 4; 5] |}.

(** Three writes within the bounds of the 3 by 2 session. *)
Definition sample_ops : list write_op :=
  [ Put_cell 2 1 cell_A;
    Change_cell 0 0 0x2603 (Z.lor TB_YELLOW TB_BOLD) TB_BLUE;
    Blit 0 0 2 1 [cell_A_blink; cell_A] ].

(** The 3 by 2 session after the blinking ['A'] has been put at the
    origin of the back buffer. *)
Definition session_A_blink : tb_state ring :=
  match tb_put_cell 0 0 cell_A_blink session_3x2 with
  | Some s => s
  | None => session_3x2
  end.

(** The 3 by 2 session after ['A'] has been drawn at column 1 of row 0
    and presented. *)
Definition session_drawn : tb_state ring :=
  match s ← tb_put_cell 1 0 cell_A session_3x2; tb_present junk_pattern win_3x2 s with
  | Some s => s
  | None => session_3x2
  end.

(** ['B'] in the colours that [send_clear] selects. *)
Definition cell_B : tb_cell := {| ch := 0x42; fg := TB_WHITE; bg := TB_BLACK |}.

(** [session_drawn] after the window has grown to 4 by 3 and a
    [tb_clear] has reconciled the buffers with it. *)
Definition session_regrown : tb_state ring :=
  match tb_clear junk_pattern win_4x3 (sigwinch_handler session_drawn) with
  | Some s => s
  | None => session_drawn
  end.

(** ** Sequences of calls on a session *)

(** The calls a program makes between [tb_init] and [tb_shutdown], and
    the delivery of the window-change signal.  [Call_clear] and
    [Call_present] carry the window size that [ioctl] would report if the
    call has a resize to reconcile. *)
Inductive api_call :=
  | Call_write (op : write_op)
  | Call_clear (sz : winsize)
  | Call_present (sz : winsize)
  | Call_sigwinch
  | Call_select_input_mode (mode : Z).

Definition run_call {R : Type} (junk : nat -> tb_cell) (c : api_call) (s : tb_state R)
  : option (tb_state R) :=
  match c with
  | Call_write op => run_write op s
  | Call_clear sz => tb_clear junk sz s
  | Call_present sz => tb_present junk sz s
  | Call_sigwinch => Some (sigwinch_handler s)
  | Call_select_input_mode mode => Some (snd (tb_select_input_mode mode s))
  end.

Fixpoint run_calls {R : Type} (junk : nat -> tb_cell) (cs : list api_call) (s : tb_state R)
  : option (tb_state R) :=
  match cs with
  | [] => Some s
  | c :: cs' => s' ← run_call junk c s; run_calls junk cs' s'
  end.

(** What a caller has to respect for a call to be defined: coordinates
    and sizes are [unsigned int] values; the corner of a blitted rectangle
    does not wrap around and its source array holds [w * h] cells; window
    sizes are [unsigned short] pairs. *)
Definition call_ok (c : api_call) : Prop :=
  match c with
  | Call_write (Put_cell x y _) => 0 <= x /\ 0 <= y
  | Call_write (Change_cell x y _ _ _) => 0 <= x /\ 0 <= y
  | Call_write (Blit x y w h src) =>
      0 <= x /\ 0 <= y /\ 0 <= w /\ 0 <= h
      /\ x + w < 2 ^ 32 /\ y + h < 2 ^ 32
      /\ w * h <= Z.of_nat (length src)
  | Call_clear sz => wf_winsize sz
  | Call_present sz => wf_winsize sz
  | Call_sigwinch => True
  | Call_select_input_mode _ => True
  end.

(** The invariant of a running session: well-formed buffers of equal
    dimensions, which are the dimensions [tb_width] and [tb_height]
    report. *)
Definition session_inv {R : Type} (s : tb_state R) : Prop :=
  wf_buffers s
  /\ termw s = width (back_buffer s) /\ termh s = height (back_buffer s).

(** The part of the state that belongs to the tty: the saved attributes,
    the two streams and their descriptors. *)
Definition tty_handles {R : Type} (s : tb_state R)
  : termios * option FILE * option FILE * Z * Z :=
  (orig_tios s, out s, in_ s, out_fileno s, in_fileno s).

(** The length that [utf8_unicode_to_char] returns. *)
Definition utf8_length (c : Z) : nat :=
  if c <? 0x80 then 1
  else if c <? 0x800 then 2
  else if c <? 0x10000 then 3
  else if c <? 0x200000 then 4
  else if c <? 0x4000000 then 5
  else 6.

(** Rounds of the event loop that bring nothing: the descriptor was not
    ready, or the read returned no byte. *)
Definition idle_round (o : select_outcome) : Prop :=
  o = Sel_not_ready \/ o = Sel_read [].

(** How a run of the event loop ended, without the state. *)
Definition wait_code {R : Type} (r : wait_result R) : option Z :=
  match r with
  | Returned ret _ _ => Some ret
  | Waiting _ _ => None
  end.

Definition wait_state {R : Type} (r : wait_result R) : tb_state R :=
  match r with
  | Returned _ _ s => s
  | Waiting _ s => s
  end.

(** A session on the 3 by 2 terminal with ['A'] put at column 0 of row 1
    and not yet presented, and a 2 by 2 source for [tb_blit]. *)
Definition session_pending_A : tb_state ring :=
  match tb_put_cell 0 1 cell_A session_3x2 with
  | Some s => s
  | None => session_3x2
  end.

Definition src_2x2 : list tb_cell := numbered_cell <$> [1; 2; 3; 4].

(** A 4 by 3 session: the 3 by 2 one after a window change has been
    reconciled by [tb_clear]. *)
Definition session_4x3 : tb_state ring :=
  match tb_clear junk_pattern win_4x3 (sigwinch_handler session_3x2) with
  | Some s => s
  | None => session_3x2
  end.

(** A short program on the 3 by 2 session: draw, present, have the window
    grow, draw again, present. *)
Definition sample_calls : list api_call :=
  [ Call_write (Put_cell 2 1 cell_A);
    Call_write (Blit 0 0 2 1 [cell_A_blink; cell_A]);
    Call_present win_3x2;
    Call_sigwinch;
    Call_write (Put_cell 7 7 cell_A);
    Call_select_input_mode TB_INPUT_ALT;
    Call_clear win_4x3;
    Call_write (Change_cell 3 2 0x2603 TB_CYAN TB_BLACK);
    Call_present win_4x3 ].

(** * Properties *)

(** ** Loops and arrays *)

(** The invariant rule for counted loops: a property that holds at entry
    and that every defined iteration carries from [k] to [k + 1] holds at
    exit, and the loop is defined. *)
Lemma for_upto_inv {St : Type} (P : Z -> St -> Prop) (n : nat) (i : Z)
    (body : Z -> St -> option St) (s : St) :
  P i s ->
  (forall k t, i <= k < i + Z.of_nat n -> P k t ->
               exists t', body k t = Some t' /\ P (k + 1) t') ->
  exists t, for_upto n i body s = Some t /\ P (i + Z.of_nat n) t.
Proof.
  revert i s. induction n as [|n IH]; intros i s Hi Hstep.
  - exists s. split; [reflexivity|]. replace (i + Z.of_nat 0) with i by lia. exact Hi.
  - destruct (Hstep i s ltac:(lia) Hi) as (t' & Hb & Ht').
    destruct (IH (i + 1) t' Ht') as (t & Hrun & Ht).
    + intros k u Hk Hu. apply Hstep; [lia | exact Hu].
    + exists t. split.
      * simpl. rewrite Hb. simpl. exact Hrun.
      * replace (i + Z.of_nat (S n)) with (i + 1 + Z.of_nat n) by lia. exact Ht.
Qed.

Lemma load_lt (a : list tb_cell) (i : Z) (c : tb_cell) :
  load a i = Some c -> 0 <= i < Z.of_nat (length a).
Proof.
  unfold load. destruct (decide (0 <= i)) as [Hi|Hi]; [|discriminate].
  intros Hl. apply lookup_lt_Some in Hl. lia.
Qed.

Lemma load_is_Some (a : list tb_cell) (i : Z) :
  0 <= i < Z.of_nat (length a) -> exists c, load a i = Some c.
Proof.
  intros Hi. unfold load. destruct (decide (0 <= i)) as [_|]; [|lia].
  destruct (lookup_lt_is_Some_2 a (Z.to_nat i)) as [c Hc]; [lia|]. eauto.
Qed.

Lemma store_is_Some (a : list tb_cell) (i : Z) (c : tb_cell) :
  0 <= i < Z.of_nat (length a) -> store a i c = Some (<[Z.to_nat i := c]> a).
Proof. intros Hi. unfold store. destruct (decide _); [reflexivity | lia]. Qed.

Lemma store_length (a a' : list tb_cell) (i : Z) (c : tb_cell) :
  store a i c = Some a' -> length a' = length a.
Proof.
  unfold store. destruct (decide _); [|discriminate].
  intros [= <-]. apply length_insert.
Qed.

Lemma load_store (a a' : list tb_cell) (i j : Z) (c : tb_cell) :
  store a i c = Some a' ->
  load a' j = if decide (j = i) then Some c else load a j.
Proof.
  unfold store. destruct (decide (0 <= i < _)) as [Hi|]; [|discriminate].
  intros [= <-]. unfold load. destruct (decide (j = i)) as [->|Hne].
  - destruct (decide (0 <= i)); [|lia]. apply list_lookup_insert_eq. lia.
  - destruct (decide (0 <= j)); [|reflexivity].
    apply list_lookup_insert_ne. lia.
Qed.

Lemma memcpy_is_Some (dst src : list tb_cell) (d s n : Z) :
  0 <= d -> 0 <= s -> 0 <= n ->
  d + n <= Z.of_nat (length dst) -> s + n <= Z.of_nat (length src) ->
  exists r, memcpy dst d src s n = Some r.
Proof.
  intros. unfold memcpy. destruct (decide _) as [_|Hn]; [eauto | lia].
Qed.

Lemma memcpy_length (dst src r : list tb_cell) (d s n : Z) :
  memcpy dst d src s n = Some r -> length r = length dst.
Proof.
  unfold memcpy. destruct (decide _) as [(Hd & Hs & Hn & Hdn & Hsn)|]; [|discriminate].
  intros [= <-]. rewrite !length_app, !length_take, !length_drop. lia.
Qed.

Lemma load_memcpy (dst src r : list tb_cell) (d s n p : Z) :
  memcpy dst d src s n = Some r ->
  load r p = if decide (d <= p < d + n) then load src (s + (p - d)) else load dst p.
Proof.
  unfold memcpy. destruct (decide _) as [(Hd & Hs & Hn & Hdn & Hsn)|]; [|discriminate].
  intros [= <-]. unfold load.
  destruct (decide (0 <= p)) as [Hp|Hp].
  2:{ destruct (decide (d <= p < d + n)); [lia | reflexivity]. }
  destruct (decide (d <= p < d + n)) as [Hin|Hout].
  - destruct (decide (0 <= s + (p - d))); [|lia].
    rewrite lookup_app_r by (rewrite length_take; lia).
    rewrite length_take, Nat.min_l by lia.
    rewrite lookup_app_l by (rewrite length_take, length_drop; lia).
    rewrite lookup_take_lt by lia. rewrite lookup_drop. f_equal. lia.
  - destruct (decide (p < d)) as [Hlt|Hge].
    + rewrite lookup_app_l by (rewrite length_take; lia).
      apply lookup_take_lt. lia.
    + rewrite lookup_app_r by (rewrite length_take; lia).
      rewrite length_take, Nat.min_l by lia.
      rewrite lookup_app_r by (rewrite length_take, length_drop; lia).
      rewrite length_take, length_drop, Nat.min_l by lia.
      rewrite lookup_drop. f_equal. lia.
Qed.

(** Two arrays of the same length with the same elements are equal. *)
Lemma load_ext (a b : list tb_cell) :
  length a = length b ->
  (forall i, 0 <= i < Z.of_nat (length a) -> load a i = load b i) ->
  a = b.
Proof.
  intros Hlen Hall. apply list_eq. intros i.
  destruct (decide (i < length a)%nat) as [Hi|Hi].
  - specialize (Hall (Z.of_nat i) ltac:(lia)). unfold load in Hall.
    destruct (decide (0 <= Z.of_nat i)); [|lia]. rewrite Nat2Z.id in Hall. exact Hall.
  - rewrite !lookup_ge_None_2 by lia. reflexivity.
Qed.

(** ** The cell buffer *)

Lemma uint32_small (z : Z) : 0 <= z < 2 ^ 32 -> uint32 z = z.
Proof. intros Hz. unfold uint32. apply Z.mod_small. exact Hz. Qed.

(** [cellbuf_clear] is defined on a well-formed buffer and leaves every
    cell blank. *)
Lemma cellbuf_clear_spec (buf : cellbuf) :
  wf_cellbuf buf ->
  exists cs, cellbuf_clear buf = Some (with_cells buf cs)
             /\ length cs = length (cells buf)
             /\ forall i, 0 <= i < Z.of_nat (length cs) -> load cs i = Some blank_cell.
Proof.
  intros (Hw & Hh & Hsz & Hlen). unfold cellbuf_clear.
  assert (Hn : uint32 (width buf * height buf) = width buf * height buf)
    by (apply uint32_small; nia).
  rewrite Hn.
  destruct (for_upto_inv
    (fun k cs => length cs = length (cells buf)
                 /\ forall i, 0 <= i < k -> load cs i = Some blank_cell)
    (Z.to_nat (width buf * height buf)) 0
    (fun i cs => store cs i blank_cell) (cells buf)) as (cs & Hrun & Hcl & Hall).
  - split; [reflexivity | intros; lia].
  - intros k t Hk (Hl & Hb). eexists. split.
    + apply store_is_Some. lia.
    + split; [rewrite length_insert; exact Hl|].
      intros i Hi. erewrite load_store by (apply store_is_Some; lia).
      destruct (decide (i = k)); [reflexivity | apply Hb; lia].
  - exists cs. rewrite Hrun. simpl. split; [reflexivity|]. split; [exact Hcl|].
    intros i Hi. apply Hall. lia.
Qed.

Lemma cellbuf_init_length (junk : nat -> tb_cell) (w h : Z) :
  0 <= w -> 0 <= h -> w * h < 2 ^ 32 ->
  Z.of_nat (length (cells (cellbuf_init junk w h))) = w * h.
Proof.
  intros Hw Hh Hsz. unfold cellbuf_init, malloc_cells, size_t. simpl.
  rewrite length_fmap, length_seq.
  rewrite Z.mod_small by nia.
  replace (8 * w * h) with (w * h * 8) by lia.
  rewrite Z.div_mul by lia. nia.
Qed.

Lemma cellbuf_init_wf (junk : nat -> tb_cell) (w h : Z) :
  0 <= w -> 0 <= h -> w * h < 2 ^ 32 -> wf_cellbuf (cellbuf_init junk w h).
Proof.
  intros Hw Hh Hsz. unfold wf_cellbuf.
  rewrite cellbuf_init_length by assumption. simpl. auto.
Qed.

(** Position [(j, i)] of a grid of width [w] falls into the first [m]
    cells of row [k] exactly when [i = k] and [j < m]. *)
Lemma row_segment (w m i j k : Z) :
  0 <= j < w -> 0 <= m <= w -> 0 <= i -> 0 <= k ->
  (k * w <= i * w + j < k * w + m) <-> (i = k /\ j < m).
Proof.
  intros Hj Hm Hi Hk. split.
  - intros [Hlo Hhi]. assert (i = k) by nia. subst i. split; [reflexivity | lia].
  - intros [-> Hjm]. lia.
Qed.

(** What [cellbuf_resize] computes when the dimensions change: a buffer
    of the new dimensions that holds the old cell wherever the old and the
    new rectangle overlap and the blank cell everywhere else. *)
Lemma cellbuf_resize_spec (junk : nat -> tb_cell) (buf : cellbuf) (w h : Z) :
  wf_cellbuf buf -> 0 <= w -> 0 <= h -> w * h < 2 ^ 32 ->
  ~ (width buf = w /\ height buf = h) ->
  exists cs,
    cellbuf_resize junk buf w h = Some {| width := w; height := h; cells := cs |}
    /\ Z.of_nat (length cs) = w * h
    /\ forall i j, 0 <= i < h -> 0 <= j < w ->
         load cs (i * w + j) =
           if decide (i < height buf /\ j < width buf)
           then load (cells buf) (i * width buf + j)
           else Some blank_cell.
Proof.
  intros (Hw0 & Hh0 & Hsz0 & Hlen0) Hw Hh Hsz Hne.
  unfold cellbuf_resize. destruct (decide _) as [|_]; [contradiction|].
  destruct (cellbuf_clear_spec (cellbuf_init junk w h)) as (cs1 & Hclr & Hl1 & Hb1);
    [apply cellbuf_init_wf; assumption|].
  rewrite Hclr. simpl.
  assert (Hlen1 : Z.of_nat (length cs1) = w * h)
    by (rewrite Hl1; apply cellbuf_init_length; assumption).
  set (minw := if w <? width buf then w else width buf).
  set (minh := if h <? height buf then h else height buf).
  assert (Hminw : minw = Z.min w (width buf))
    by (unfold minw; destruct (Z.ltb_spec w (width buf)); lia).
  assert (Hminh : minh = Z.min h (height buf))
    by (unfold minh; destruct (Z.ltb_spec h (height buf)); lia).
  destruct (for_upto_inv
    (fun k cs => Z.of_nat (length cs) = w * h
       /\ forall i j, 0 <= i < h -> 0 <= j < w ->
            load cs (i * w + j) =
              if decide (i < k /\ j < minw)
              then load (cells buf) (i * width buf + j)
              else Some blank_cell)
    (Z.to_nat minh) 0
    (fun i cs => memcpy cs (uint32 (i * w)) (cells buf) (uint32 (i * width buf)) minw)
    cs1) as (cs & Hrun & Hlen & Hall).
  - split; [exact Hlen1|]. intros i j Hi Hj.
    destruct (decide (i < 0 /\ j < minw)); [lia|]. apply Hb1. nia.
  - intros k t Hk (Hlt & Ht).
    assert (Hkw : uint32 (k * w) = k * w) by (apply uint32_small; nia).
    assert (Hko : uint32 (k * width buf) = k * width buf) by (apply uint32_small; nia).
    rewrite Hkw, Hko.
    destruct (memcpy_is_Some t (cells buf) (k * w) (k * width buf) minw) as [r Hr];
      [nia | nia | lia | nia | nia |].
    exists r. split; [exact Hr|]. split.
    + rewrite (memcpy_length _ _ _ _ _ _ Hr). exact Hlt.
    + intros i j Hi Hj. rewrite (load_memcpy _ _ _ _ _ _ _ Hr).
      pose proof (row_segment w minw i j k Hj ltac:(lia) ltac:(lia) ltac:(lia)) as Hseg.
      destruct (decide (k * w <= i * w + j < k * w + minw)) as [Hin|Hout].
      * apply Hseg in Hin as [-> Hjm].
        destruct (decide (k < k + 1 /\ j < minw)); [|lia]. f_equal. lia.
      * rewrite Ht by assumption.
        destruct (decide (i < k /\ j < minw)), (decide (i < k + 1 /\ j < minw));
          try reflexivity; try lia.
  - exists cs. rewrite Hrun. simpl. split; [reflexivity|]. split; [exact Hlen|].
    intros i j Hi Hj. rewrite Hall by assumption.
    destruct (decide (i < 0 + Z.of_nat (Z.to_nat minh) /\ j < minw)),
             (decide (i < height buf /\ j < width buf)); try reflexivity; lia.
Qed.

(** C8.  [cellbuf_resize] to the dimensions the buffer already has returns
    the buffer as it is; to other dimensions it yields a buffer of the new
    dimensions in which every cell of a row [i < min(h, h')] and a column
    [j < min(w, w')] is the cell that was at [(j, i)] before. *)
Theorem cellbuf_resize_preserves (junk : nat -> tb_cell) (buf : cellbuf) (w h : Z) :
  wf_cellbuf buf -> 0 <= w -> 0 <= h -> w * h < 2 ^ 32 ->
  (width buf = w /\ height buf = h -> cellbuf_resize junk buf w h = Some buf)
  /\ (~ (width buf = w /\ height buf = h) ->
      exists buf',
        cellbuf_resize junk buf w h = Some buf'
        /\ width buf' = w /\ height buf' = h /\ wf_cellbuf buf'
        /\ forall i j,
             0 <= i < Z.min (height buf) h -> 0 <= j < Z.min (width buf) w ->
             cell_at buf' j i = cell_at buf j i).
Proof.
  intros Hwf Hw Hh Hsz. split.
  - intros Heq. unfold cellbuf_resize. destruct (decide _); [reflexivity | contradiction].
  - intros Hne.
    destruct (cellbuf_resize_spec junk buf w h Hwf Hw Hh Hsz Hne) as (cs & Hr & Hlen & Hall).
    destruct Hwf as (Hw0 & Hh0 & Hsz0 & Hlen0).
    eexists. split; [exact Hr|]. simpl. repeat split; try assumption.
    intros i j Hi Hj. unfold cell_at, CELL. simpl.
    rewrite !uint32_small by nia.
    rewrite Hall by lia. destruct (decide _); [reflexivity | lia].
Qed.

(** C10.  After [cellbuf_resize] has changed the dimensions, every cell of
    the new buffer that lies outside the old rectangle holds the blank
    cell, whatever the fresh storage contained. *)
Theorem cellbuf_resize_exposed_blank (junk : nat -> tb_cell) (buf : cellbuf) (w h : Z) :
  wf_cellbuf buf -> 0 <= w -> 0 <= h -> w * h < 2 ^ 32 ->
  ~ (width buf = w /\ height buf = h) ->
  exists buf',
    cellbuf_resize junk buf w h = Some buf'
    /\ forall x y, 0 <= x < w -> 0 <= y < h ->
         ~ (x < width buf /\ y < height buf) ->
         cell_at buf' x y = Some blank_cell.
Proof.
  intros Hwf Hw Hh Hsz Hne.
  destruct (cellbuf_resize_spec junk buf w h Hwf Hw Hh Hsz Hne) as (cs & Hr & Hlen & Hall).
  eexists. split; [exact Hr|].
  intros x y Hx Hy Hout. unfold cell_at, CELL. simpl.
  rewrite uint32_small by nia.
  rewrite Hall by lia. destruct (decide _); [lia | reflexivity].
Qed.

(** ** UTF-8 *)

(** A property of the integers below a small bound is checked on each of
    them. *)
Lemma below_bound (P : Z -> Prop) (n : Z) :
  Forall P (seqZ 0 n) -> forall a, 0 <= a < n -> P a.
Proof.
  intros Hall a Ha. rewrite Forall_forall in Hall. apply Hall.
  apply elem_of_seqZ. lia.
Qed.

Ltac by_cases_below n :=
  apply (below_bound _ n); apply (bool_decide_unpack _); vm_compute; exact I.

(** A continuation byte carries the marker [10] and the low six bits. *)
Lemma trail_byte (a : Z) :
  0 <= a < 64 ->
  Z.land (uint8 (Z.lor a 0x80)) 0xc0 = 0x80 /\ Z.land (uint8 (Z.lor a 0x80)) 0x3f = a.
Proof. revert a. by_cases_below 64. Qed.

(** The first byte of each of the six forms announces its length and
    returns its payload under the mask of that length. *)
Lemma lead_byte_1 (a : Z) :
  0 <= a < 0x80 ->
  utf8_lead (uint8 (Z.lor a 0)) = Some (1%nat, 0x7f) /\ Z.land (uint8 (Z.lor a 0)) 0x7f = a.
Proof. revert a. by_cases_below 0x80. Qed.

Lemma lead_byte_2 (a : Z) :
  0 <= a < 0x20 ->
  utf8_lead (uint8 (Z.lor a 0xc0)) = Some (2%nat, 0x1f)
  /\ Z.land (uint8 (Z.lor a 0xc0)) 0x1f = a.
Proof. revert a. by_cases_below 0x20. Qed.

Lemma lead_byte_3 (a : Z) :
  0 <= a < 0x10 ->
  utf8_lead (uint8 (Z.lor a 0xe0)) = Some (3%nat, 0x0f)
  /\ Z.land (uint8 (Z.lor a 0xe0)) 0x0f = a.
Proof. revert a. by_cases_below 0x10. Qed.

Lemma lead_byte_4 (a : Z) :
  0 <= a < 0x08 ->
  utf8_lead (uint8 (Z.lor a 0xf0)) = Some (4%nat, 0x07)
  /\ Z.land (uint8 (Z.lor a 0xf0)) 0x07 = a.
Proof. revert a. by_cases_below 0x08. Qed.

Lemma lead_byte_5 (a : Z) :
  0 <= a < 0x04 ->
  utf8_lead (uint8 (Z.lor a 0xf8)) = Some (5%nat, 0x03)
  /\ Z.land (uint8 (Z.lor a 0xf8)) 0x03 = a.
Proof. revert a. by_cases_below 0x04. Qed.

Lemma lead_byte_6 (a : Z) :
  0 <= a < 0x02 ->
  utf8_lead (uint8 (Z.lor a 0xfc)) = Some (6%nat, 0x01)
  /\ Z.land (uint8 (Z.lor a 0xfc)) 0x01 = a.
Proof. revert a. by_cases_below 0x02. Qed.

(** Appending six bits below an accumulator: the shifted accumulator has
    its low six bits clear, so the disjunction is a sum. *)
Lemma shift_or_six (acc a : Z) :
  0 <= acc -> 0 <= a < 64 -> Z.lor (Z.shiftl acc 6) a = acc * 64 + a.
Proof.
  intros Hacc Ha.
  assert (Hdisj : Z.land (Z.shiftl acc 6) a = 0).
  { apply Z.bits_inj'. intros n Hn. rewrite Z.land_spec, Z.bits_0.
    destruct (Z.lt_ge_cases n 6) as [Hlt|Hge].
    - rewrite Z.shiftl_spec_low by exact Hlt. reflexivity.
    - rewrite (Z.bits_above_log2 a n); [apply andb_false_r | lia |].
      destruct (Z.eq_dec a 0) as [->|Hnz]; [simpl; lia|].
      apply Z.lt_le_trans with 6; [|exact Hge].
      apply Z.log2_lt_pow2; lia. }
  rewrite <- Z.lxor_lor by exact Hdisj.
  rewrite <- Z.add_nocarry_lxor by exact Hdisj.
  rewrite Z.shiftl_mul_pow2 by lia. reflexivity.
Qed.

(** The encoder's loop and the decoder's loop undo each other: the [n]
    bytes the encoder produces for [c] take the decoder from any
    accumulator [a0] to [a0 * 64^n + c mod 64^n], and the encoder is left
    with [c / 64^n] for the first byte. *)
Lemma utf8_trail_decode (n : nat) :
  forall c acc, 0 <= c ->
  exists bs,
    utf8_trail n c acc = (c / 64 ^ Z.of_nat n, bs ++ acc)
    /\ length bs = n
    /\ forall a0 rest, 0 <= a0 ->
         utf8_decode_trail a0 (bs ++ rest)
         = utf8_decode_trail (a0 * 64 ^ Z.of_nat n + c mod 64 ^ Z.of_nat n) rest.
Proof.
  induction n as [|n IH]; intros c acc Hc.
  - exists []. simpl. rewrite Z.div_1_r. split; [reflexivity|]. split; [reflexivity|].
    intros a0 rest _. rewrite Z.mod_1_r. f_equal. lia.
  - set (b := uint8 (Z.lor (Z.land c 0x3f) 0x80)).
    assert (Hland : Z.land c 0x3f = c mod 64)
      by (change 0x3f with (Z.ones 6); rewrite Z.land_ones by lia; reflexivity).
    assert (Hshr : Z.shiftr c 6 = c / 64)
      by (rewrite Z.shiftr_div_pow2 by lia; reflexivity).
    assert (Hm : 0 <= c mod 64 < 64) by (apply Z.mod_pos_bound; lia).
    assert (Hq : 0 <= c / 64) by (apply Z.div_pos; lia).
    destruct (IH (c / 64) (b :: acc) Hq) as (bs & Hrun & Hlen & Hdec).
    assert (Hp : 0 < 64 ^ Z.of_nat n) by (apply Z.pow_pos_nonneg; lia).
    assert (Hpow : 64 ^ Z.of_nat (S n) = 64 * 64 ^ Z.of_nat n)
      by (rewrite Nat2Z.inj_succ, Z.pow_succ_r by lia; reflexivity).
    exists (bs ++ [b]). split; [|split].
    + simpl utf8_trail. fold b. rewrite Hshr, Hrun, Hpow.
      rewrite Z.div_div by lia. rewrite <- app_assoc. reflexivity.
    + rewrite length_app, Hlen. simpl. lia.
    + intros a0 rest Ha0. rewrite <- app_assoc. simpl app. rewrite Hdec by exact Ha0.
      simpl utf8_decode_trail. unfold b. rewrite Hland.
      destruct (trail_byte (c mod 64) Hm) as [-> ->]. simpl.
      assert (Hr : 0 <= (c / 64) mod 64 ^ Z.of_nat n) by (apply Z.mod_pos_bound; lia).
      rewrite shift_or_six by nia.
      f_equal. rewrite Hpow, Z.rem_mul_r by lia. ring.
Qed.

(** Encoding and then decoding any value below [2^31] gives it back. *)
Lemma utf8_roundtrip_31 (c : Z) :
  0 <= c < 2 ^ 31 -> utf8_decode_ref (utf8_unicode_to_char c) = Some c.
Proof.
  intros Hc. unfold utf8_unicode_to_char.
  assert (Hfin : forall (n : nat) first len mask,
    (0 <= c / 64 ^ Z.of_nat n ->
     utf8_lead (uint8 (Z.lor (c / 64 ^ Z.of_nat n) first)) = Some (len, mask)
     /\ Z.land (uint8 (Z.lor (c / 64 ^ Z.of_nat n) first)) mask = c / 64 ^ Z.of_nat n) ->
    len = S n ->
    utf8_decode_ref
      (let '(c', trail) := utf8_trail n c [] in uint8 (Z.lor c' first) :: trail)
    = Some c).
  { intros n first len mask Hlead ->.
    assert (Hp : 0 < 64 ^ Z.of_nat n) by (apply Z.pow_pos_nonneg; lia).
    assert (Hq : 0 <= c / 64 ^ Z.of_nat n) by (apply Z.div_pos; lia).
    destruct (utf8_trail_decode n c [] ltac:(lia)) as (bs & Hrun & Hlen & Hdec).
    destruct (Hlead Hq) as [Hl Hmask].
    rewrite Hrun, app_nil_r. unfold utf8_decode_ref. rewrite Hl.
    destruct (decide _) as [_|Hbad]; [|lia].
    rewrite Hmask. rewrite <- (app_nil_r bs), Hdec by exact Hq. simpl.
    f_equal. pose proof (Z.div_mod c (64 ^ Z.of_nat n)). lia. }
  assert (Hdiv : forall (n : nat) bound,
    c < bound * 64 ^ Z.of_nat n -> c / 64 ^ Z.of_nat n < bound).
  { intros n bound Hb. apply Z.div_lt_upper_bound; [apply Z.pow_pos_nonneg|]; lia. }
  destruct (Z.ltb_spec c 0x80);
    [| destruct (Z.ltb_spec c 0x800);
       [| destruct (Z.ltb_spec c 0x10000);
          [| destruct (Z.ltb_spec c 0x200000);
             [| destruct (Z.ltb_spec c 0x4000000)]]]].
  - apply (Hfin 0%nat 0 1%nat 0x7f); [|reflexivity].
    intros Hq. apply lead_byte_1. split; [exact Hq | apply Hdiv; simpl; lia].
  - apply (Hfin 1%nat 0xc0 2%nat 0x1f); [|reflexivity].
    intros Hq. apply lead_byte_2. split; [exact Hq | apply Hdiv; simpl; lia].
  - apply (Hfin 2%nat 0xe0 3%nat 0x0f); [|reflexivity].
    intros Hq. apply lead_byte_3. split; [exact Hq | apply Hdiv; simpl; lia].
  - apply (Hfin 3%nat 0xf0 4%nat 0x07); [|reflexivity].
    intros Hq. apply lead_byte_4. split; [exact Hq | apply Hdiv; simpl; lia].
  - apply (Hfin 4%nat 0xf8 5%nat 0x03); [|reflexivity].
    intros Hq. apply lead_byte_5. split; [exact Hq | apply Hdiv; simpl; lia].
  - apply (Hfin 5%nat 0xfc 6%nat 0x01); [|reflexivity].
    intros Hq. apply lead_byte_6. split; [exact Hq | apply Hdiv; simpl; lia].
Qed.

(** C9.  For every Unicode scalar value, that is every [c] from [0] to
    [0x10FFFF] outside the surrogate range [0xD800..0xDFFF], decoding the
    bytes that [utf8_unicode_to_char] writes by the classical UTF-8 rules
    gives [c] back. *)
Theorem utf8_roundtrip (c : Z) :
  0 <= c <= 0x10FFFF -> ~ (0xD800 <= c <= 0xDFFF) ->
  utf8_decode_ref (utf8_unicode_to_char c) = Some c.
Proof. intros Hc _. apply utf8_roundtrip_31. lia. Qed.

(** ** The renderer *)

Section Renderer.

Context {R : Type}.
Implicit Types s : tb_state R.

(** [send_attr] and [send_char] write to the stream and to the caches
    only. *)
Lemma send_attr_frame fg bg s :
  back_buffer (send_attr fg bg s) = back_buffer s
  /\ front_buffer (send_attr fg bg s) = front_buffer s
  /\ lastx (send_attr fg bg s) = lastx s
  /\ lasty (send_attr fg bg s) = lasty s.
Proof.
  destruct s. unfold send_attr. repeat (destruct (decide _)); cbn; auto.
Qed.

Lemma send_char_frame x y c s :
  back_buffer (send_char x y c s) = back_buffer s
  /\ front_buffer (send_char x y c s) = front_buffer s
  /\ lastfg (send_char x y c s) = lastfg s
  /\ lastbg (send_char x y c s) = lastbg s.
Proof.
  destruct s. unfold send_char. destruct (decide _); cbn; auto.
Qed.

(** The stream after [send_attr]: nothing new when the pair is the
    cached one, otherwise the reset, the colours, and the two optional
    attributes, both decided by the [TB_BOLD] bit. *)
Lemma send_attr_out fg bg s :
  tty_out (send_attr fg bg s)
  = tty_out s ++ (if decide (fg <> lastfg s \/ bg <> lastbg s)
                  then attr_items TB_BOLD fg bg else []).
Proof.
  destruct s. unfold send_attr, attr_items.
  destruct (decide _); [|symmetry; apply app_nil_r].
  destruct (decide (Z.land fg TB_BOLD <> 0)), (decide (Z.land bg TB_BOLD <> 0));
    cbn; rewrite <- ?app_assoc; reflexivity.
Qed.

Lemma send_attr_caches fg bg s :
  lastfg (send_attr fg bg s) = fg /\ lastbg (send_attr fg bg s) = bg.
Proof.
  destruct s as [? ? ? ? ? ? ? ? ? ? ? ? lfg lbg ? ? ? ?]. unfold send_attr. cbn.
  destruct (decide (fg <> lfg \/ bg <> lbg)) as [|Hn].
  - repeat (destruct (decide _)); cbn; auto.
  - cbn. split; [destruct (decide (fg = lfg)) | destruct (decide (bg = lbg))];
      solve [congruence | tauto].
Qed.

Lemma send_char_out x y c s :
  tty_out (send_char x y c s) = tty_out s ++ char_items x y c s.
Proof.
  destruct s. unfold send_char, char_items. destruct (decide _); cbn;
    rewrite <- ?app_assoc; reflexivity.
Qed.

(** One step of the inner loop of [tb_present]: with both cells in
    their arrays the step is defined; it leaves the back buffer and the
    dimensions alone and makes the front cell equal to the back cell. *)
Lemma present_cell_spec y x s :
  0 <= CELL (back_buffer s) x y < Z.of_nat (length (cells (back_buffer s))) ->
  0 <= CELL (front_buffer s) x y < Z.of_nat (length (cells (front_buffer s))) ->
  exists s',
    present_cell y x s = Some s'
    /\ back_buffer s' = back_buffer s
    /\ width (front_buffer s') = width (front_buffer s)
    /\ height (front_buffer s') = height (front_buffer s)
    /\ length (cells (front_buffer s')) = length (cells (front_buffer s))
    /\ forall p, load (cells (front_buffer s')) p =
                 if decide (p = CELL (front_buffer s) x y)
                 then load (cells (back_buffer s)) (CELL (back_buffer s) x y)
                 else load (cells (front_buffer s)) p.
Proof.
  intros Hb Hf. unfold present_cell.
  destruct (load_is_Some _ _ Hb) as [b Hlb]. destruct (load_is_Some _ _ Hf) as [f Hlf].
  rewrite Hlb, Hlf. cbn -[send_attr send_char].
  destruct (decide (b = f)) as [->|Hne].
  - exists s. repeat split; try reflexivity.
    intros p. destruct (decide _) as [->|]; [exact Hlf | reflexivity].
  - destruct (send_attr_frame (fg b) (bg b) s) as (Ha1 & Ha2 & _).
    destruct (send_char_frame x y (ch b) (send_attr (fg b) (bg b) s)) as (Hc1 & Hc2 & _).
    remember (send_char x y (ch b) (send_attr (fg b) (bg b) s)) as s1 eqn:Es1.
    assert (Hfb : front_buffer s1 = front_buffer s) by congruence.
    assert (Hbb : back_buffer s1 = back_buffer s) by congruence.
    rewrite Hfb. rewrite store_is_Some by exact Hf. cbn [mbind option_bind].
    eexists. split; [reflexivity|].
    clear Es1 Hc1 Hc2. destruct s1. cbn in Hbb |- *.
    split; [exact Hbb|]. repeat split; try reflexivity.
    + apply length_insert.
    + intros p. erewrite load_store by (apply store_is_Some; exact Hf).
      reflexivity.
Qed.

(** The two loops of [tb_present], from a state whose buffers are well
    formed and of equal dimensions: they are defined, leave the back
    buffer alone and make the front buffer equal to it. *)
Lemma present_loops s :
  wf_buffers s ->
  exists s',
    for_upto (Z.to_nat (height (front_buffer s))) 0 present_row s = Some s'
    /\ back_buffer s' = back_buffer s
    /\ front_buffer s' = back_buffer s.
Proof.
  intros ((Hbw & Hbh & Hbsz & Hblen) & (Hfw & Hfh & Hfsz & Hflen) & Hw & Hh & _).
  set (W := width (back_buffer s)) in *. set (Ht := height (back_buffer s)) in *.
  pose (inv := fun (n : Z) (t : tb_state R) =>
    back_buffer t = back_buffer s
    /\ width (front_buffer t) = W /\ height (front_buffer t) = Ht
    /\ length (cells (front_buffer t)) = length (cells (front_buffer s))
    /\ forall p, 0 <= p < n ->
         load (cells (front_buffer t)) p = load (cells (back_buffer s)) p).
  destruct (for_upto_inv (fun y t => inv (y * W) t)
              (Z.to_nat (height (front_buffer s))) 0 present_row s)
    as (s' & Hrun & Hinv).
  - unfold inv. repeat split; auto. intros p Hp. lia.
  - intros y t Hy (Hb & Hwt & Hht & Hlt & Hpt). unfold present_row. rewrite Hwt.
    destruct (for_upto_inv (fun x u => inv (y * W + x) u) (Z.to_nat W) 0 (present_cell y) t)
      as (t' & Hrow & Hinv').
    + rewrite Z.add_0_r. unfold inv. auto.
    + intros x u Hx (Hb' & Hwu & Hhu & Hlu & Hpu).
      assert (Hidx : 0 <= y * W + x < W * Ht) by nia.
      assert (Hcb : CELL (back_buffer u) x y = y * W + x)
        by (unfold CELL; rewrite Hb'; apply uint32_small; fold W; lia).
      assert (Hcf : CELL (front_buffer u) x y = y * W + x)
        by (unfold CELL; rewrite Hwu; apply uint32_small; lia).
      destruct (present_cell_spec y x u) as (u' & Hstep & Hb2 & Hw2 & Hh2 & Hl2 & Hp2).
      * rewrite Hcb, Hb'. lia.
      * rewrite Hcf, Hlu. lia.
      * exists u'. split; [exact Hstep|]. unfold inv.
        repeat split; try congruence.
        intros p Hp. rewrite Hp2, Hcf, Hcb, Hb'.
        destruct (decide (p = y * W + x)) as [->|]; [reflexivity | apply Hpu; lia].
    + exists t'. split; [exact Hrow|].
      replace ((y + 1) * W) with (y * W + (0 + Z.of_nat (Z.to_nat W))) by lia.
      exact Hinv'.
  - destruct Hinv as (Hb & Hwt & Hht & Hlt & Hpt).
    exists s'. split; [exact Hrun|]. split; [exact Hb|].
    assert (Hcells : cells (front_buffer s') = cells (back_buffer s)).
    { apply load_ext; [lia|]. intros i Hi. apply Hpt. nia. }
    destruct (front_buffer s') as [w' h' c']. destruct (back_buffer s) as [w0 h0 c0].
    simpl in *. subst. reflexivity.
Qed.

End Renderer.

(** ** Writes to the back buffer *)

Section Writes.

Context {R : Type}.
Implicit Types s : tb_state R.

Lemma set_back_cells_wf s cs :
  wf_buffers s -> length cs = length (cells (back_buffer s)) ->
  wf_buffers (set_back_buffer (with_cells (back_buffer s) cs) s).
Proof.
  destruct s. unfold wf_buffers, wf_cellbuf. cbn.
  intros ((Hbw & Hbh & Hbsz & Hblen) & Hf & Hw & Hh & Hw16 & Hh16) Hlen.
  rewrite Hlen. tauto.
Qed.

(** A [tb_put_cell] inside the grid stores the cell at its position. *)
Lemma tb_put_cell_in_bounds x y c s :
  wf_buffers s ->
  0 <= x < width (back_buffer s) -> 0 <= y < height (back_buffer s) ->
  exists cs,
    tb_put_cell x y c s = Some (set_back_buffer (with_cells (back_buffer s) cs) s)
    /\ length cs = length (cells (back_buffer s))
    /\ load cs (y * width (back_buffer s) + x) = Some c.
Proof.
  intros ((Hbw & Hbh & Hbsz & Hblen) & _) Hx Hy. unfold tb_put_cell.
  destruct (decide _) as [|_]; [lia|].
  assert (Hc : CELL (back_buffer s) x y = y * width (back_buffer s) + x)
    by (apply uint32_small; nia).
  rewrite Hc.
  assert (Hi : 0 <= y * width (back_buffer s) + x
               < Z.of_nat (length (cells (back_buffer s)))) by nia.
  rewrite (store_is_Some _ _ c Hi). simpl.
  eexists. split; [reflexivity|]. split; [apply length_insert|].
  erewrite load_store by (apply store_is_Some; exact Hi).
  destruct (decide _); [reflexivity | contradiction].
Qed.

(** A [tb_blit] whose rectangle fits and whose source is long enough is
    defined and keeps the shape of the back buffer. *)
Lemma tb_blit_in_bounds x y w h src s :
  wf_buffers s ->
  in_bounds (width (back_buffer s)) (height (back_buffer s)) (Blit x y w h src) ->
  exists cs,
    tb_blit x y w h src s = Some (set_back_buffer (with_cells (back_buffer s) cs) s)
    /\ length cs = length (cells (back_buffer s)).
Proof.
  intros ((Hbw & Hbh & Hbsz & Hblen) & _ & _ & _ & Hw16 & Hh16)
         (Hx & Hy & Hw & Hh & Hxw & Hyh & Hsrc).
  unfold tb_blit.
  set (W := width (back_buffer s)) in *. set (Ht := height (back_buffer s)) in *.
  destruct (decide _) as [|Hfit].
  { exists (cells (back_buffer s)). split; [|reflexivity].
    destruct s as [? [? ? ?] ? ? ? ? ? ? ? ? ? ? ? ? ? ? ? ?]. reflexivity. }
  rewrite !uint32_small in Hfit by lia.
  destruct (decide (2 ^ 31 <= h)) as [|_]; [lia|].
  assert (Hc : CELL (back_buffer s) x y = y * W + x) by (apply uint32_small; nia).
  rewrite Hc.
  destruct (for_upto_inv
    (fun (_ : Z) cs => length cs = length (cells (back_buffer s)))
    (Z.to_nat h) 0
    (fun sy cs => memcpy cs (y * W + x + sy * W) src (sy * w) w)
    (cells (back_buffer s))) as (cs & Hrun & Hlen).
  - reflexivity.
  - intros k t Hk Hlt.
    destruct (memcpy_is_Some t src (y * W + x + k * W) (k * w) w) as [r Hr];
      [nia | nia | lia | nia | nia |].
    exists r. split; [exact Hr|].
    rewrite (memcpy_length _ _ _ _ _ _ Hr). exact Hlt.
  - exists cs. rewrite Hrun. simpl. split; [reflexivity | exact Hlen].
Qed.

Lemma run_write_in_bounds op s :
  wf_buffers s ->
  in_bounds (width (back_buffer s)) (height (back_buffer s)) op ->
  exists cs,
    run_write op s = Some (set_back_buffer (with_cells (back_buffer s) cs) s)
    /\ length cs = length (cells (back_buffer s)).
Proof.
  intros Hwf Hin. destruct op as [x y c | x y ch fg bg | x y w h src]; simpl.
  - destruct Hin as [Hx Hy].
    destruct (tb_put_cell_in_bounds x y c s Hwf Hx Hy) as (cs & Hr & Hl & _). eauto.
  - destruct Hin as [Hx Hy]. unfold tb_change_cell.
    destruct (tb_put_cell_in_bounds x y {| ch := ch; fg := fg; bg := bg |} s Hwf Hx Hy)
      as (cs & Hr & Hl & _). eauto.
  - apply tb_blit_in_bounds; assumption.
Qed.

(** A sequence of writes within bounds is defined; it keeps the buffers
    well formed and touches neither the front buffer, the resize flag,
    nor the stream. *)
Lemma run_writes_in_bounds ops : forall s,
  wf_buffers s ->
  Forall (in_bounds (width (back_buffer s)) (height (back_buffer s))) ops ->
  exists s',
    run_writes ops s = Some s'
    /\ wf_buffers s'
    /\ front_buffer s' = front_buffer s
    /\ sigwinch_r s' = sigwinch_r s
    /\ tty_out s' = tty_out s.
Proof.
  induction ops as [|op ops IH]; intros s Hwf Hall.
  - exists s. simpl. auto.
  - inversion Hall as [|? ? Hop Hops]; subst.
    destruct (run_write_in_bounds op s Hwf Hop) as (cs & Hr & Hl).
    pose proof (set_back_cells_wf s cs Hwf Hl) as Hwf'.
    destruct (IH (set_back_buffer (with_cells (back_buffer s) cs) s) Hwf')
      as (s' & Hrun & Hwf'' & Hf & Hsig & Hout).
    { clear -Hops. destruct s. exact Hops. }
    exists s'. simpl run_writes. rewrite Hr. cbn [mbind option_bind].
    split; [exact Hrun|]. split; [exact Hwf''|].
    clear -Hf Hsig Hout. destruct s. cbn in Hf, Hsig, Hout |- *. auto.
Qed.

End Writes.

Section Present.

Context {R : Type}.
Variable junk : nat -> tb_cell.
Implicit Types s : tb_state R.

(** C1.  From a session whose two buffers have the same dimensions and
    in which no resize is pending, any sequence of [tb_put_cell],
    [tb_change_cell] and [tb_blit] calls within bounds followed by one
    [tb_present] is defined and ends with the front buffer equal to the
    back buffer, cell for cell; [tb_present] itself leaves the back
    buffer as the writes made it. *)
Theorem present_after_writes (sz : winsize) (ops : list write_op) s :
  wf_buffers s ->
  sigwinch_r s = 0 ->
  Forall (in_bounds (width (back_buffer s)) (height (back_buffer s))) ops ->
  exists s1 s2,
    run_writes ops s = Some s1
    /\ tb_present junk sz s1 = Some s2
    /\ back_buffer s2 = back_buffer s1
    /\ front_buffer s2 = back_buffer s2
    /\ forall x y, cell_at (front_buffer s2) x y = cell_at (back_buffer s2) x y.
Proof.
  intros Hwf Hsig Hall.
  destruct (run_writes_in_bounds ops s Hwf Hall) as (s1 & Hrun & Hwf1 & _ & Hsig1 & _).
  destruct (present_loops s1 Hwf1) as (s2 & Hloop & Hb & Hf).
  exists s1, (emit Fflush s2). split; [exact Hrun|]. split.
  - unfold tb_present, check_sigwinch.
    destruct (decide (sigwinch_r s1 <> 0)) as [Hp|_]; [congruence|].
    cbn [mbind option_bind]. rewrite Hloop. reflexivity.
  - clear Hloop. destruct s2. cbn in Hb, Hf |- *. rewrite Hb, Hf.
    repeat split; reflexivity.
Qed.

End Present.

(** ** Clearing and resize reconciliation *)

Lemma cellbuf_clear_all_blank (buf : cellbuf) :
  wf_cellbuf buf ->
  exists buf',
    cellbuf_clear buf = Some buf'
    /\ wf_cellbuf buf' /\ width buf' = width buf /\ height buf' = height buf
    /\ all_blank buf'.
Proof.
  intros Hwf. destruct (cellbuf_clear_spec buf Hwf) as (cs & Hclr & Hlen & Hall).
  destruct Hwf as (Hw & Hh & Hsz & Hl).
  exists (with_cells buf cs). split; [exact Hclr|].
  split; [unfold wf_cellbuf; simpl; rewrite Hlen; auto|].
  split; [reflexivity|]. split; [reflexivity|].
  intros x y Hx Hy. unfold cell_at, CELL. simpl in *.
  rewrite uint32_small by nia. apply Hall. nia.
Qed.

Lemma cellbuf_resize_wf (junk : nat -> tb_cell) (buf : cellbuf) (w h : Z) :
  wf_cellbuf buf -> 0 <= w -> 0 <= h -> w * h < 2 ^ 32 ->
  exists buf',
    cellbuf_resize junk buf w h = Some buf'
    /\ wf_cellbuf buf' /\ width buf' = w /\ height buf' = h.
Proof.
  intros Hwf Hw Hh Hsz.
  destruct (decide (width buf = w /\ height buf = h)) as [[Hew Heh]|Hne].
  - exists buf. unfold cellbuf_resize.
    destruct (decide _) as [_|Hn]; [auto | tauto].
  - destruct (cellbuf_resize_spec junk buf w h Hwf Hw Hh Hsz Hne) as (cs & Hr & Hlen & _).
    eexists. split; [exact Hr|]. unfold wf_cellbuf. simpl. auto.
Qed.

Section Reconcile.

Context {R : Type} `{RingBuffer R}.
Variable junk : nat -> tb_cell.
Variable flags : termios_flags.
Implicit Types s : tb_state R.

Lemma send_clear_frame s :
  back_buffer (send_clear s) = back_buffer s
  /\ front_buffer (send_clear s) = front_buffer s
  /\ lastfg (send_clear s) = TB_WHITE /\ lastbg (send_clear s) = TB_BLACK
  /\ lastx (send_clear s) = lastx s /\ lasty (send_clear s) = lasty s.
Proof.
  pose proof (send_attr_frame TB_WHITE TB_BLACK s) as (? & ? & ? & ?).
  pose proof (send_attr_caches TB_WHITE TB_BLACK s) as (? & ?).
  unfold send_clear.
  remember (send_attr TB_WHITE TB_BLACK s) as t eqn:Et. clear Et.
  destruct t. cbn in *. repeat split; assumption.
Qed.

(** [check_sigwinch] is defined on well-formed buffers and keeps them
    well formed.  With no resize pending it does nothing; with one
    pending it leaves the attribute cache at the pair that [send_clear]
    sent, [(TB_WHITE, TB_BLACK)], the coordinate cache as it was, and
    the flag cleared. *)
Lemma check_sigwinch_spec (sz : winsize) s :
  wf_cellbuf (back_buffer s) -> wf_cellbuf (front_buffer s) -> wf_winsize sz ->
  exists s',
    check_sigwinch junk sz s = Some s'
    /\ wf_cellbuf (back_buffer s') /\ wf_cellbuf (front_buffer s')
    /\ (sigwinch_r s = 0 -> s' = s)
    /\ (sigwinch_r s <> 0 ->
        lastfg s' = TB_WHITE /\ lastbg s' = TB_BLACK
        /\ lastx s' = lastx s /\ lasty s' = lasty s /\ sigwinch_r s' = 0).
Proof.
  destruct s as [tios bb fb tw th im rb fo fi ofd ifd sw lfg lbg lx ly tout slog].
  cbn [back_buffer front_buffer sigwinch_r lastx lasty].
  intros Hb Hf [Hc Hr]. unfold check_sigwinch.
  destruct (decide _) as [Hp|Hn]; cbn [sigwinch_r] in *.
  2:{ eexists. split; [reflexivity|]. cbn. split; [assumption|]. split; [assumption|].
      split; [reflexivity | intros Hp; contradiction]. }
  cbn -[cellbuf_resize cellbuf_clear send_clear].
  destruct (cellbuf_resize_wf junk bb (ws_col sz) (ws_row sz))
    as (bb' & Hrb & Hwb & _); [assumption | lia | lia | nia |].
  rewrite Hrb. cbn -[cellbuf_resize cellbuf_clear send_clear].
  destruct (cellbuf_resize_wf junk fb (ws_col sz) (ws_row sz))
    as (fb1 & Hrf & Hwf & _); [assumption | lia | lia | nia |].
  rewrite Hrf. cbn -[cellbuf_resize cellbuf_clear send_clear].
  destruct (cellbuf_clear_all_blank fb1 Hwf) as (fb' & Hcl & Hwf' & _).
  rewrite Hcl. cbn -[cellbuf_resize cellbuf_clear send_clear].
  eexists. split; [reflexivity|].
  match goal with |- context [send_clear ?t] =>
    pose proof (send_clear_frame t) as Hfr;
    remember (send_clear t) as u eqn:Eu; clear Eu end.
  destruct u. cbn in Hfr |- *.
  destruct Hfr as (-> & -> & -> & -> & -> & ->).
  split; [assumption|]. split; [assumption|].
  split; [intros Hz; contradiction|]. intros _. repeat split; reflexivity.
Qed.


(** *** Session set-up *)

(** [tb_init] when a stream fails to open or the terminal is not
    recognised: the result code, and the state it returns with. *)
Lemma tb_init_fails (env : tty_env) s :
  fopen_w env = None \/ fopen_r env = None \/ init_term_ret env < 0 ->
  exists r s',
    tb_init junk flags env s = Some (r, s')
    /\ ((r = TB_EFAILED_TO_OPEN_TTY
         /\ (fopen_w env = None \/ fopen_r env = None)
         /\ s' = set_in_ (fopen_r env) (set_out (fopen_w env) s))
        \/ (r = TB_EUNSUPPORTED_TERMINAL
            /\ exists fo fi,
                 fopen_w env = Some fo /\ fopen_r env = Some fi
                 /\ s' = set_in_fileno (fileno fi) (set_out_fileno (fileno fo)
                           (set_in_ (fopen_r env) (set_out (fopen_w env) s))))).
Proof.
  intros Hfail. destruct s. unfold tb_init. cbn [out in_ set_out set_in_].
  destruct (fopen_w env) as [fo|] eqn:Ho; [destruct (fopen_r env) as [fi|] eqn:Hi|].
  - destruct (decide (init_term_ret env < 0)) as [_|Hn].
    + eexists _, _. split; [reflexivity|]. right. split; [reflexivity|].
      exists fo, fi. auto.
    + exfalso. destruct Hfail as [?|[?|?]]; [discriminate | discriminate | lia].
  - eexists _, _. split; [reflexivity|]. left. auto.
  - eexists _, _. split; [reflexivity|]. left. auto.
Qed.

(** [tb_init] is defined whatever the outside answers, and it does not
    write to the four caches. *)
Lemma tb_init_caches (env : tty_env) s :
  wf_winsize (ioctl_winsize env) ->
  exists r s', tb_init junk flags env s = Some (r, s') /\ caches s' = caches s.
Proof.
  intros [Hc Hr].
  destruct (decide (fopen_w env = None \/ fopen_r env = None \/ init_term_ret env < 0))
    as [Hfail|Hok].
  - destruct (tb_init_fails env s Hfail) as (r & s' & Hrun & Hcase).
    exists r, s'. split; [exact Hrun|].
    destruct Hcase as [(_ & _ & ->)|(_ & fo & fi & _ & _ & ->)];
      destruct s; reflexivity.
  - destruct s. unfold tb_init. cbn [out in_ set_out set_in_].
    destruct (fopen_w env) as [fo|]; [|tauto].
    destruct (fopen_r env) as [fi|]; [|tauto].
    destruct (decide (init_term_ret env < 0)) as [|_]; [tauto|].
    cbn -[cellbuf_init cellbuf_clear].
    assert (Hwf : wf_cellbuf (cellbuf_init junk (ws_col (ioctl_winsize env))
                                (ws_row (ioctl_winsize env))))
      by (apply cellbuf_init_wf; [lia | lia | nia]).
    destruct (cellbuf_clear_all_blank _ Hwf) as (b & Hcl & _).
    rewrite !Hcl. cbn -[cellbuf_init cellbuf_clear].
    eexists _, _. split; reflexivity.
Qed.

End Reconcile.

Section Claims.

Context {R : Type} `{RingBuffer R}.
Variable extract_event : tb_key_event -> R -> Z -> Z * tb_key_event * R.
Variable junk : nat -> tb_cell.
Variable flags : termios_flags.
Implicit Types s : tb_state R.

(** C4.  When [tb_present] reaches a cell that differs from the front
    buffer and whose [(fg, bg)] pair is not the cached one, it puts on
    the stream [T_SGR0], then [T_SGR] with [fg & 0x0F] and [bg & 0x0F],
    then [T_BOLD] exactly when [fg] has the bit [0x10] set and [T_BLINK]
    exactly when [bg] has the bit [0x10] ([TB_BOLD], not [TB_BLINK])
    set; the character follows, and the pair becomes the cached one. *)
Theorem present_cell_attr (y x : Z) s (b f : tb_cell) :
  load (cells (back_buffer s)) (CELL (back_buffer s) x y) = Some b ->
  load (cells (front_buffer s)) (CELL (front_buffer s) x y) = Some f ->
  b <> f ->
  fg b <> lastfg s \/ bg b <> lastbg s ->
  exists s',
    present_cell y x s = Some s'
    /\ tty_out s' = tty_out s ++ attr_items TB_BOLD (fg b) (bg b)
                              ++ char_items x y (ch b) s
    /\ lastfg s' = fg b /\ lastbg s' = bg b.
Proof.
  intros Hlb Hlf Hne Hattr. unfold present_cell.
  rewrite Hlb, Hlf. cbn -[send_attr send_char].
  destruct (decide (b = f)) as [|_]; [contradiction|].
  destruct (send_attr_frame (fg b) (bg b) s) as (_ & Ha2 & Hax & Hay).
  destruct (send_attr_caches (fg b) (bg b) s) as (Hafg & Habg).
  pose proof (send_attr_out (fg b) (bg b) s) as Haout.
  destruct (decide (fg b <> lastfg s \/ bg b <> lastbg s)) as [_|]; [|contradiction].
  remember (send_attr (fg b) (bg b) s) as s1 eqn:E1.
  destruct (send_char_frame x y (ch b) s1) as (_ & Hc2 & Hcfg & Hcbg).
  pose proof (send_char_out x y (ch b) s1) as Hcout.
  remember (send_char x y (ch b) s1) as s2 eqn:E2.
  assert (Hfb : front_buffer s2 = front_buffer s) by congruence.
  assert (Hci : char_items x y (ch b) s1 = char_items x y (ch b) s)
    by (unfold char_items; rewrite Hax, Hay; reflexivity).
  rewrite Hfb. rewrite store_is_Some by (eapply load_lt; exact Hlf).
  cbn [mbind option_bind]. eexists. split; [reflexivity|].
  clear E1 E2. destruct s2. cbn in Hcfg, Hcbg, Hcout |- *.
  split; [|split; congruence].
  rewrite Hcout, Haout, <- app_assoc, Hci. reflexivity.
Qed.

(** What the three calls do to the caches.  Resize reconciliation leaves
    the attribute cache at [(TB_WHITE, TB_BLACK)], the pair that
    [send_clear] has just sent; [tb_init] and [tb_shutdown] write to none
    of the four, which hold after the call what they held before it. *)
Lemma caches_after_reconcile_init_shutdown (sz : winsize) (env : tty_env) s :
  wf_cellbuf (back_buffer s) -> wf_cellbuf (front_buffer s) ->
  wf_winsize sz -> wf_winsize (ioctl_winsize env) ->
  (sigwinch_r s <> 0 ->
   exists s', check_sigwinch junk sz s = Some s'
              /\ lastfg s' = TB_WHITE /\ lastbg s' = TB_BLACK)
  /\ (exists r s', tb_init junk flags env s = Some (r, s') /\ caches s' = caches s)
  /\ caches (tb_shutdown s) = caches s.
Proof.
  intros Hb Hf Hsz Henv. split; [|split].
  - intros Hp.
    destruct (check_sigwinch_spec junk sz s Hb Hf Hsz) as (s' & Hrun & _ & _ & _ & Hpend).
    destruct (Hpend Hp) as (H1 & H2 & _).
    exists s'. auto.
  - apply tb_init_caches. exact Henv.
  - destruct s. reflexivity.
Qed.

(** The state in which a failing [tb_init] returns: the buffers, the
    ring, the terminal size and the traces are as before the call, no
    [fclose] among them, and the globals [out] and [in] hold the results
    of the two [fopen] calls; after the test of [init_term] the two
    descriptor numbers are set as well. *)
Lemma tb_init_failure_state (env : tty_env) s :
  fopen_w env = None \/ fopen_r env = None \/ init_term_ret env < 0 ->
  exists r s',
    tb_init junk flags env s = Some (r, s')
    /\ back_buffer s' = back_buffer s /\ front_buffer s' = front_buffer s
    /\ inbuf s' = inbuf s
    /\ termw s' = termw s /\ termh s' = termh s
    /\ tty_out s' = tty_out s /\ sys_log s' = sys_log s
    /\ out s' = fopen_w env /\ in_ s' = fopen_r env
    /\ ((r = TB_EFAILED_TO_OPEN_TTY
         /\ (fopen_w env = None \/ fopen_r env = None)
         /\ out_fileno s' = out_fileno s /\ in_fileno s' = in_fileno s)
        \/ (r = TB_EUNSUPPORTED_TERMINAL
            /\ exists fo fi,
                 fopen_w env = Some fo /\ fopen_r env = Some fi
                 /\ out_fileno s' = fileno fo /\ in_fileno s' = fileno fi)).
Proof.
  intros Hfail.
  destruct (tb_init_fails junk flags env s Hfail) as (r & s' & Hrun & Hcase).
  exists r, s'. split; [exact Hrun|]. clear Hrun.
  destruct Hcase as [(-> & Hnone & ->)|(-> & fo & fi & Ho & Hi & ->)];
    destruct s; cbn.
  - repeat (split; [reflexivity|]). left. auto.
  - repeat (split; [reflexivity|]). right. split; [reflexivity|].
    exists fo, fi. auto.
Qed.

(** The loop of [wait_fill_event], when it is still waiting after the
    rounds [pre] and the next read brings more bytes than the ring has
    room for. *)
Lemma wait_loop_overflow (pre : list select_outcome) :
  forall ev s ev1 s1 bytes rest,
    wait_loop extract_event pre ev s = Waiting ev1 s1 ->
    (0 < length bytes)%nat ->
    ringbuffer_free_space (inbuf s1) < Z.of_nat (length bytes) ->
    wait_loop extract_event (pre ++ Sel_read bytes :: rest) ev s = Returned (-1) ev1 s1.
Proof.
  induction pre as [|o pre IH]; intros ev s ev1 s1 bytes rest Hw Hlen Hfree.
  - simpl in Hw. injection Hw as -> ->. simpl.
    destruct (decide (Z.of_nat (length bytes) = 0)) as [|_]; [lia|].
    destruct (decide _) as [_|]; [reflexivity | contradiction].
  - destruct o as [| | bs]; simpl in Hw |- *.
    + discriminate.
    + apply IH; assumption.
    + destruct (decide (Z.of_nat (length bs) = 0)); [apply IH; assumption|].
      destruct (decide (ringbuffer_free_space (inbuf s) < Z.of_nat (length bs)));
        [discriminate|].
      destruct (extract_event ev _ _) as [[code ev'] rb].
      destruct (decide (code = 0)); [discriminate|]. apply IH; assumption.
Qed.

(** C7.  Whenever [wait_fill_event], still waiting after the rounds
    [pre] with event [ev1] and state [s1], reads [r > 0] bytes while the
    ring has less than [r] bytes free, it returns [-1] in the very state
    [s1]: the bytes just read are not pushed and the ring is as it was.
    [tb_poll_event] and [tb_peek_event] return the same. *)
Theorem wait_fill_event_overflow (pre rest : list select_outcome) (bytes : list Z)
    s (ev1 : tb_key_event) (s1 : tb_state R) (timeout : Z) :
  wait_fill_event extract_event pre s = Waiting ev1 s1 ->
  (0 < length bytes)%nat ->
  ringbuffer_free_space (inbuf s1) < Z.of_nat (length bytes) ->
  wait_fill_event extract_event (pre ++ Sel_read bytes :: rest) s = Returned (-1) ev1 s1
  /\ tb_poll_event extract_event (pre ++ Sel_read bytes :: rest) s
     = Returned (-1) ev1 s1
  /\ tb_peek_event extract_event timeout (pre ++ Sel_read bytes :: rest) s
     = Returned (-1) ev1 s1.
Proof.
  unfold tb_poll_event, tb_peek_event, wait_fill_event. intros Hw Hlen Hfree.
  destruct (extract_event _ (inbuf s) (inputmode s)) as [[code ev'] rb].
  destruct (decide (code = 0)); [discriminate|].
  pose proof (wait_loop_overflow pre _ _ _ _ bytes rest Hw Hlen Hfree) as Hl.
  cbv zeta. auto.
Qed.

End Claims.

(** ** The properties on concrete sessions *)

Ltac by_evaluation :=
  vm_compute; repeat split; solve [reflexivity | intro; discriminate].

(** C2.  On the 3 by 2 session a 2 by 2 rectangle at [(1, 0)] fits
    ([1 + 2 <= 3] and [0 + 2 <= 2]) and the source holds its four cells,
    yet [tb_blit] returns without writing; so does a 1 by 1 blit at the
    last cell [(2, 1)], the cell that [tb_put_cell] does write. *)
Theorem tb_blit_exact_fit_dropped :
  in_bounds 3 2 (Blit 1 0 2 2 (replicate 4 cell_A))
  /\ tb_blit 1 0 2 2 (replicate 4 cell_A) session_3x2 = Some session_3x2
  /\ tb_blit 2 1 1 1 [cell_A] session_3x2 = Some session_3x2
  /\ cell_at (back_buffer session_3x2) 2 1 = Some blank_cell
  /\ exists s', tb_put_cell 2 1 cell_A session_3x2 = Some s'
                /\ cell_at (back_buffer s') 2 1 = Some cell_A.
Proof.
  split; [by_evaluation|]. split; [by_evaluation|]. split; [by_evaluation|].
  split; [by_evaluation|]. eexists. split.
  - vm_compute. reflexivity.
  - by_evaluation.
Qed.

Lemma present_after_writes_witness :
  exists s1 s2,
    run_writes sample_ops session_3x2 = Some s1
    /\ tb_present junk_pattern win_3x2 s1 = Some s2
    /\ back_buffer s2 = back_buffer s1
    /\ front_buffer s2 = back_buffer s2
    /\ forall x y, cell_at (front_buffer s2) x y = cell_at (back_buffer s2) x y.
Proof.
  apply (present_after_writes junk_pattern win_3x2 sample_ops session_3x2).
  - by_evaluation.
  - reflexivity.
  - unfold sample_ops. repeat (constructor; [by_evaluation|]). constructor.
Defined.



Lemma present_cell_attr_witness :
  exists s',
    present_cell 0 0 session_A_blink = Some s'
    /\ tty_out s' = tty_out session_A_blink
                    ++ attr_items TB_BOLD (fg cell_A_blink) (bg cell_A_blink)
                    ++ char_items 0 0 (ch cell_A_blink) session_A_blink
    /\ lastfg s' = fg cell_A_blink /\ lastbg s' = bg cell_A_blink.
Proof.
  apply (present_cell_attr 0 0 session_A_blink cell_A_blink blank_cell).
  - by_evaluation.
  - by_evaluation.
  - by_evaluation.
  - left. by_evaluation.
Defined.

(** A cell whose background has the [TB_BLINK] bit ([0x40]) set and whose
    pair is not the cached one is presented without [T_BLINK]. *)
Lemma present_cell_blink_counterexample :
  load (cells (back_buffer session_A_blink)) (CELL (back_buffer session_A_blink) 0 0)
    = Some cell_A_blink
  /\ (fg cell_A_blink <> lastfg session_A_blink
      \/ bg cell_A_blink <> lastbg session_A_blink)
  /\ Z.land (bg cell_A_blink) TB_BLINK <> 0
  /\ exists s',
       present_cell 0 0 session_A_blink = Some s'
       /\ tty_out s' <> tty_out session_A_blink
                        ++ attr_items TB_BLINK (fg cell_A_blink) (bg cell_A_blink)
                        ++ char_items 0 0 (ch cell_A_blink) session_A_blink
       /\ Fputs T_BLINK ∉ tty_out s'.
Proof.
  split; [by_evaluation|]. split; [left; by_evaluation|]. split; [by_evaluation|].
  eexists. split.
  - vm_compute. reflexivity.
  - split; [by_evaluation|].
    apply (bool_decide_unpack _). vm_compute. exact I.
Qed.

Lemma caches_after_reconcile_init_shutdown_witness :
  (sigwinch_r (sigwinch_handler session_drawn) <> 0 ->
   exists s', check_sigwinch junk_pattern win_4x3 (sigwinch_handler session_drawn) = Some s'
              /\ lastfg s' = TB_WHITE /\ lastbg s' = TB_BLACK)
  /\ (exists r s',
        tb_init junk_pattern flags0 env_ok (sigwinch_handler session_drawn) = Some (r, s')
        /\ caches s' = caches (sigwinch_handler session_drawn))
  /\ caches (tb_shutdown (sigwinch_handler session_drawn))
     = caches (sigwinch_handler session_drawn).
Proof.
  apply (caches_after_reconcile_init_shutdown junk_pattern flags0 win_4x3 env_ok
           (sigwinch_handler session_drawn)); by_evaluation.
Defined.

Lemma tb_init_failure_state_witness :
  exists r s',
    tb_init junk_pattern flags0 env_bad_term (tb_state0 ring0) = Some (r, s')
    /\ back_buffer s' = back_buffer (tb_state0 ring0)
    /\ front_buffer s' = front_buffer (tb_state0 ring0)
    /\ inbuf s' = inbuf (tb_state0 ring0)
    /\ termw s' = termw (tb_state0 ring0) /\ termh s' = termh (tb_state0 ring0)
    /\ tty_out s' = tty_out (tb_state0 ring0) /\ sys_log s' = sys_log (tb_state0 ring0)
    /\ out s' = fopen_w env_bad_term /\ in_ s' = fopen_r env_bad_term
    /\ ((r = TB_EFAILED_TO_OPEN_TTY
         /\ (fopen_w env_bad_term = None \/ fopen_r env_bad_term = None)
         /\ out_fileno s' = out_fileno (tb_state0 ring0)
         /\ in_fileno s' = in_fileno (tb_state0 ring0))
        \/ (r = TB_EUNSUPPORTED_TERMINAL
            /\ exists fo fi,
                 fopen_w env_bad_term = Some fo /\ fopen_r env_bad_term = Some fi
                 /\ out_fileno s' = fileno fo /\ in_fileno s' = fileno fi)).
Proof.
  apply (tb_init_failure_state junk_pattern flags0 env_bad_term (tb_state0 ring0)).
  right. right. by_evaluation.
Defined.

(** C5.  Resize reconciliation does not bring the caches back to their
    initial values, and a cell is then drawn in the wrong place.  In the
    3 by 2 session where ['A'] has been drawn at column 1 of row 0, the
    caches are [(TB_RED, TB_BLACK, 1, 0)].  The window grows to 4 by 3
    and [tb_clear] reconciles: the screen is cleared, and the caches are
    [(TB_WHITE, TB_BLACK, 1, 0)], the position still that of ['A'].
    ['B'] put at column 2 of row 0 is then presented with no cursor
    move between the clear-screen and the character, because [send_char]
    takes it for the cell after the one it has sent last; with the two
    position caches at their initial value the move to row 1, column 3
    is sent first.  [tb_shutdown] leaves the four caches as they are
    too. *)
Theorem reconcile_keeps_cursor_cache :
  caches session_3x2 = sentinel_caches
  /\ caches session_drawn = (TB_RED, TB_BLACK, 1, 0)
  /\ caches (tb_shutdown session_drawn) = (TB_RED, TB_BLACK, 1, 0)
  /\ tb_clear junk_pattern win_4x3 (sigwinch_handler session_drawn) = Some session_regrown
  /\ tty_out session_regrown
     = tty_out session_drawn
       ++ [Fputs T_SGR0; Fprintf T_SGR TB_WHITE TB_BLACK; Fputs T_CLEAR_SCREEN; Fflush]
  /\ caches session_regrown = (TB_WHITE, TB_BLACK, 1, 0)
  /\ caches session_regrown <> sentinel_caches
  /\ exists s,
       tb_put_cell 2 0 cell_B session_regrown = Some s
       /\ (exists s', tb_present junk_pattern win_4x3 s = Some s'
                      /\ tty_out s' = tty_out session_regrown ++ [Fputs_buf [0x42]; Fflush])
       /\ (exists s',
              tb_present junk_pattern win_4x3
                (set_lasty (sint32 LAST_COORD_INIT) (set_lastx (sint32 LAST_COORD_INIT) s))
              = Some s'
              /\ tty_out s' = tty_out session_regrown
                              ++ [Fprintf T_MOVE_CURSOR 1 3; Fputs_buf [0x42]; Fflush]).
Proof.
  split; [by_evaluation|]. split; [by_evaluation|]. split; [by_evaluation|].
  split; [vm_compute; reflexivity|].
  split; [vm_compute; reflexivity|]. split; [by_evaluation|]. split; [by_evaluation|].
  eexists. split; [vm_compute; reflexivity|]. split.
  - eexists. split.
    + vm_compute. reflexivity.
    + vm_compute. reflexivity.
  - eexists. split.
    + vm_compute. reflexivity.
    + vm_compute. reflexivity.
Qed.

(** C6.  A failing [tb_init] leaves global state populated and the
    streams it has opened open.  When ["/dev/tty"] opens for writing and
    not for reading, the call returns [TB_EFAILED_TO_OPEN_TTY] with the
    stream in [out], which was [NULL], and no [fclose] made.  When the
    terminal is not recognised it returns [TB_EUNSUPPORTED_TERMINAL]
    with both streams in [out] and [in], their descriptor numbers in
    [out_fileno] and [in_fileno], and no [fclose] made.  [tb_shutdown],
    the one place where the streams are closed, closes both. *)
Theorem tb_init_failure_leaves_streams :
  out (tb_state0 ring0) = None /\ in_ (tb_state0 ring0) = None
  /\ out_fileno (tb_state0 ring0) = 0 /\ in_fileno (tb_state0 ring0) = 0
  /\ sys_log (tb_state0 ring0) = []
  /\ (exists s',
        tb_init junk_pattern flags0 env_no_read (tb_state0 ring0)
          = Some (TB_EFAILED_TO_OPEN_TTY, s')
        /\ out s' = Some {| fileno := 3 |} /\ in_ s' = None
        /\ sys_log s' = [])
  /\ (exists s',
        tb_init junk_pattern flags0 env_bad_term (tb_state0 ring0)
          = Some (TB_EUNSUPPORTED_TERMINAL, s')
        /\ out s' = Some {| fileno := 3 |} /\ in_ s' = Some {| fileno := 4 |}
        /\ out_fileno s' = 3 /\ in_fileno s' = 4
        /\ sys_log s' = []
        /\ Fclose (out s') ∈ sys_log (tb_shutdown s')
        /\ Fclose (in_ s') ∈ sys_log (tb_shutdown s')).
Proof.
  repeat (split; [reflexivity|]). split.
  - eexists. split.
    + vm_compute. reflexivity.
    + by_evaluation.
  - eexists. split.
    + vm_compute. reflexivity.
    + repeat (split; [reflexivity|]).
      split; vm_compute; repeat constructor.
Qed.

Lemma wait_fill_event_overflow_witness :
  wait_fill_event extract_event_1
    ([Sel_not_ready; Sel_read []] ++ Sel_read [0xA9; 0x61; 0x62; 0x63] :: [Sel_timeout])
    session_small_ring
  = Returned (-1) {| ev_ch := 0; ev_key := 0; ev_mod := 0 |} session_small_ring
  /\ tb_poll_event extract_event_1
       ([Sel_not_ready; Sel_read []] ++ Sel_read [0xA9; 0x61; 0x62; 0x63] :: [Sel_timeout])
       session_small_ring
     = Returned (-1) {| ev_ch := 0; ev_key := 0; ev_mod := 0 |} session_small_ring
  /\ tb_peek_event extract_event_1 250
       ([Sel_not_ready; Sel_read []] ++ Sel_read [0xA9; 0x61; 0x62; 0x63] :: [Sel_timeout])
       session_small_ring
     = Returned (-1) {| ev_ch := 0; ev_key := 0; ev_mod := 0 |} session_small_ring.
Proof.
  apply (wait_fill_event_overflow extract_event_1 [Sel_not_ready; Sel_read []]
           [Sel_timeout] [0xA9; 0x61; 0x62; 0x63] session_small_ring).
  - vm_compute. reflexivity.
  - simpl. lia.
  - vm_compute. reflexivity.
Defined.

Lemma cellbuf_resize_preserves_witness :
  (width buf_3x2 = 2 /\ height buf_3x2 = 3 ->
   cellbuf_resize junk_pattern buf_3x2 2 3 = Some buf_3x2)
  /\ (~ (width buf_3x2 = 2 /\ height buf_3x2 = 3) ->
      exists buf',
        cellbuf_resize junk_pattern buf_3x2 2 3 = Some buf'
        /\ width buf' = 2 /\ height buf' = 3 /\ wf_cellbuf buf'
        /\ forall i j,
             0 <= i < Z.min (height buf_3x2) 3 -> 0 <= j < Z.min (width buf_3x2) 2 ->
             cell_at buf' j i = cell_at buf_3x2 j i).
Proof.
  apply (cellbuf_resize_preserves junk_pattern buf_3x2 2 3); by_evaluation.
Defined.

Lemma utf8_roundtrip_witness :
  utf8_decode_ref (utf8_unicode_to_char 0x2603) = Some 0x2603.
Proof. apply (utf8_roundtrip 0x2603); lia. Defined.

Lemma cellbuf_resize_exposed_blank_witness :
  exists buf',
    cellbuf_resize junk_pattern buf_3x2 2 3 = Some buf'
    /\ forall x y, 0 <= x < 2 -> 0 <= y < 3 ->
         ~ (x < width buf_3x2 /\ y < height buf_3x2) ->
         cell_at buf' x y = Some blank_cell.
Proof.
  apply (cellbuf_resize_exposed_blank junk_pattern buf_3x2 2 3).
  - by_evaluation.
  - lia.
  - lia.
  - lia.
  - simpl. lia.
Defined.

(** * Further properties of the code *)

(** ** The shape of the UTF-8 encoding *)

Lemma trail_byte_range (a : Z) :
  0 <= a < 64 -> 0x80 <= uint8 (Z.lor a 0x80) < 0xc0.
Proof. revert a. by_cases_below 64. Qed.

(** A first byte built over a marker with the top bit set is at least
    [0x80]. *)
Lemma lead_byte_high (a first : Z) :
  0 <= a -> Z.testbit first 7 = true -> 0x80 <= uint8 (Z.lor a first) < 0x100.
Proof.
  intros Ha Hbit. unfold uint8.
  assert (Hb : Z.testbit (Z.lor a first mod 2 ^ 8) 7 = true).
  { rewrite Z.mod_pow2_bits_low by lia. rewrite Z.lor_spec, Hbit. apply orb_true_r. }
  apply Z.testbit_true in Hb; [|lia].
  pose proof (Z.mod_pos_bound (Z.lor a first) (2 ^ 8) ltac:(lia)) as Hm.
  change (2 ^ 8) with 256 in *. change (2 ^ 7) with 128 in *.
  split; [|lia].
  destruct (Z.lt_ge_cases (Z.lor a first mod 256) 128) as [Hlt|Hge]; [|lia].
  rewrite Z.div_small in Hb by lia. discriminate.
Qed.

(** The bytes of the encoder's loop are continuation bytes. *)
Lemma utf8_trail_bytes (n : nat) :
  forall c acc, 0 <= c ->
  exists bs,
    utf8_trail n c acc = (c / 64 ^ Z.of_nat n, bs ++ acc)
    /\ length bs = n
    /\ Forall (fun b => 0x80 <= b < 0xc0) bs.
Proof.
  induction n as [|n IH]; intros c acc Hc.
  - exists []. simpl. rewrite Z.div_1_r.
    split; [reflexivity|]. split; [reflexivity | constructor].
  - assert (Hland : Z.land c 0x3f = c mod 64)
      by (change 0x3f with (Z.ones 6); rewrite Z.land_ones by lia; reflexivity).
    assert (Hshr : Z.shiftr c 6 = c / 64)
      by (rewrite Z.shiftr_div_pow2 by lia; reflexivity).
    assert (Hm : 0 <= c mod 64 < 64) by (apply Z.mod_pos_bound; lia).
    assert (Hq : 0 <= c / 64) by (apply Z.div_pos; lia).
    destruct (IH (c / 64) (uint8 (Z.lor (Z.land c 0x3f) 0x80) :: acc) Hq)
      as (bs & Hrun & Hlen & Hall).
    assert (Hp : 0 < 64 ^ Z.of_nat n) by (apply Z.pow_pos_nonneg; lia).
    assert (Hpow : 64 ^ Z.of_nat (S n) = 64 * 64 ^ Z.of_nat n)
      by (rewrite Nat2Z.inj_succ, Z.pow_succ_r by lia; reflexivity).
    exists (bs ++ [uint8 (Z.lor (Z.land c 0x3f) 0x80)]). split; [|split].
    + simpl utf8_trail. rewrite Hshr, Hrun, Hpow.
      rewrite Z.div_div by lia. rewrite <- app_assoc. reflexivity.
    + rewrite length_app, Hlen. simpl. lia.
    + apply Forall_app. split; [exact Hall|].
      constructor; [|constructor].
      rewrite Hland. apply trail_byte_range. exact Hm.
Qed.

(** The encoder, unfolded into its first byte and its continuation
    bytes. *)
Lemma utf8_unicode_to_char_split (c : Z) :
  0 <= c ->
  exists first bs,
    utf8_unicode_to_char c
      = uint8 (Z.lor (c / 64 ^ Z.of_nat (utf8_length c - 1)) first) :: bs
    /\ S (length bs) = utf8_length c
    /\ Forall (fun b => 0x80 <= b < 0xc0) bs
    /\ (utf8_length c = 1%nat -> first = 0)
    /\ (utf8_length c <> 1%nat -> Z.testbit first 7 = true).
Proof.
  intros Hc. unfold utf8_unicode_to_char, utf8_length.
  destruct (c <? 0x80);
    [| destruct (c <? 0x800);
       [| destruct (c <? 0x10000);
          [| destruct (c <? 0x200000);
             [| destruct (c <? 0x4000000)]]]];
  match goal with
  | |- context [utf8_trail ?n c []] =>
      destruct (utf8_trail_bytes n c [] Hc) as (bs & Hrun & Hlen & Hall);
      rewrite Hrun, app_nil_r
  end;
  eexists _, bs; (split; [reflexivity|]); (split; [simpl; lia|]);
  (split; [exact Hall|]); split; intros; solve [reflexivity | lia | congruence].
Qed.

(** X1.  For every [uint32_t] value the encoder writes between one and
    six bytes, as many as the thresholds [0x80], [0x800], [0x10000],
    [0x200000] and [0x4000000] say; every byte is a byte, and every byte
    after the first is a continuation byte [0x80..0xBF].  The seven-byte
    buffer of [send_char] therefore always has room for the terminator. *)
Theorem utf8_encoding_shape (c : Z) :
  0 <= c < 2 ^ 32 ->
  length (utf8_unicode_to_char c) = utf8_length c
  /\ (1 <= length (utf8_unicode_to_char c) <= 6)%nat
  /\ Forall (fun b => 0 <= b < 0x100) (utf8_unicode_to_char c)
  /\ Forall (fun b => 0x80 <= b < 0xc0) (tail (utf8_unicode_to_char c)).
Proof.
  intros [Hc _].
  destruct (utf8_unicode_to_char_split c Hc) as (first & bs & -> & Hlen & Hall & _).
  simpl. split; [exact Hlen|]. split.
  - rewrite Hlen. unfold utf8_length. repeat (destruct (_ <? _)); lia.
  - split; [|exact Hall]. constructor.
    + unfold uint8. apply Z.mod_pos_bound. lia.
    + eapply Forall_impl; [exact Hall|]. simpl. intros b Hb. lia.
Qed.

(** X2.  A value of [2^31] or more is encoded in six bytes whose first is
    [0xFE] or [0xFF], which no UTF-8 sequence starts with: the reference
    decoder rejects the encoding. *)
Theorem utf8_beyond_31_bits (c : Z) :
  2 ^ 31 <= c < 2 ^ 32 ->
  (exists bs, utf8_unicode_to_char c = 0xfe :: bs \/ utf8_unicode_to_char c = 0xff :: bs)
  /\ utf8_decode_ref (utf8_unicode_to_char c) = None.
Proof.
  intros Hc. unfold utf8_unicode_to_char.
  rewrite (proj2 (Z.ltb_ge c 0x80)) by lia.
  rewrite (proj2 (Z.ltb_ge c 0x800)) by lia.
  rewrite (proj2 (Z.ltb_ge c 0x10000)) by lia.
  rewrite (proj2 (Z.ltb_ge c 0x200000)) by lia.
  rewrite (proj2 (Z.ltb_ge c 0x4000000)) by lia.
  destruct (utf8_trail_bytes 5 c [] ltac:(lia)) as (bs & Hrun & _).
  change (6 - 1)%nat with 5%nat. rewrite Hrun, app_nil_r.
  assert (Hq : c / 64 ^ Z.of_nat 5 = 2 \/ c / 64 ^ Z.of_nat 5 = 3).
  { change (64 ^ Z.of_nat 5) with 1073741824.
    assert (2 <= c / 1073741824 < 4); [|lia].
    split; [apply Z.div_le_lower_bound | apply Z.div_lt_upper_bound]; lia. }
  destruct Hq as [-> | ->].
  - split; [exists bs; left; reflexivity | reflexivity].
  - split; [exists bs; right; reflexivity | reflexivity].
Qed.

(** X3.  Below [2^31] the encoder is injective: two values with the same
    bytes are the same value. *)
Theorem utf8_unicode_to_char_inj (c1 c2 : Z) :
  0 <= c1 < 2 ^ 31 -> 0 <= c2 < 2 ^ 31 ->
  utf8_unicode_to_char c1 = utf8_unicode_to_char c2 -> c1 = c2.
Proof.
  intros H1 H2 Heq.
  pose proof (utf8_roundtrip_31 c1 H1) as Hd1.
  pose proof (utf8_roundtrip_31 c2 H2) as Hd2.
  rewrite Heq in Hd1. congruence.
Qed.

Lemma c_str_no_nul (bs : list Z) :
  Forall (fun b => b <> 0) bs -> c_str (bs ++ [0]) = bs.
Proof.
  induction 1 as [|b bs Hb _ IH]; [reflexivity|].
  simpl. destruct (Z.eqb_spec b 0); [contradiction|]. rewrite IH. reflexivity.
Qed.

(** The C string made of the encoding of [c]: the whole encoding, except
    for [c = 0], whose single byte is the terminator. *)
Lemma c_str_encoding (c : Z) :
  0 <= c < 2 ^ 32 ->
  c_str (utf8_unicode_to_char c ++ [0])
  = if decide (c = 0) then [] else utf8_unicode_to_char c.
Proof.
  intros Hc. destruct (decide (c = 0)) as [->|Hnz]; [reflexivity|].
  apply c_str_no_nul.
  destruct (utf8_unicode_to_char_split c ltac:(lia))
    as (first & bs & -> & Hlen & Hall & Hone & Hmore).
  constructor.
  - destruct (decide (utf8_length c = 1%nat)) as [H1|Hn1].
    + rewrite (Hone H1), H1. simpl. rewrite Z.div_1_r, Z.lor_0_r.
      assert (c < 0x80).
      { revert H1. unfold utf8_length.
        destruct (Z.ltb_spec c 0x80); [lia|].
        repeat (destruct (_ <? _)); discriminate. }
      unfold uint8. rewrite Z.mod_small; lia.
    + assert (0 <= c / 64 ^ Z.of_nat (utf8_length c - 1))
        by (apply Z.div_pos; [lia | apply Z.pow_pos_nonneg; lia]).
      pose proof (lead_byte_high _ first H (Hmore Hn1)). lia.
  - eapply Forall_impl; [exact Hall|]. simpl. intros b Hb. lia.
Qed.

(** ** The caches of the renderer *)

Section RendererCaches.

Context {R : Type}.
Implicit Types s : tb_state R.

(** X4.  [send_char] puts on the stream the cursor move (unless the cell
    follows the last one written) and then the whole UTF-8 encoding of
    the character; for the character [0] it writes no byte at all, since
    the encoding is the string terminator. *)
Theorem send_char_bytes (x y c : Z) s :
  0 <= c < 2 ^ 32 ->
  tty_out (send_char x y c s)
  = tty_out s
    ++ (if decide (sint32 x - 1 <> lastx s \/ y <> uint32 (lasty s))
        then [Fprintf T_MOVE_CURSOR (uint32 (y + 1)) (uint32 (x + 1))] else [])
    ++ [Fputs_buf (if decide (c = 0) then [] else utf8_unicode_to_char c)].
Proof.
  intros Hc. rewrite send_char_out. unfold char_items.
  rewrite (c_str_encoding c Hc). reflexivity.
Qed.

Lemma send_char_caches (x y c : Z) s :
  lastx (send_char x y c s) = sint32 x /\ lasty (send_char x y c s) = sint32 y.
Proof. destruct s. unfold send_char. destruct (decide _); cbn; auto. Qed.

Lemma sint32_small (z : Z) : 0 <= z < 2 ^ 31 -> sint32 z = z.
Proof.
  intros Hz. unfold sint32. rewrite uint32_small by lia.
  destruct (Z.ltb_spec z (2 ^ 31)); lia.
Qed.

(** X5.  After a character has been written at [(x, y)], the next one
    needs no cursor move exactly when it goes to [(x + 1, y)]; at any
    other position [send_char] first sends [T_MOVE_CURSOR] with the
    1-based row and column. *)
Theorem send_char_after_send_char (x y c x' y' c' : Z) s :
  0 <= x < 2 ^ 31 -> 0 <= y < 2 ^ 31 -> 0 <= x' < 2 ^ 31 -> 0 <= y' < 2 ^ 31 ->
  tty_out (send_char x' y' c' (send_char x y c s))
  = tty_out (send_char x y c s)
    ++ (if decide (x' = x + 1 /\ y' = y) then []
        else [Fprintf T_MOVE_CURSOR (y' + 1) (x' + 1)])
    ++ [Fputs_buf (c_str (utf8_unicode_to_char c' ++ [0]))].
Proof.
  intros Hx Hy Hx' Hy'. rewrite (send_char_out x' y' c'). unfold char_items.
  destruct (send_char_caches x y c s) as [-> ->].
  rewrite !sint32_small by lia. rewrite !uint32_small by lia.
  destruct (decide (x' - 1 <> x \/ y' <> y)), (decide (x' = x + 1 /\ y' = y));
    try reflexivity; lia.
Qed.

(** X6.  [send_attr] with the pair it was last called with sends
    nothing: a second call with the same [fg] and [bg] leaves the state
    as the first call left it. *)
Theorem send_attr_repeat (fg bg : Z) s :
  send_attr fg bg (send_attr fg bg s) = send_attr fg bg s.
Proof.
  destruct (send_attr_caches fg bg s) as [Hfg Hbg].
  remember (send_attr fg bg s) as t eqn:Et. clear Et.
  unfold send_attr. destruct (decide _) as [[Hne|Hne]|_]; [congruence | congruence|].
  reflexivity.
Qed.

(** The items of an attribute change do not depend on the bits
    [TB_UNDERLINE] and [TB_BLINK] of the two words. *)
Lemma attr_items_ignore_underline_blink (fg bg : Z) :
  attr_items TB_BOLD (Z.land fg (Z.lnot (Z.lor TB_UNDERLINE TB_BLINK)))
                     (Z.land bg (Z.lnot (Z.lor TB_UNDERLINE TB_BLINK)))
  = attr_items TB_BOLD fg bg.
Proof.
  unfold attr_items.
  assert (Hmask : forall v m, Z.land (Z.lor TB_UNDERLINE TB_BLINK) m = 0 ->
            Z.land (Z.land v (Z.lnot (Z.lor TB_UNDERLINE TB_BLINK))) m = Z.land v m).
  { intros v m Hm. apply Z.bits_inj'. intros n Hn.
    rewrite !Z.land_spec, Z.lnot_spec by lia.
    assert (Hb : Z.testbit (Z.land (Z.lor TB_UNDERLINE TB_BLINK) m) n = false)
      by (rewrite Hm; apply Z.bits_0).
    rewrite Z.land_spec in Hb.
    destruct (Z.testbit v n), (Z.testbit m n),
             (Z.testbit (Z.lor TB_UNDERLINE TB_BLINK) n); simpl in *; congruence. }
  rewrite !Hmask by reflexivity. reflexivity.
Qed.

(** X7.  [send_attr] decides whether to send anything by comparing the
    whole words [fg] and [bg] with the cached pair, so a change of the
    bit [TB_UNDERLINE] ([0x20]) or [TB_BLINK] ([0x40]) alone does make it
    send; but what it sends never depends on these two bits: it is what
    the pair with both bits cleared in [fg] and in [bg] asks for, and the
    underline string is never part of it. *)
Theorem send_attr_ignores_underline_blink (fg bg : Z) s :
  tty_out (send_attr fg bg s)
  = tty_out s
    ++ (if decide (fg <> lastfg s \/ bg <> lastbg s)
        then attr_items TB_BOLD (Z.land fg (Z.lnot (Z.lor TB_UNDERLINE TB_BLINK)))
                                (Z.land bg (Z.lnot (Z.lor TB_UNDERLINE TB_BLINK)))
        else [])
  /\ Fputs T_UNDERLINE ∉ attr_items TB_BOLD fg bg.
Proof.
  split.
  - rewrite send_attr_out, attr_items_ignore_underline_blink. reflexivity.
  - unfold attr_items. intros Hin.
    repeat (apply elem_of_cons in Hin as [Hin|Hin]; [discriminate|]).
    apply elem_of_app in Hin as [Hin|Hin].
    + destruct (decide _); repeat (apply elem_of_cons in Hin as [Hin|Hin]; [discriminate|]);
        inversion Hin.
    + destruct (decide _); repeat (apply elem_of_cons in Hin as [Hin|Hin]; [discriminate|]);
        inversion Hin.
Qed.

End RendererCaches.

(** ** What the writes do to the back buffer *)

Section WriteEffects.

Context {R : Type}.
Implicit Types s : tb_state R.

(** Two positions of a grid of width [W] with the same index are the
    same position. *)
Lemma cell_index_inj (W x y x' y' : Z) :
  0 <= x < W -> 0 <= x' < W -> 0 <= y -> 0 <= y' ->
  y' * W + x' = y * W + x -> x' = x /\ y' = y.
Proof. intros Hx Hx' Hy Hy' Heq. assert (y' = y) by nia. subst. lia. Qed.

(** The fields that a store into the back buffer leaves alone. *)
Lemma set_back_buffer_frame (b : cellbuf) s :
  back_buffer (set_back_buffer b s) = b
  /\ front_buffer (set_back_buffer b s) = front_buffer s
  /\ tty_out (set_back_buffer b s) = tty_out s
  /\ sys_log (set_back_buffer b s) = sys_log s
  /\ sigwinch_r (set_back_buffer b s) = sigwinch_r s
  /\ termw (set_back_buffer b s) = termw s
  /\ termh (set_back_buffer b s) = termh s
  /\ caches (set_back_buffer b s) = caches s
  /\ tty_handles (set_back_buffer b s) = tty_handles s
  /\ inbuf (set_back_buffer b s) = inbuf s
  /\ inputmode (set_back_buffer b s) = inputmode s.
Proof. destruct s. cbn. repeat split; reflexivity. Qed.

(** X8.  [tb_put_cell] at any position is defined.  Inside the grid it
    changes the cell at [(x, y)] of the back buffer to the given cell and
    no other cell; at a position with [x >= width] or [y >= height] it
    changes nothing at all.  It never touches the front buffer or the
    stream. *)
Theorem tb_put_cell_effect (x y : Z) (c : tb_cell) s :
  wf_buffers s -> 0 <= x -> 0 <= y ->
  exists s',
    tb_put_cell x y c s = Some s'
    /\ wf_buffers s'
    /\ width (back_buffer s') = width (back_buffer s)
    /\ height (back_buffer s') = height (back_buffer s)
    /\ front_buffer s' = front_buffer s /\ tty_out s' = tty_out s
    /\ (width (back_buffer s) <= x \/ height (back_buffer s) <= y -> s' = s)
    /\ forall x' y',
         0 <= x' < width (back_buffer s) -> 0 <= y' < height (back_buffer s) ->
         cell_at (back_buffer s') x' y'
         = if decide (x' = x /\ y' = y) then Some c
           else cell_at (back_buffer s) x' y'.
Proof.
  intros Hwf Hx Hy. unfold tb_put_cell.
  destruct (decide _) as [Hout|Hin].
  - exists s. split; [reflexivity|]. split; [exact Hwf|].
    do 4 (split; [reflexivity|]). split; [reflexivity|].
    intros x' y' Hx' Hy'. destruct (decide _); [lia | reflexivity].
  - pose proof Hwf as ((Hbw & Hbh & Hbsz & Hblen) & _).
    set (W := width (back_buffer s)) in *. set (Ht := height (back_buffer s)) in *.
    assert (Hc : CELL (back_buffer s) x y = y * W + x) by (apply uint32_small; nia).
    assert (Hi : 0 <= y * W + x < Z.of_nat (length (cells (back_buffer s)))) by nia.
    rewrite Hc, (store_is_Some _ _ c Hi). cbn [mbind option_bind].
    eexists. split; [reflexivity|].
    pose proof (set_back_cells_wf s _ Hwf (length_insert _ (Z.to_nat (y * W + x)) c)) as Hwf'.
    destruct (set_back_buffer_frame
                (with_cells (back_buffer s) (<[Z.to_nat (y * W + x) := c]> (cells (back_buffer s)))) s)
      as (Hb & Hf & Ho & _).
    split; [exact Hwf'|]. rewrite Hb, Hf, Ho.
    split; [reflexivity|]. split; [reflexivity|]. split; [reflexivity|].
    split; [reflexivity|]. split; [intros; lia|].
    intros x' y' Hx' Hy'. unfold cell_at, CELL. cbn [with_cells width cells].
    fold W. rewrite (uint32_small (y' * W + x')) by nia.
    erewrite load_store by (apply store_is_Some; exact Hi).
    destruct (decide (y' * W + x' = y * W + x)) as [Heq|Hne],
             (decide (x' = x /\ y' = y)) as [[-> ->]|Hn]; try reflexivity.
    + exfalso. apply Hn. apply (cell_index_inj W x y x' y'); lia.
    + contradiction.
Qed.

(** A position [(j, i)] of a grid of width [W] falls into the [w] cells
    that start at column [x] of row [r] exactly when [i = r] and
    [x <= j < x + w]. *)
Lemma row_window (W w x r i j : Z) :
  0 <= j < W -> 0 <= x -> 0 <= w -> x + w <= W -> 0 <= i -> 0 <= r ->
  (r * W + x <= i * W + j < r * W + x + w) <-> (i = r /\ x <= j < x + w).
Proof.
  intros Hj Hx Hw Hxw Hi Hr. split.
  - intros [Hlo Hhi]. assert (i = r) by nia. subst i. lia.
  - intros [-> Hjw]. lia.
Qed.

(** X9.  [tb_blit] with a rectangle whose corner does not wrap around
    and a source of [w * h] cells is defined.  When the rectangle lies
    strictly inside the grid ([x + w < width] and [y + h < height]) each
    of its cells receives the source cell of the same row and column and
    every other cell of the back buffer stays as it was; otherwise the
    call changes nothing.  The front buffer and the stream are never
    touched. *)
Theorem tb_blit_effect (x y w h : Z) (src : list tb_cell) s :
  wf_buffers s ->
  0 <= x -> 0 <= y -> 0 <= w -> 0 <= h ->
  x + w < 2 ^ 32 -> y + h < 2 ^ 32 ->
  w * h <= Z.of_nat (length src) ->
  exists s',
    tb_blit x y w h src s = Some s'
    /\ wf_buffers s'
    /\ width (back_buffer s') = width (back_buffer s)
    /\ height (back_buffer s') = height (back_buffer s)
    /\ front_buffer s' = front_buffer s /\ tty_out s' = tty_out s
    /\ (width (back_buffer s) <= x + w \/ height (back_buffer s) <= y + h -> s' = s)
    /\ forall x' y',
         0 <= x' < width (back_buffer s) -> 0 <= y' < height (back_buffer s) ->
         cell_at (back_buffer s') x' y'
         = if decide (x + w < width (back_buffer s) /\ y + h < height (back_buffer s)
                      /\ x <= x' < x + w /\ y <= y' < y + h)
           then load src ((y' - y) * w + (x' - x))
           else cell_at (back_buffer s) x' y'.
Proof.
  intros Hwf Hx Hy Hw Hh Hxw Hyh Hsrc. unfold tb_blit.
  rewrite !uint32_small by lia.
  destruct (decide _) as [Hout|Hfit].
  - exists s. split; [reflexivity|]. split; [exact Hwf|].
    do 4 (split; [reflexivity|]). split; [reflexivity|].
    intros x' y' Hx' Hy'. destruct (decide _); [lia | reflexivity].
  - pose proof Hwf as ((Hbw & Hbh & Hbsz & Hblen) & _ & _ & _ & Hw16 & Hh16).
    set (W := width (back_buffer s)) in *. set (Ht := height (back_buffer s)) in *.
    destruct (decide (2 ^ 31 <= h)) as [|_]; [lia|].
    assert (Hc : CELL (back_buffer s) x y = y * W + x) by (apply uint32_small; nia).
    rewrite Hc.
    destruct (for_upto_inv
      (fun k cs =>
         length cs = length (cells (back_buffer s))
         /\ forall i j, 0 <= i < Ht -> 0 <= j < W ->
              load cs (i * W + j) =
                if decide (y <= i < y + k /\ x <= j < x + w)
                then load src ((i - y) * w + (j - x))
                else load (cells (back_buffer s)) (i * W + j))
      (Z.to_nat h) 0
      (fun sy cs => memcpy cs (y * W + x + sy * W) src (sy * w) w)
      (cells (back_buffer s))) as (cs & Hrun & Hlen & Hall).
    + split; [reflexivity|]. intros i j Hi Hj.
      destruct (decide _); [lia | reflexivity].
    + intros k t Hk (Hlt & Ht').
      destruct (memcpy_is_Some t src (y * W + x + k * W) (k * w) w) as [r Hr];
        [nia | nia | lia | nia | nia |].
      exists r. split; [exact Hr|]. split.
      * rewrite (memcpy_length _ _ _ _ _ _ Hr). exact Hlt.
      * intros i j Hi Hj. rewrite (load_memcpy _ _ _ _ _ _ _ Hr).
        pose proof (row_window W w x (y + k) i j Hj Hx Hw ltac:(lia) ltac:(lia) ltac:(lia))
          as Hwin.
        replace (y * W + x + k * W) with ((y + k) * W + x) by lia.
        destruct (decide ((y + k) * W + x <= i * W + j < (y + k) * W + x + w)) as [Hin|Hno].
        -- apply Hwin in Hin as [-> Hjw].
           destruct (decide _); [|lia]. f_equal. lia.
        -- rewrite Ht' by assumption.
           destruct (decide (y <= i < y + k /\ x <= j < x + w)),
                    (decide (y <= i < y + (k + 1) /\ x <= j < x + w));
             try reflexivity; try lia.
    + rewrite Hrun. cbn [mbind option_bind]. eexists. split; [reflexivity|].
      pose proof (set_back_cells_wf s cs Hwf Hlen) as Hwf'.
      destruct (set_back_buffer_frame (with_cells (back_buffer s) cs) s)
        as (Hb & Hf & Ho & _).
      split; [exact Hwf'|]. rewrite Hb, Hf, Ho.
      split; [reflexivity|]. split; [reflexivity|]. split; [reflexivity|].
      split; [reflexivity|]. split; [intros; lia|].
      intros x' y' Hx' Hy'. unfold cell_at, CELL. cbn [with_cells width cells].
      fold W. rewrite (uint32_small (y' * W + x')) by nia.
      rewrite Hall by assumption.
      destruct (decide (y <= y' < y + (0 + Z.of_nat (Z.to_nat h)) /\ x <= x' < x + w)),
               (decide (x + w < W /\ y + h < Ht /\ x <= x' < x + w /\ y <= y' < y + h));
        try reflexivity; lia.
Qed.

End WriteEffects.

(** ** Presenting, clearing and the window change *)

Section SessionSteps.

Context {R : Type}.
Variable junk : nat -> tb_cell.
Implicit Types s : tb_state R.

(** When the two buffers are the same, the loops of [tb_present] find
    nothing to send and leave the state as it is. *)
Lemma present_loops_same s :
  wf_buffers s -> front_buffer s = back_buffer s ->
  for_upto (Z.to_nat (height (front_buffer s))) 0 present_row s = Some s.
Proof.
  intros ((Hbw & Hbh & Hbsz & Hblen) & _) Hsame.
  destruct (for_upto_inv (fun (_ : Z) t => t = s)
              (Z.to_nat (height (front_buffer s))) 0 present_row s) as (t & Hrun & ->);
    [reflexivity | | exact Hrun].
  intros y t Hy ->. exists s. split; [|reflexivity]. unfold present_row.
  destruct (for_upto_inv (fun (_ : Z) t => t = s)
              (Z.to_nat (width (front_buffer s))) 0 (present_cell y) s) as (t & Hrow & ->);
    [reflexivity | | exact Hrow].
  intros x t Hx ->. exists s. split; [|reflexivity]. unfold present_cell.
  rewrite Hsame in *.
  assert (Hi : 0 <= CELL (back_buffer s) x y < Z.of_nat (length (cells (back_buffer s)))).
  { unfold CELL. rewrite uint32_small by nia. nia. }
  destruct (load_is_Some _ _ Hi) as [c Hc]. rewrite Hc. cbn [mbind option_bind].
  destruct (decide (c = c)); [reflexivity | contradiction].
Qed.

Lemma emit_frame (o : out_item) s :
  back_buffer (emit o s) = back_buffer s
  /\ front_buffer (emit o s) = front_buffer s
  /\ termw (emit o s) = termw s /\ termh (emit o s) = termh s
  /\ sigwinch_r (emit o s) = sigwinch_r s
  /\ tty_handles (emit o s) = tty_handles s
  /\ inbuf (emit o s) = inbuf s /\ inputmode (emit o s) = inputmode s
  /\ caches (emit o s) = caches s
  /\ tty_out (emit o s) = tty_out s ++ [o].
Proof. destruct s. cbn. repeat split; reflexivity. Qed.

(** [cellbuf_resize], whether the dimensions change or not: the result
    has the requested dimensions and keeps the cells of the overlap. *)
Lemma cellbuf_resize_keeps (buf : cellbuf) (w h : Z) :
  wf_cellbuf buf -> 0 <= w -> 0 <= h -> w * h < 2 ^ 32 ->
  exists buf',
    cellbuf_resize junk buf w h = Some buf'
    /\ wf_cellbuf buf' /\ width buf' = w /\ height buf' = h
    /\ forall x y, 0 <= x < w -> 0 <= y < h ->
         cell_at buf' x y
         = if decide (x < width buf /\ y < height buf) then cell_at buf x y
           else Some blank_cell.
Proof.
  intros Hwf Hw Hh Hsz.
  destruct (decide (width buf = w /\ height buf = h)) as [[Hew Heh]|Hne].
  - exists buf. unfold cellbuf_resize.
    destruct (decide _) as [_|Hn]; [|tauto].
    split; [reflexivity|]. split; [exact Hwf|]. split; [exact Hew|]. split; [exact Heh|].
    intros x y Hx Hy. destruct (decide _); [reflexivity | lia].
  - destruct (cellbuf_resize_spec junk buf w h Hwf Hw Hh Hsz Hne) as (cs & Hr & Hlen & Hall).
    destruct Hwf as (Hw0 & Hh0 & Hsz0 & Hlen0).
    eexists. split; [exact Hr|]. split; [unfold wf_cellbuf; simpl; auto|].
    split; [reflexivity|]. split; [reflexivity|].
    intros x y Hx Hy. unfold cell_at, CELL. simpl.
    rewrite uint32_small by nia. rewrite Hall by lia.
    destruct (decide (y < height buf /\ x < width buf)),
             (decide (x < width buf /\ y < height buf)); try lia; [|reflexivity].
    rewrite uint32_small by nia. reflexivity.
Qed.

(** [send_clear]: what it sends, and the fields it leaves alone. *)
Lemma send_clear_effect s :
  back_buffer (send_clear s) = back_buffer s
  /\ front_buffer (send_clear s) = front_buffer s
  /\ termw (send_clear s) = termw s /\ termh (send_clear s) = termh s
  /\ sigwinch_r (send_clear s) = sigwinch_r s
  /\ tty_handles (send_clear s) = tty_handles s
  /\ inbuf (send_clear s) = inbuf s /\ inputmode (send_clear s) = inputmode s
  /\ sys_log (send_clear s) = sys_log s
  /\ tty_out (send_clear s)
     = tty_out s
       ++ (if decide (TB_WHITE <> lastfg s \/ TB_BLACK <> lastbg s)
           then attr_items TB_BOLD TB_WHITE TB_BLACK else [])
       ++ [Fputs T_CLEAR_SCREEN; Fflush].
Proof.
  destruct s. unfold send_clear, send_attr, attr_items. cbn [lastfg lastbg tty_out].
  destruct (decide (TB_WHITE <> _ \/ TB_BLACK <> _)).
  - destruct (decide (Z.land TB_WHITE TB_BOLD <> 0)) as [Hbad|_];
      [exfalso; apply Hbad; reflexivity|].
    destruct (decide (Z.land TB_BLACK TB_BOLD <> 0)) as [Hbad|_];
      [exfalso; apply Hbad; reflexivity|].
    cbn. repeat (split; [reflexivity|]). rewrite <- !app_assoc. reflexivity.
  - cbn. repeat (split; [reflexivity|]). rewrite <- !app_assoc. reflexivity.
Qed.

(** Resize reconciliation, in full: what [check_sigwinch] leaves behind
    when a resize is pending. *)
Lemma check_sigwinch_pending (sz : winsize) s :
  wf_cellbuf (back_buffer s) -> wf_cellbuf (front_buffer s) -> wf_winsize sz ->
  sigwinch_r s <> 0 ->
  exists s',
    check_sigwinch junk sz s = Some s'
    /\ cellbuf_resize junk (back_buffer s) (ws_col sz) (ws_row sz) = Some (back_buffer s')
    /\ wf_cellbuf (back_buffer s')
    /\ width (back_buffer s') = ws_col sz /\ height (back_buffer s') = ws_row sz
    /\ wf_cellbuf (front_buffer s')
    /\ width (front_buffer s') = ws_col sz /\ height (front_buffer s') = ws_row sz
    /\ all_blank (front_buffer s')
    /\ termw s' = ws_col sz /\ termh s' = ws_row sz /\ sigwinch_r s' = 0
    /\ tty_handles s' = tty_handles s /\ inbuf s' = inbuf s
    /\ inputmode s' = inputmode s
    /\ tty_out s'
       = tty_out s
         ++ (if decide (TB_WHITE <> lastfg s \/ TB_BLACK <> lastbg s)
             then attr_items TB_BOLD TB_WHITE TB_BLACK else [])
         ++ [Fputs T_CLEAR_SCREEN; Fflush].
Proof.
  destruct s as [tios bb fb tw th im rb fo fi ofd ifd sw lfg lbg lx ly tout slog].
  cbn [back_buffer front_buffer sigwinch_r lastfg lastbg tty_out inbuf inputmode].
  intros Hb Hf [Hc Hr] Hp. unfold check_sigwinch.
  destruct (decide _) as [_|Hn]; cbn [sigwinch_r] in *; [|contradiction].
  cbn -[cellbuf_resize cellbuf_clear send_clear].
  destruct (cellbuf_resize_wf junk bb (ws_col sz) (ws_row sz))
    as (bb' & Hrb & Hwb & Hbw & Hbh); [assumption | lia | lia | nia |].
  rewrite Hrb. cbn -[cellbuf_resize cellbuf_clear send_clear].
  destruct (cellbuf_resize_wf junk fb (ws_col sz) (ws_row sz))
    as (fb1 & Hrf & Hwf & Hfw & Hfh); [assumption | lia | lia | nia |].
  rewrite Hrf. cbn -[cellbuf_resize cellbuf_clear send_clear].
  destruct (cellbuf_clear_all_blank fb1 Hwf) as (fb' & Hcl & Hwf' & Hfw' & Hfh' & Hblank).
  rewrite Hcl. cbn -[cellbuf_resize cellbuf_clear send_clear].
  eexists. split; [reflexivity|].
  match goal with |- context [send_clear ?t] =>
    pose proof (send_clear_effect t) as Hfr;
    remember (send_clear t) as u eqn:Eu; clear Eu end.
  destruct u. cbn -[cellbuf_resize] in Hfr |- *.
  destruct Hfr as (-> & -> & -> & -> & _ & Hh & -> & -> & _ & ->).
  split; [reflexivity|]. split; [assumption|].
  split; [assumption|]. split; [assumption|]. split; [assumption|].
  split; [congruence|]. split; [congruence|]. split; [assumption|].
  repeat (split; [reflexivity|]). split; [exact Hh|].
  repeat (split; [reflexivity|]). reflexivity.
Qed.

(** A loop whose body never changes some view [f] of the state does not
    change it either. *)
Lemma for_upto_preserved {St A : Type} (f : St -> A) (body : Z -> St -> option St)
    (n : nat) :
  (forall k t t', body k t = Some t' -> f t' = f t) ->
  forall i t t', for_upto n i body t = Some t' -> f t' = f t.
Proof.
  intros Hbody. induction n as [|n IH]; intros i t t'; simpl.
  - intros [= <-]. reflexivity.
  - destruct (body i t) as [u|] eqn:Hu; [|discriminate]. simpl.
    intros Hrun. rewrite (IH _ _ _ Hrun). eapply Hbody. exact Hu.
Qed.

(** The renderer writes to the front buffer, the caches and the stream
    only. *)
Lemma present_cell_rest (y x : Z) s s' :
  present_cell y x s = Some s' ->
  (termw s', termh s', sigwinch_r s', tty_handles s', inbuf s', inputmode s', sys_log s')
  = (termw s, termh s, sigwinch_r s, tty_handles s, inbuf s, inputmode s, sys_log s).
Proof.
  unfold present_cell.
  destruct (load (cells (back_buffer s)) _) as [b|];
    cbn [mbind option_bind]; [|discriminate].
  destruct (load (cells (front_buffer s)) _) as [f|];
    cbn [mbind option_bind]; [|discriminate].
  destruct (decide (b = f)); [intros [= <-]; reflexivity|].
  destruct (store _ _ _) as [cs|]; cbn [mbind option_bind]; [|discriminate].
  intros [= <-]. clear. destruct s. unfold send_char, send_attr.
  repeat (destruct (decide _)); reflexivity.
Qed.

Lemma present_loops_rest s s' :
  for_upto (Z.to_nat (height (front_buffer s))) 0 present_row s = Some s' ->
  (termw s', termh s', sigwinch_r s', tty_handles s', inbuf s', inputmode s', sys_log s')
  = (termw s, termh s, sigwinch_r s, tty_handles s, inbuf s, inputmode s, sys_log s).
Proof.
  apply (for_upto_preserved
    (fun t => (termw t, termh t, sigwinch_r t, tty_handles t, inbuf t, inputmode t,
               sys_log t))).
  intros y t t'. unfold present_row.
  apply (for_upto_preserved
    (fun t => (termw t, termh t, sigwinch_r t, tty_handles t, inbuf t, inputmode t,
               sys_log t))).
  intros x u u'. apply present_cell_rest.
Qed.

(** [tb_present] on a running session, with or without a resize to
    reconcile. *)
Lemma tb_present_spec (sz : winsize) s :
  session_inv s -> wf_winsize sz ->
  exists s',
    tb_present junk sz s = Some s'
    /\ session_inv s'
    /\ front_buffer s' = back_buffer s'
    /\ sigwinch_r s' = 0
    /\ tty_handles s' = tty_handles s /\ inbuf s' = inbuf s
    /\ inputmode s' = inputmode s
    /\ (sigwinch_r s = 0 -> back_buffer s' = back_buffer s)
    /\ (sigwinch_r s <> 0 ->
        cellbuf_resize junk (back_buffer s) (ws_col sz) (ws_row sz)
        = Some (back_buffer s')).
Proof.
  intros (Hwf & Htw & Hth) Hsz. unfold tb_present.
  assert (Hstep : forall s1,
    wf_buffers s1 -> termw s1 = width (back_buffer s1) ->
    termh s1 = height (back_buffer s1) -> sigwinch_r s1 = 0 ->
    exists s',
      (s2 ← for_upto (Z.to_nat (height (front_buffer s1))) 0 present_row s1;
       Some (emit Fflush s2)) = Some s'
      /\ session_inv s' /\ front_buffer s' = back_buffer s' /\ sigwinch_r s' = 0
      /\ tty_handles s' = tty_handles s1 /\ inbuf s' = inbuf s1
      /\ inputmode s' = inputmode s1 /\ back_buffer s' = back_buffer s1).
  { intros s1 Hwf1 Htw1 Hth1 Hsig1.
    destruct (present_loops s1 Hwf1) as (s2 & Hloop & Hb2 & Hf2).
    pose proof (present_loops_rest s1 s2 Hloop) as Hrest.
    rewrite Hloop. cbn [mbind option_bind]. eexists. split; [reflexivity|].
    destruct (emit_frame Fflush s2) as (E1 & E2 & E3 & E4 & E5 & E6 & E7 & E8 & _).
    unfold session_inv, wf_buffers.
    rewrite E1, E2, E3, E4, E5, E6, E7, E8, Hb2, Hf2.
    destruct Hwf1 as (Hwb & _ & _ & _ & Hw16 & Hh16).
    split.
    { split; [|split; congruence].
      split; [exact Hwb|]. split; [exact Hwb|]. auto. }
    split; [reflexivity|]. split; [congruence|]. split; [congruence|].
    split; [congruence|]. split; [congruence | reflexivity]. }
  destruct (decide (sigwinch_r s = 0)) as [Hz|Hp].
  - unfold check_sigwinch. destruct (decide _) as [|_]; [contradiction|].
    cbn [mbind option_bind].
    destruct (Hstep s Hwf Htw Hth Hz) as (s' & Hrun & Hinv & Hfb & Hsig & Hh & Hi & Hm & Hb).
    exists s'. repeat (split; [assumption|]). split; [auto | intros; contradiction].
  - destruct Hwf as (Hwb & Hwfr & _).
    destruct (check_sigwinch_pending sz s Hwb Hwfr Hsz Hp)
      as (s1 & Hchk & Hres & Hwb1 & Hbw & Hbh & Hwf1 & Hfw & Hfh & _ & Htw1 & Hth1
          & Hsig1 & Hh1 & Hi1 & Hm1 & _).
    rewrite Hchk. cbn [mbind option_bind].
    destruct Hsz as [Hc Hr].
    destruct (Hstep s1) as (s' & Hrun & Hinv & Hfb & Hsig & Hh & Hi & Hm & Hb);
      [split; [exact Hwb1|]; split; [exact Hwf1|]; split; [congruence|];
       split; [congruence|]; rewrite Hbw, Hbh; lia
      | congruence | congruence | assumption |].
    exists s'. split; [exact Hrun|]. split; [exact Hinv|]. split; [exact Hfb|].
    split; [exact Hsig|]. split; [congruence|]. split; [congruence|].
    split; [congruence|]. split; [intros; contradiction|]. intros _. congruence.
Qed.

End SessionSteps.

Section SessionInvariant.

Context {R : Type}.
Variable junk : nat -> tb_cell.
Implicit Types s : tb_state R.

(** Two well-formed blank buffers of the same dimensions are equal. *)
Lemma all_blank_eq (b1 b2 : cellbuf) :
  wf_cellbuf b1 -> wf_cellbuf b2 ->
  width b1 = width b2 -> height b1 = height b2 ->
  all_blank b1 -> all_blank b2 -> b1 = b2.
Proof.
  intros (Hw1 & Hh1 & Hs1 & Hl1) (Hw2 & Hh2 & Hs2 & Hl2) Hw Hh Hb1 Hb2.
  assert (Hcells : cells b1 = cells b2).
  { apply load_ext; [lia|]. intros i Hi.
    assert (Hpos : 0 < width b1) by nia.
    assert (Hx : 0 <= i mod width b1 < width b1) by (apply Z.mod_pos_bound; lia).
    assert (Hdm : i = width b1 * (i / width b1) + i mod width b1)
      by (apply Z.div_mod; lia).
    assert (Hy : 0 <= i / width b1 < height b1).
    { split; [apply Z.div_pos; lia|]. apply Z.div_lt_upper_bound; [lia|]. nia. }
    pose proof (Hb1 (i mod width b1) (i / width b1) Hx Hy) as E1.
    pose proof (Hb2 (i mod width b1) (i / width b1) ltac:(lia) ltac:(lia)) as E2.
    unfold cell_at, CELL in E1, E2. rewrite <- Hw in E2.
    replace (i / width b1 * width b1 + i mod width b1) with i in E1, E2 by lia.
    rewrite uint32_small in E1, E2 by lia. congruence. }
  destruct b1, b2. simpl in *. subst. reflexivity.
Qed.

(** [tb_clear] on a running session, with or without a resize to
    reconcile. *)
Lemma tb_clear_spec (sz : winsize) s :
  session_inv s -> wf_winsize sz ->
  exists s',
    tb_clear junk sz s = Some s'
    /\ session_inv s'
    /\ all_blank (back_buffer s')
    /\ sigwinch_r s' = 0
    /\ tty_handles s' = tty_handles s /\ inbuf s' = inbuf s
    /\ inputmode s' = inputmode s
    /\ (sigwinch_r s = 0 ->
        width (back_buffer s') = width (back_buffer s)
        /\ height (back_buffer s') = height (back_buffer s)
        /\ front_buffer s' = front_buffer s /\ tty_out s' = tty_out s)
    /\ (sigwinch_r s <> 0 ->
        width (back_buffer s') = ws_col sz /\ height (back_buffer s') = ws_row sz
        /\ front_buffer s' = back_buffer s').
Proof.
  intros (Hwf & Htw & Hth) Hsz. unfold tb_clear.
  assert (Hstep : forall s1,
    wf_buffers s1 -> termw s1 = width (back_buffer s1) ->
    termh s1 = height (back_buffer s1) ->
    exists s',
      (bb ← cellbuf_clear (back_buffer s1); Some (set_back_buffer bb s1)) = Some s'
      /\ session_inv s' /\ all_blank (back_buffer s')
      /\ sigwinch_r s' = sigwinch_r s1
      /\ tty_handles s' = tty_handles s1 /\ inbuf s' = inbuf s1
      /\ inputmode s' = inputmode s1
      /\ width (back_buffer s') = width (back_buffer s1)
      /\ height (back_buffer s') = height (back_buffer s1)
      /\ wf_cellbuf (back_buffer s')
      /\ front_buffer s' = front_buffer s1 /\ tty_out s' = tty_out s1).
  { intros s1 (Hwb & Hwfr & Hw & Hh & Hw16 & Hh16) Htw1 Hth1.
    destruct (cellbuf_clear_all_blank (back_buffer s1) Hwb)
      as (bb & Hcl & Hwbb & Hbw & Hbh & Hall).
    rewrite Hcl. cbn [mbind option_bind]. eexists. split; [reflexivity|].
    destruct (set_back_buffer_frame bb s1)
      as (F1 & F2 & F3 & _ & F5 & F6 & F7 & _ & F9 & F10 & F11).
    unfold session_inv, wf_buffers. rewrite F1, F2, F3, F5, F6, F7, F9, F10, F11.
    split.
    { split; [|split; congruence].
      split; [exact Hwbb|]. split; [exact Hwfr|].
      split; [congruence|]. split; [congruence|]. split; congruence. }
    repeat (split; [assumption || reflexivity|]). reflexivity. }
  destruct (decide (sigwinch_r s = 0)) as [Hz|Hp].
  - unfold check_sigwinch. destruct (decide _) as [|_]; [contradiction|].
    cbn [mbind option_bind].
    destruct (Hstep s Hwf Htw Hth)
      as (s' & Hrun & Hinv & Hall & Hsig & Hh & Hi & Hm & Hbw & Hbh & _ & Hf & Ho).
    exists s'. split; [exact Hrun|]. split; [exact Hinv|]. split; [exact Hall|].
    split; [congruence|]. split; [exact Hh|]. split; [exact Hi|]. split; [exact Hm|].
    split; [auto | intros; contradiction].
  - destruct Hwf as (Hwb & Hwfr & _).
    destruct (check_sigwinch_pending junk sz s Hwb Hwfr Hsz Hp)
      as (s1 & Hchk & Hres & Hwb1 & Hbw & Hbh & Hwf1 & Hfw & Hfh & Hfblank & Htw1 & Hth1
          & Hsig1 & Hh1 & Hi1 & Hm1 & _).
    rewrite Hchk. cbn [mbind option_bind].
    destruct Hsz as [Hc Hr].
    destruct (Hstep s1)
      as (s' & Hrun & Hinv & Hall & Hsig & Hh & Hi & Hm & Hbw' & Hbh' & Hwb' & Hf & Ho);
      [split; [exact Hwb1|]; split; [exact Hwf1|]; split; [congruence|];
       split; [congruence|]; rewrite Hbw, Hbh; lia
      | congruence | congruence |].
    exists s'. split; [exact Hrun|]. split; [exact Hinv|]. split; [exact Hall|].
    split; [congruence|]. split; [congruence|]. split; [congruence|].
    split; [congruence|]. split; [intros; contradiction|]. intros _.
    split; [congruence|]. split; [congruence|].
    rewrite Hf. apply all_blank_eq; try assumption; congruence.
Qed.

(** A write that respects [call_ok] is defined and stores into the back
    buffer only, without changing its shape. *)
Lemma run_write_ok (op : write_op) s :
  wf_buffers s -> call_ok (Call_write op) ->
  exists cs,
    run_write op s = Some (set_back_buffer (with_cells (back_buffer s) cs) s)
    /\ length cs = length (cells (back_buffer s)).
Proof.
  intros Hwf Hok.
  assert (Hnop : s = set_back_buffer (with_cells (back_buffer s) (cells (back_buffer s))) s)
    by (destruct s as [? [? ? ?] ? ? ? ? ? ? ? ? ? ? ? ? ? ? ? ?]; reflexivity).
  assert (Hput : forall x y c, 0 <= x -> 0 <= y ->
    exists cs,
      tb_put_cell x y c s = Some (set_back_buffer (with_cells (back_buffer s) cs) s)
      /\ length cs = length (cells (back_buffer s))).
  { intros x y c Hx Hy.
    destruct (decide (width (back_buffer s) <= x \/ height (back_buffer s) <= y)) as [Ho|Hi].
    - exists (cells (back_buffer s)). split; [|reflexivity].
      unfold tb_put_cell. destruct (decide _); [|contradiction]. f_equal. exact Hnop.
    - destruct (tb_put_cell_in_bounds x y c s Hwf ltac:(lia) ltac:(lia)) as (cs & Hr & Hl & _).
      eauto. }
  destruct op as [x y c | x y ch fg bg | x y w h src]; simpl in Hok |- *.
  - destruct Hok. apply Hput; assumption.
  - destruct Hok. unfold tb_change_cell. apply Hput; assumption.
  - destruct Hok as (Hx & Hy & Hw & Hh & Hxw & Hyh & Hsrc).
    destruct (decide (width (back_buffer s) <= x + w \/ height (back_buffer s) <= y + h))
      as [Ho|Hi].
    + exists (cells (back_buffer s)). split; [|reflexivity].
      unfold tb_blit. rewrite !uint32_small by lia.
      destruct (decide _); [|contradiction]. f_equal. exact Hnop.
    + apply tb_blit_in_bounds; [exact Hwf|]. simpl. lia.
Qed.

Lemma run_call_inv (c : api_call) s :
  session_inv s -> call_ok c ->
  exists s',
    run_call junk c s = Some s'
    /\ session_inv s'
    /\ tty_handles s' = tty_handles s /\ inbuf s' = inbuf s
    /\ sys_log s' = sys_log s.
Proof.
  intros Hinv Hok. destruct c as [op | sz | sz | | mode]; simpl.
  - destruct Hinv as (Hwf & Htw & Hth).
    destruct (run_write_ok op s Hwf Hok) as (cs & Hr & Hl).
    rewrite Hr. eexists. split; [reflexivity|].
    pose proof (set_back_cells_wf s cs Hwf Hl) as Hwf'.
    destruct (set_back_buffer_frame (with_cells (back_buffer s) cs) s)
      as (F1 & _ & _ & F4 & _ & F6 & F7 & _ & F9 & F10 & _).
    unfold session_inv. rewrite F1, F4, F6, F7, F9, F10. simpl. auto.
  - destruct (tb_clear_spec sz s Hinv Hok) as (s' & Hr & Hi & _ & _ & Hh & Hb & _).
    exists s'. repeat (split; [assumption|]).
    revert Hr. unfold tb_clear. clear.
    destruct (check_sigwinch junk sz s) as [s1|] eqn:Hc; cbn [mbind option_bind];
      [|discriminate].
    destruct (cellbuf_clear _) as [bb|]; cbn [mbind option_bind]; [|discriminate].
    intros [= <-]. transitivity (sys_log s1); [destruct s1; reflexivity|].
    revert Hc. unfold check_sigwinch. destruct (decide _); [|intros [= <-]; reflexivity].
    destruct (cellbuf_resize _ _ _ _) as [b1|]; cbn [mbind option_bind]; [|discriminate].
    destruct (cellbuf_resize _ _ _ _) as [b2|]; cbn [mbind option_bind]; [|discriminate].
    destruct (cellbuf_clear _) as [b3|]; cbn [mbind option_bind]; [|discriminate].
    intros [= <-].
    match goal with |- context [send_clear ?t] =>
      destruct (send_clear_effect t) as (_ & _ & _ & _ & _ & _ & _ & _ & E & _);
      remember (send_clear t) as u eqn:Eu; clear Eu end.
    destruct u. cbn in E |- *. rewrite E. destruct s. reflexivity.
  - destruct (tb_present_spec junk sz s Hinv Hok) as (s' & Hr & Hi & _ & _ & Hh & Hb & _).
    exists s'. repeat (split; [assumption|]).
    revert Hr. unfold tb_present. clear.
    destruct (check_sigwinch junk sz s) as [s1|] eqn:Hc; cbn [mbind option_bind];
      [|discriminate].
    destruct (for_upto _ _ _ _) as [s2|] eqn:Hl; cbn [mbind option_bind]; [|discriminate].
    intros [= <-]. pose proof (present_loops_rest s1 s2 Hl) as Hrest.
    transitivity (sys_log s2); [destruct s2; reflexivity|].
    transitivity (sys_log s1); [congruence|].
    revert Hc. unfold check_sigwinch. destruct (decide _); [|intros [= <-]; reflexivity].
    destruct (cellbuf_resize _ _ _ _) as [b1|]; cbn [mbind option_bind]; [|discriminate].
    destruct (cellbuf_resize _ _ _ _) as [b2|]; cbn [mbind option_bind]; [|discriminate].
    destruct (cellbuf_clear _) as [b3|]; cbn [mbind option_bind]; [|discriminate].
    intros [= <-].
    match goal with |- context [send_clear ?t] =>
      destruct (send_clear_effect t) as (_ & _ & _ & _ & _ & _ & _ & _ & E & _);
      remember (send_clear t) as u eqn:Eu; clear Eu end.
    destruct u. cbn in E |- *. rewrite E. destruct s. reflexivity.
  - eexists. split; [reflexivity|]. clear Hok. destruct s.
    split; [exact Hinv|]. repeat split.
  - eexists. split; [reflexivity|]. clear Hok. unfold tb_select_input_mode.
    destruct (decide _); destruct s; (split; [exact Hinv|]); repeat split.
Qed.

(** Sequences of calls keep the invariant. *)
Lemma run_calls_inv (cs : list api_call) : forall s,
  session_inv s -> Forall call_ok cs ->
  exists s',
    run_calls junk cs s = Some s'
    /\ session_inv s'
    /\ tty_handles s' = tty_handles s /\ inbuf s' = inbuf s
    /\ sys_log s' = sys_log s.
Proof.
  induction cs as [|c cs IH]; intros s Hinv Hall.
  - exists s. split; [reflexivity|]. split; [exact Hinv|]. repeat split.
  - inversion Hall as [|? ? Hc Hcs]; subst.
    destruct (run_call_inv c s Hinv Hc) as (s1 & Hr & Hinv1 & Hh1 & Hi1 & Hl1).
    destruct (IH s1 Hinv1 Hcs) as (s' & Hrun & Hinv' & Hh' & Hi' & Hl').
    exists s'. simpl run_calls. rewrite Hr. cbn [mbind option_bind].
    split; [exact Hrun|]. split; [exact Hinv'|].
    split; [congruence|]. split; congruence.
Qed.

(** X10.  From a session that satisfies the invariant (which a successful
    [tb_init] establishes), every sequence of writes, [tb_clear],
    [tb_present], [tb_select_input_mode] calls and window-change signals
    whose arguments respect [call_ok] is defined, so no call reads or
    writes outside a buffer, and ends in a session that satisfies the
    invariant again: well-formed buffers of equal dimensions, which
    [tb_width] and [tb_height] report, so that a cell at
    [(tb_width - 1, tb_height - 1)] is always inside the grid.  The tty
    handles, the saved terminal attributes and the input ring are left
    alone. *)
Theorem api_invariant (cs : list api_call) s :
  session_inv s -> Forall call_ok cs ->
  exists s',
    run_calls junk cs s = Some s'
    /\ session_inv s'
    /\ tb_width s' = width (back_buffer s') /\ tb_height s' = height (back_buffer s')
    /\ width (front_buffer s') = tb_width s' /\ height (front_buffer s') = tb_height s'
    /\ Z.of_nat (length (cells (back_buffer s'))) = tb_width s' * tb_height s'
    /\ tty_handles s' = tty_handles s /\ inbuf s' = inbuf s.
Proof.
  intros Hinv Hall.
  destruct (run_calls_inv cs s Hinv Hall) as (s' & Hrun & Hinv' & Hh & Hi & _).
  exists s'. split; [exact Hrun|]. split; [exact Hinv'|].
  destruct Hinv' as (((_ & _ & _ & Hlen) & _ & Hw & Hht & _) & Htw & Hth).
  unfold tb_width, tb_height. rewrite Htw, Hth.
  repeat split; assumption.
Qed.

End SessionInvariant.

Section PresentProperties.

Context {R : Type} `{RingBuffer R}.
Variable junk : nat -> tb_cell.
Variable flags : termios_flags.
Implicit Types s : tb_state R.

(** [tb_present] when the buffers are the same and no resize is pending:
    only the flush. *)
Lemma tb_present_same (sz : winsize) s :
  wf_buffers s -> sigwinch_r s = 0 -> front_buffer s = back_buffer s ->
  tb_present junk sz s = Some (emit Fflush s).
Proof.
  intros Hwf Hsig Hsame. unfold tb_present, check_sigwinch.
  destruct (decide _) as [|_]; [congruence|]. cbn [mbind option_bind].
  rewrite (present_loops_same s Hwf Hsame). reflexivity.
Qed.

(** X11.  After a [tb_present], a second [tb_present] with no write in
    between finds the buffers equal: it sends nothing to the terminal but
    the flush and changes nothing else, whether or not the first one had
    a resize to reconcile. *)
Theorem tb_present_twice (sz sz' : winsize) s :
  session_inv s -> wf_winsize sz ->
  exists s1,
    tb_present junk sz s = Some s1
    /\ tb_present junk sz' s1 = Some (emit Fflush s1)
    /\ tty_out (emit Fflush s1) = tty_out s1 ++ [Fflush]
    /\ back_buffer (emit Fflush s1) = back_buffer s1
    /\ front_buffer (emit Fflush s1) = front_buffer s1
    /\ caches (emit Fflush s1) = caches s1.
Proof.
  intros Hinv Hsz.
  destruct (tb_present_spec junk sz s Hinv Hsz) as (s1 & Hr & (Hwf1 & _) & Hfb & Hsig & _).
  exists s1. split; [exact Hr|]. split; [apply tb_present_same; assumption|].
  destruct (emit_frame Fflush s1) as (E1 & E2 & _ & _ & _ & _ & _ & _ & E9 & E10).
  auto.
Qed.

(** X12.  A [tb_present] that finds a resize pending takes the new window
    size: afterwards [tb_width] and [tb_height] report it, both buffers
    have it and are equal, the flag is cleared, and the back buffer holds
    its old cell wherever the old and the new grid overlap and the blank
    cell elsewhere. *)
Theorem tb_present_resize (sz : winsize) s :
  session_inv s -> wf_winsize sz -> sigwinch_r s <> 0 ->
  exists s',
    tb_present junk sz s = Some s'
    /\ tb_width s' = ws_col sz /\ tb_height s' = ws_row sz
    /\ width (back_buffer s') = ws_col sz /\ height (back_buffer s') = ws_row sz
    /\ front_buffer s' = back_buffer s'
    /\ sigwinch_r s' = 0
    /\ forall x y, 0 <= x < ws_col sz -> 0 <= y < ws_row sz ->
         cell_at (back_buffer s') x y
         = if decide (x < width (back_buffer s) /\ y < height (back_buffer s))
           then cell_at (back_buffer s) x y
           else Some blank_cell.
Proof.
  intros Hinv Hsz Hp.
  destruct (tb_present_spec junk sz s Hinv Hsz)
    as (s' & Hr & (Hwf' & Htw & Hth) & Hfb & Hsig & _ & _ & _ & _ & Hres).
  specialize (Hres Hp).
  destruct Hinv as ((Hwb & _) & _). destruct Hsz as [Hc Hrw].
  destruct (cellbuf_resize_keeps junk (back_buffer s) (ws_col sz) (ws_row sz) Hwb)
    as (bb & Hrb & _ & Hbw & Hbh & Hkeep); [lia | lia | nia |].
  assert (Hbb : back_buffer s' = bb) by congruence.
  exists s'. split; [exact Hr|]. unfold tb_width, tb_height.
  rewrite Htw, Hth, Hbb.
  split; [exact Hbw|]. split; [exact Hbh|]. split; [exact Hbw|]. split; [exact Hbh|].
  split; [congruence|]. split; [exact Hsig|]. exact Hkeep.
Qed.

(** X13.  A [tb_clear] that finds a resize pending leaves both buffers
    blank with the new window size, so that a [tb_present] right after it
    sends no cell: only the flush follows the clear-screen sequence of
    the reconciliation. *)
Theorem tb_clear_resize_then_present (sz sz' : winsize) s :
  session_inv s -> wf_winsize sz -> sigwinch_r s <> 0 ->
  exists s1,
    tb_clear junk sz s = Some s1
    /\ tb_width s1 = ws_col sz /\ tb_height s1 = ws_row sz
    /\ all_blank (back_buffer s1) /\ front_buffer s1 = back_buffer s1
    /\ tty_out s1
       = tty_out s
         ++ (if decide (TB_WHITE <> lastfg s \/ TB_BLACK <> lastbg s)
             then attr_items TB_BOLD TB_WHITE TB_BLACK else [])
         ++ [Fputs T_CLEAR_SCREEN; Fflush]
    /\ tb_present junk sz' s1 = Some (emit Fflush s1).
Proof.
  intros Hinv Hsz Hp.
  destruct (tb_clear_spec junk sz s Hinv Hsz)
    as (s1 & Hr & (Hwf1 & Htw & Hth) & Hall & Hsig & _ & _ & _ & _ & Hpend).
  destruct (Hpend Hp) as (Hbw & Hbh & Hfb).
  exists s1. split; [exact Hr|]. unfold tb_width, tb_height.
  split; [congruence|]. split; [congruence|]. split; [exact Hall|].
  split; [exact Hfb|]. split; [|apply tb_present_same; assumption].
  revert Hr. unfold tb_clear.
  destruct Hinv as ((Hwb & Hwfr & _) & _).
  destruct (check_sigwinch_pending junk sz s Hwb Hwfr Hsz Hp) as (s0 & Hchk & Hrest).
  rewrite Hchk. cbn [mbind option_bind].
  destruct (cellbuf_clear _) as [bb|]; cbn [mbind option_bind]; [|discriminate].
  intros [= <-].
  destruct (set_back_buffer_frame bb s0) as (_ & _ & -> & _).
  apply Hrest.
Qed.

End PresentProperties.

(** ** Set-up, tear-down and the life of a session *)

Section Lifecycle.

Context {R : Type} `{RingBuffer R}.
Variable junk : nat -> tb_cell.
Variable flags : termios_flags.
Implicit Types s : tb_state R.

(** The attributes that [tb_init] installs: every flag word is zero
    except for the character size, whatever the masks are. *)
Lemma raw_tios_eq :
  raw_tios flags
  = {| c_iflag := 0; c_oflag := 0; c_cflag := CS8 flags; c_lflag := 0;
       c_cc_VMIN := 0; c_cc_VTIME := 0 |}.
Proof. unfold raw_tios. rewrite !Z.land_0_l, Z.lor_0_l. reflexivity. Qed.

(** A successful [tb_init], field by field. *)
Lemma tb_init_ok (env : tty_env) (fo fi : FILE) s :
  fopen_w env = Some fo -> fopen_r env = Some fi ->
  0 <= init_term_ret env -> wf_winsize (ioctl_winsize env) ->
  exists b s',
    tb_init junk flags env s = Some (0, s')
    /\ cellbuf_clear (cellbuf_init junk (ws_col (ioctl_winsize env))
                        (ws_row (ioctl_winsize env))) = Some b
    /\ back_buffer s' = b /\ front_buffer s' = b
    /\ termw s' = ws_col (ioctl_winsize env) /\ termh s' = ws_row (ioctl_winsize env)
    /\ tty_handles s' = (tcgetattr_tios env, Some fo, Some fi, fileno fo, fileno fi)
    /\ inbuf s' = init_ringbuffer (inbuf s) 4096
    /\ inputmode s' = inputmode s /\ sigwinch_r s' = sigwinch_r s
    /\ caches s' = caches s
    /\ tty_out s' = tty_out s ++ [Fputs T_ENTER_CA; Fputs T_ENTER_KEYPAD;
                                  Fputs T_HIDE_CURSOR; Fputs T_CLEAR_SCREEN; Fflush]
    /\ sys_log s' = sys_log s ++ [Signal_SIGWINCH; Tcsetattr (fileno fo) (raw_tios flags)].
Proof.
  intros Ho Hi Hterm [Hc Hr]. destruct s. unfold tb_init.
  cbn [out in_ set_out set_in_]. rewrite Ho, Hi.
  destruct (decide (init_term_ret env < 0)) as [|_]; [lia|].
  cbn -[cellbuf_init cellbuf_clear raw_tios].
  assert (Hwf : wf_cellbuf (cellbuf_init junk (ws_col (ioctl_winsize env))
                              (ws_row (ioctl_winsize env))))
    by (apply cellbuf_init_wf; [lia | lia | nia]).
  destruct (cellbuf_clear_all_blank _ Hwf) as (b & Hcl & _).
  rewrite !Hcl. cbn -[cellbuf_init cellbuf_clear raw_tios].
  exists b. eexists. split; [reflexivity|]. cbn -[raw_tios].
  repeat (split; [reflexivity|]).
  split; [rewrite <- !app_assoc; reflexivity|].
  rewrite <- !app_assoc. reflexivity.
Qed.

(** X14.  When both streams open, the terminal is recognised and the
    window size is read, [tb_init] returns [0] and leaves a session that
    satisfies the invariant: two equal blank buffers of the window size,
    which [tb_width] and [tb_height] report.  It puts the enter-alt-screen,
    keypad, hide-cursor and clear-screen strings on the stream and
    flushes; it installs the signal handler, saves the attributes that
    [tcgetattr] read and installs attributes in which every flag word is
    zero except [c_cflag = CS8]: they do not depend on the attributes the
    terminal had. *)
Theorem tb_init_success (env : tty_env) (fo fi : FILE) s :
  fopen_w env = Some fo -> fopen_r env = Some fi ->
  0 <= init_term_ret env -> wf_winsize (ioctl_winsize env) ->
  exists s',
    tb_init junk flags env s = Some (0, s')
    /\ session_inv s'
    /\ tb_width s' = ws_col (ioctl_winsize env)
    /\ tb_height s' = ws_row (ioctl_winsize env)
    /\ all_blank (back_buffer s') /\ front_buffer s' = back_buffer s'
    /\ orig_tios s' = tcgetattr_tios env
    /\ out s' = Some fo /\ in_ s' = Some fi
    /\ tty_out s' = tty_out s ++ [Fputs T_ENTER_CA; Fputs T_ENTER_KEYPAD;
                                  Fputs T_HIDE_CURSOR; Fputs T_CLEAR_SCREEN; Fflush]
    /\ sys_log s'
       = sys_log s
         ++ [Signal_SIGWINCH;
             Tcsetattr (fileno fo)
               {| c_iflag := 0; c_oflag := 0; c_cflag := CS8 flags; c_lflag := 0;
                  c_cc_VMIN := 0; c_cc_VTIME := 0 |}].
Proof.
  intros Ho Hi Hterm Hsz.
  destruct (tb_init_ok env fo fi s Ho Hi Hterm Hsz)
    as (b & s' & Hrun & Hcl & Hb & Hf & Htw & Hth & Hh & _ & _ & _ & _ & Hout & Hlog).
  destruct Hsz as [Hc Hr].
  assert (Hwf : wf_cellbuf (cellbuf_init junk (ws_col (ioctl_winsize env))
                              (ws_row (ioctl_winsize env))))
    by (apply cellbuf_init_wf; [lia | lia | nia]).
  destruct (cellbuf_clear_all_blank _ Hwf) as (b' & Hcl' & Hwfb & Hbw & Hbh & Hall).
  assert (b' = b) by congruence. subst b'. simpl in Hbw, Hbh.
  exists s'. split; [exact Hrun|]. unfold session_inv, wf_buffers, tb_width, tb_height.
  rewrite Hb, Hf, Htw, Hth, Hout, Hlog, raw_tios_eq.
  unfold tty_handles in Hh. injection Hh as -> -> -> _ _.
  split; [|repeat split; assumption || reflexivity || (symmetry; assumption)].
  split; [|split; congruence].
  split; [exact Hwfb|]. split; [exact Hwfb|]. split; [reflexivity|].
  split; [reflexivity|]. rewrite Hbw, Hbh. lia.
Qed.



End Lifecycle.

(** ** The event loop *)

Section EventLoop.

Context {R : Type} `{RingBuffer R}.
Variable extract_event : tb_key_event -> R -> Z -> Z * tb_key_event * R.
Implicit Types s : tb_state R.

Lemma set_inbuf_set_inbuf (a b : R) s : set_inbuf a (set_inbuf b s) = set_inbuf a s.
Proof. destruct s. reflexivity. Qed.

Lemma set_inbuf_same s : set_inbuf (inbuf s) s = s.
Proof. destruct s. reflexivity. Qed.

Lemma inbuf_set_inbuf (a : R) s : inbuf (set_inbuf a s) = a.
Proof. destruct s. reflexivity. Qed.

(** The loop returns [-1], [0] or [1], and whatever it does it changes
    nothing but the ring. *)
Lemma wait_loop_result (rounds : list select_outcome) :
  forall ev s,
    wait_state (wait_loop extract_event rounds ev s)
    = set_inbuf (inbuf (wait_state (wait_loop extract_event rounds ev s))) s
    /\ match wait_code (wait_loop extract_event rounds ev s) with
       | Some r => r = -1 \/ r = 0 \/ r = 1
       | None => True
       end.
Proof.
  induction rounds as [|o rounds IH]; intros ev s.
  - simpl. rewrite set_inbuf_same. auto.
  - destruct o as [| | bytes]; simpl.
    + rewrite set_inbuf_same. auto.
    + apply IH.
    + destruct (decide _); [apply IH|].
      destruct (decide _); [simpl; rewrite set_inbuf_same; auto|].
      destruct (extract_event ev _ _) as [[code ev'] rb].
      rewrite set_inbuf_set_inbuf.
      destruct (decide (code = 0)).
      * simpl. rewrite inbuf_set_inbuf. auto.
      * destruct (IH ev' (set_inbuf rb s)) as [Hst Hcode]. split; [|exact Hcode].
        rewrite Hst at 1. apply set_inbuf_set_inbuf.
Qed.

(** X16.  Whatever the rounds bring, [wait_fill_event] (and so
    [tb_poll_event] and [tb_peek_event]) returns only [-1], [0] or [1],
    and the state it leaves differs from the one it found in the input
    ring at most: the event functions never write to the cell buffers,
    the caches or the terminal. *)
Theorem wait_fill_event_result (rounds : list select_outcome) s :
  wait_state (wait_fill_event extract_event rounds s)
  = set_inbuf (inbuf (wait_state (wait_fill_event extract_event rounds s))) s
  /\ match wait_code (wait_fill_event extract_event rounds s) with
     | Some r => r = -1 \/ r = 0 \/ r = 1
     | None => True
     end.
Proof.
  unfold wait_fill_event.
  destruct (extract_event _ (inbuf s) (inputmode s)) as [[code ev] rb].
  destruct (decide (code = 0)).
  - simpl. rewrite inbuf_set_inbuf. auto.
  - destruct (wait_loop_result rounds ev (set_inbuf rb s)) as [Hst Hcode].
    split; [|exact Hcode]. rewrite Hst at 1. apply set_inbuf_set_inbuf.
Qed.

Lemma wait_loop_idle (pre rest : list select_outcome) (ev : tb_key_event) s :
  Forall idle_round pre ->
  wait_loop extract_event (pre ++ rest) ev s = wait_loop extract_event rest ev s.
Proof.
  induction 1 as [|o pre Ho _ IH]; [reflexivity|].
  destruct Ho as [-> | ->]; simpl; exact IH.
Qed.

(** X17.  Rounds in which [select] reports nothing to read, and reads
    that return no byte (the wake-ups that a resize causes), are skipped:
    the run goes on as if they had not happened, with the ring and the
    event untouched. *)
Theorem wait_fill_event_idle (pre rest : list select_outcome) s :
  Forall idle_round pre ->
  wait_fill_event extract_event (pre ++ rest) s = wait_fill_event extract_event rest s.
Proof.
  intros Hidle. unfold wait_fill_event.
  destruct (extract_event _ (inbuf s) (inputmode s)) as [[code ev] rb].
  destruct (decide (code = 0)); [reflexivity|].
  apply wait_loop_idle. exact Hidle.
Qed.

End EventLoop.

(** X18.  The timeout of [tb_peek_event], given in milliseconds, is split
    into whole seconds and microseconds without loss: the microseconds
    are a multiple of 1000 below one second, and the two together are the
    timeout again. *)
Theorem peek_timeval_exact (timeout : Z) :
  0 <= timeout ->
  0 <= fst (peek_timeval timeout)
  /\ 0 <= snd (peek_timeval timeout) < 1000000
  /\ snd (peek_timeval timeout) mod 1000 = 0
  /\ fst (peek_timeval timeout) * 1000000 + snd (peek_timeval timeout) = timeout * 1000.
Proof.
  intros Ht. unfold peek_timeval. simpl.
  pose proof (Z.div_mod timeout 1000 ltac:(lia)) as Hdm.
  pose proof (Z.mod_pos_bound timeout 1000 ltac:(lia)) as Hm.
  assert (Hq : 0 <= timeout / 1000) by (apply Z.div_pos; lia).
  replace (timeout - timeout / 1000 * 1000) with (timeout mod 1000) by lia.
  split; [exact Hq|]. split; [lia|]. split; [apply Z.mod_mul; lia | lia].
Qed.

(** ** Resizing there and back *)

(** X19.  Resizing a buffer and then resizing it back to its old
    dimensions does not bring its contents back: only the cells that also
    lay inside the intermediate grid survive, every other cell is blank. *)
Theorem cellbuf_resize_there_and_back (junk : nat -> tb_cell) (buf : cellbuf) (w h : Z) :
  wf_cellbuf buf -> 0 <= w -> 0 <= h -> w * h < 2 ^ 32 ->
  exists b1 b2,
    cellbuf_resize junk buf w h = Some b1
    /\ cellbuf_resize junk b1 (width buf) (height buf) = Some b2
    /\ width b2 = width buf /\ height b2 = height buf
    /\ forall x y, 0 <= x < width buf -> 0 <= y < height buf ->
         cell_at b2 x y
         = if decide (x < w /\ y < h) then cell_at buf x y else Some blank_cell.
Proof.
  intros Hwf Hw Hh Hsz. pose proof Hwf as (Hw0 & Hh0 & Hsz0 & _).
  destruct (cellbuf_resize_keeps junk buf w h Hwf Hw Hh Hsz)
    as (b1 & Hr1 & Hwf1 & Hw1 & Hh1 & Hk1).
  destruct (cellbuf_resize_keeps junk b1 (width buf) (height buf) Hwf1 Hw0 Hh0 Hsz0)
    as (b2 & Hr2 & _ & Hw2 & Hh2 & Hk2).
  exists b1, b2. repeat (split; [assumption|]).
  intros x y Hx Hy. rewrite Hk2 by assumption. rewrite Hw1, Hh1.
  destruct (decide (x < w /\ y < h)) as [Hin|]; [|reflexivity].
  rewrite Hk1 by lia. destruct (decide _); [reflexivity | lia].
Qed.

(** ** Differential rendering *)

(** A loop whose body leaves the state alone at every index leaves it
    alone. *)
Lemma for_upto_id {St : Type} (n : nat) (i : Z) (body : Z -> St -> option St) (t : St) :
  (forall k, i <= k < i + Z.of_nat n -> body k t = Some t) ->
  for_upto n i body t = Some t.
Proof.
  intros Hid.
  destruct (for_upto_inv (fun (_ : Z) u => u = t) n i body t) as (u & Hrun & ->);
    [reflexivity | | exact Hrun].
  intros k u Hk ->. exists t. split; [apply Hid; exact Hk | reflexivity].
Qed.

(** A loop whose body acts at one index [j] only, taking [t] to [t'],
    takes [t] to [t']. *)
Lemma for_upto_one {St : Type} (n : nat) (i j : Z) (body : Z -> St -> option St)
    (t t' : St) :
  i <= j < i + Z.of_nat n ->
  (forall k, i <= k < i + Z.of_nat n -> k <> j -> body k t = Some t) ->
  body j t = Some t' ->
  (forall k, i <= k < i + Z.of_nat n -> body k t' = Some t') ->
  for_upto n i body t = Some t'.
Proof.
  intros Hj Hbefore Hat Hafter.
  destruct (for_upto_inv (fun k u => if decide (k <= j) then u = t else u = t')
              n i body t) as (u & Hrun & Hu).
  - destruct (decide (i <= j)); [reflexivity | lia].
  - intros k u Hk Hinv. destruct (decide (k <= j)) as [Hle|Hgt]; subst u.
    + destruct (decide (k = j)) as [->|Hne].
      * exists t'. split; [exact Hat|]. destruct (decide (j + 1 <= j)); [lia | reflexivity].
      * exists t. split; [apply Hbefore; assumption|].
        destruct (decide (k + 1 <= j)); [reflexivity | lia].
    + exists t'. split; [apply Hafter; exact Hk|].
      destruct (decide (k + 1 <= j)); [lia | reflexivity].
  - rewrite Hrun. destruct (decide (i + Z.of_nat n <= j)); [lia | congruence].
Qed.

Section OneCell.

Context {R : Type}.
Variable junk : nat -> tb_cell.
Implicit Types s : tb_state R.

(** The step of the renderer at a cell that is the same in both
    buffers. *)
Lemma present_cell_id (y x : Z) (c : tb_cell) s :
  load (cells (back_buffer s)) (CELL (back_buffer s) x y) = Some c ->
  load (cells (front_buffer s)) (CELL (front_buffer s) x y) = Some c ->
  present_cell y x s = Some s.
Proof.
  intros Hb Hf. unfold present_cell. rewrite Hb, Hf. cbn [mbind option_bind].
  destruct (decide (c = c)); [reflexivity | contradiction].
Qed.

(** X20.  When the back buffer differs from the front buffer in one cell
    only, [tb_present] sends that cell and nothing else: the attribute
    change if the cell's pair is not the cached one, the cursor move
    unless the cell follows the last one written, the character, and the
    flush.  Afterwards the front buffer equals the back buffer and the
    caches hold the cell's attributes and position. *)
Theorem tb_present_one_cell (sz : winsize) (x y : Z) (b f : tb_cell) s :
  wf_buffers s -> sigwinch_r s = 0 ->
  0 <= x < width (back_buffer s) -> 0 <= y < height (back_buffer s) ->
  cell_at (back_buffer s) x y = Some b ->
  cell_at (front_buffer s) x y = Some f -> f <> b ->
  (forall x' y', 0 <= x' < width (back_buffer s) -> 0 <= y' < height (back_buffer s) ->
                 ~ (x' = x /\ y' = y) ->
                 cell_at (front_buffer s) x' y' = cell_at (back_buffer s) x' y') ->
  exists s',
    tb_present junk sz s = Some s'
    /\ tty_out s'
       = tty_out s
         ++ (if decide (fg b <> lastfg s \/ bg b <> lastbg s)
             then attr_items TB_BOLD (fg b) (bg b) else [])
         ++ char_items x y (ch b) s
         ++ [Fflush]
    /\ front_buffer s' = back_buffer s /\ back_buffer s' = back_buffer s
    /\ caches s' = (fg b, bg b, sint32 x, sint32 y).
Proof.
  intros Hwf Hsig Hx Hy Hb Hf Hne Hsame.
  pose proof Hwf as ((Hbw & Hbh & Hbsz & Hblen) & (Hfw & Hfh & Hfsz & Hflen) & Hw & Hh & _).
  set (W := width (back_buffer s)) in *. set (Ht := height (back_buffer s)) in *.
  set (idx := y * W + x).
  assert (Hidx : 0 <= idx < W * Ht) by (unfold idx; nia).
  assert (Hcb : forall x' y', 0 <= x' < W -> 0 <= y' < Ht ->
            CELL (back_buffer s) x' y' = y' * W + x')
    by (intros; unfold CELL; fold W; apply uint32_small; nia).
  assert (Hcf : forall x' y', 0 <= x' < W -> 0 <= y' < Ht ->
            CELL (front_buffer s) x' y' = y' * W + x')
    by (intros; unfold CELL; rewrite Hw; apply uint32_small; nia).
  unfold cell_at in Hb, Hf, Hsame. rewrite Hcb in Hb by assumption.
  rewrite Hcf in Hf by assumption. fold idx in Hb, Hf.
  (* the state after the one step that acts *)
  set (s0 := send_char x y (ch b) (send_attr (fg b) (bg b) s)).
  set (s1 := set_front_buffer
               (with_cells (front_buffer s) (<[Z.to_nat idx := b]> (cells (front_buffer s))))
               s0).
  destruct (send_attr_frame (fg b) (bg b) s) as (Ha1 & Ha2 & Hax & Hay).
  destruct (send_char_frame x y (ch b) (send_attr (fg b) (bg b) s)) as (Hc1 & Hc2 & Hcfg & Hcbg).
  destruct (send_attr_caches (fg b) (bg b) s) as (Hafg & Habg).
  assert (Hs0b : back_buffer s0 = back_buffer s) by (unfold s0; congruence).
  assert (Hs0f : front_buffer s0 = front_buffer s) by (unfold s0; congruence).
  assert (Hs1b : back_buffer s1 = back_buffer s)
    by (unfold s1; destruct s0; exact Hs0b).
  assert (Hs1f : front_buffer s1
                 = with_cells (front_buffer s) (<[Z.to_nat idx := b]> (cells (front_buffer s))))
    by (unfold s1; destruct s0; reflexivity).
  assert (Hstore : store (cells (front_buffer s)) idx b
                   = Some (<[Z.to_nat idx := b]> (cells (front_buffer s))))
    by (apply store_is_Some; lia).
  assert (Hat : present_cell y x s = Some s1).
  { unfold present_cell. rewrite Hcb, Hcf by assumption. fold idx. rewrite Hb, Hf.
    cbn [mbind option_bind]. destruct (decide (b = f)); [congruence|].
    fold s0. rewrite Hs0f, Hcf by assumption. fold idx. rewrite Hstore. reflexivity. }
  assert (Hbefore : forall x' y', 0 <= x' < W -> 0 <= y' < Ht -> ~ (x' = x /\ y' = y) ->
            present_cell y' x' s = Some s).
  { intros x' y' Hx' Hy' Hn.
    destruct (load_is_Some (cells (back_buffer s)) (y' * W + x') ltac:(nia)) as [c Hc].
    apply (present_cell_id y' x' c); [rewrite Hcb by assumption; exact Hc|].
    rewrite Hsame by assumption. rewrite Hcb by assumption. exact Hc. }
  assert (Hafter : forall x' y', 0 <= x' < W -> 0 <= y' < Ht ->
            present_cell y' x' s1 = Some s1).
  { intros x' y' Hx' Hy'.
    destruct (load_is_Some (cells (back_buffer s)) (y' * W + x') ltac:(nia)) as [c Hc].
    apply (present_cell_id y' x' c).
    - rewrite Hs1b, Hcb by assumption. exact Hc.
    - rewrite Hs1f. unfold CELL. cbn [with_cells width cells]. rewrite Hw. fold W.
      rewrite uint32_small by nia.
      rewrite (load_store _ _ idx _ b Hstore).
      destruct (decide (y' * W + x' = idx)) as [Heq|Hneq].
      + rewrite Heq in Hc. congruence.
      + specialize (Hsame x' y' Hx' Hy').
        rewrite Hcf, Hcb in Hsame by assumption. rewrite Hsame; [exact Hc|].
        intros [-> ->]. apply Hneq. reflexivity. }
  assert (Hcells : <[Z.to_nat idx := b]> (cells (front_buffer s)) = cells (back_buffer s)).
  { apply load_ext; [rewrite length_insert; lia|]. intros p Hp.
    rewrite length_insert in Hp.
    rewrite (load_store _ _ idx _ b Hstore).
    destruct (decide (p = idx)) as [->|Hn]; [symmetry; exact Hb|].
    assert (Hpos : 0 < W) by lia.
    assert (Hx' : 0 <= p mod W < W) by (apply Z.mod_pos_bound; lia).
    assert (Hdm : p = W * (p / W) + p mod W) by (apply Z.div_mod; lia).
    assert (Hy' : 0 <= p / W < Ht).
    { split; [apply Z.div_pos; lia|]. apply Z.div_lt_upper_bound; [lia|]. nia. }
    pose proof (Hsame (p mod W) (p / W) Hx' Hy') as Hs.
    rewrite Hcf, Hcb in Hs by assumption.
    replace (p / W * W + p mod W) with p in Hs by lia.
    apply Hs. intros [Hxe Hye]. apply Hn. unfold idx. rewrite <- Hxe, <- Hye. lia. }
  assert (Hw1 : width (front_buffer s1) = W) by (rewrite Hs1f; exact Hw).
  assert (Hloops : for_upto (Z.to_nat (height (front_buffer s))) 0 present_row s = Some s1).
  { apply (for_upto_one _ 0 y); [lia | | |].
    - intros r Hr Hry. unfold present_row. apply for_upto_id.
      intros c Hc. apply Hbefore; lia.
    - unfold present_row. apply (for_upto_one _ 0 x); [lia | | exact Hat |].
      + intros c Hc Hcx. apply Hbefore; lia.
      + intros c Hc. apply Hafter; lia.
    - intros r Hr. unfold present_row. rewrite Hw1. apply for_upto_id.
      intros c Hc. apply Hafter; lia. }
  unfold tb_present, check_sigwinch.
  destruct (decide (sigwinch_r s <> 0)) as [|_]; [congruence|].
  cbn [mbind option_bind]. rewrite Hloops. cbn [mbind option_bind].
  eexists. split; [reflexivity|].
  destruct (emit_frame Fflush s1) as (E1 & E2 & _ & _ & _ & _ & _ & _ & E9 & E10).
  rewrite E1, E2, E9, E10, Hs1b, Hs1f.
  assert (Hout : tty_out s1 = tty_out s0) by (unfold s1; destruct s0; reflexivity).
  assert (Hcaches : caches s1 = caches s0) by (unfold s1; destruct s0; reflexivity).
  rewrite Hout, Hcaches. unfold s0.
  rewrite send_char_out, send_attr_out.
  destruct (send_char_caches x y (ch b) (send_attr (fg b) (bg b) s)) as [Hlx Hly].
  split.
  - rewrite <- !app_assoc. do 2 f_equal. f_equal.
    unfold char_items. rewrite Hax, Hay. reflexivity.
  - split.
    + clear -Hcells Hw Hh. unfold with_cells. rewrite Hcells, Hw, Hh.
      destruct (back_buffer s). reflexivity.
    + split; [reflexivity|]. unfold caches. rewrite Hlx, Hly, Hcfg, Hcbg, Hafg, Habg.
      reflexivity.
Qed.

End OneCell.

(** ** The further properties on concrete sessions *)

Lemma utf8_encoding_shape_witness :
  length (utf8_unicode_to_char 0x10FFFF) = utf8_length 0x10FFFF
  /\ (1 <= length (utf8_unicode_to_char 0x10FFFF) <= 6)%nat
  /\ Forall (fun b => 0 <= b < 0x100) (utf8_unicode_to_char 0x10FFFF)
  /\ Forall (fun b => 0x80 <= b < 0xc0) (tail (utf8_unicode_to_char 0x10FFFF)).
Proof. apply (utf8_encoding_shape 0x10FFFF). lia. Defined.

Lemma utf8_beyond_31_bits_witness :
  (exists bs, utf8_unicode_to_char 0x80000000 = 0xfe :: bs
              \/ utf8_unicode_to_char 0x80000000 = 0xff :: bs)
  /\ utf8_decode_ref (utf8_unicode_to_char 0x80000000) = None.
Proof. apply (utf8_beyond_31_bits 0x80000000). lia. Defined.

Lemma utf8_unicode_to_char_inj_witness : 0x2603 = 0x2603.
Proof. apply (utf8_unicode_to_char_inj 0x2603 0x2603); [lia | lia | reflexivity]. Defined.

Lemma send_char_bytes_witness :
  tty_out (send_char 0 0 0 session_3x2)
  = tty_out session_3x2
    ++ (if decide (sint32 0 - 1 <> lastx session_3x2 \/ 0 <> uint32 (lasty session_3x2))
        then [Fprintf T_MOVE_CURSOR (uint32 (0 + 1)) (uint32 (0 + 1))] else [])
    ++ [Fputs_buf (if decide (0 = 0) then [] else utf8_unicode_to_char 0)].
Proof. apply (send_char_bytes 0 0 0 session_3x2). lia. Defined.

Lemma send_char_after_send_char_witness :
  tty_out (send_char 2 1 0x42 (send_char 1 1 0x41 session_3x2))
  = tty_out (send_char 1 1 0x41 session_3x2)
    ++ (if decide (2 = 1 + 1 /\ 1 = 1) then []
        else [Fprintf T_MOVE_CURSOR (1 + 1) (2 + 1)])
    ++ [Fputs_buf (c_str (utf8_unicode_to_char 0x42 ++ [0]))].
Proof. apply (send_char_after_send_char 1 1 0x41 2 1 0x42 session_3x2); lia. Defined.

Lemma tb_put_cell_effect_witness :
  exists s',
    tb_put_cell 2 1 cell_A session_3x2 = Some s'
    /\ wf_buffers s'
    /\ width (back_buffer s') = width (back_buffer session_3x2)
    /\ height (back_buffer s') = height (back_buffer session_3x2)
    /\ front_buffer s' = front_buffer session_3x2 /\ tty_out s' = tty_out session_3x2
    /\ (width (back_buffer session_3x2) <= 2 \/ height (back_buffer session_3x2) <= 1 ->
        s' = session_3x2)
    /\ forall x' y',
         0 <= x' < width (back_buffer session_3x2) ->
         0 <= y' < height (back_buffer session_3x2) ->
         cell_at (back_buffer s') x' y'
         = if decide (x' = 2 /\ y' = 1) then Some cell_A
           else cell_at (back_buffer session_3x2) x' y'.
Proof. apply (tb_put_cell_effect 2 1 cell_A session_3x2); by_evaluation. Defined.

Lemma tb_blit_effect_witness :
  exists s',
    tb_blit 1 0 2 2 src_2x2 session_4x3 = Some s'
    /\ wf_buffers s'
    /\ width (back_buffer s') = width (back_buffer session_4x3)
    /\ height (back_buffer s') = height (back_buffer session_4x3)
    /\ front_buffer s' = front_buffer session_4x3 /\ tty_out s' = tty_out session_4x3
    /\ (width (back_buffer session_4x3) <= 1 + 2
        \/ height (back_buffer session_4x3) <= 0 + 2 -> s' = session_4x3)
    /\ forall x' y',
         0 <= x' < width (back_buffer session_4x3) ->
         0 <= y' < height (back_buffer session_4x3) ->
         cell_at (back_buffer s') x' y'
         = if decide (1 + 2 < width (back_buffer session_4x3)
                      /\ 0 + 2 < height (back_buffer session_4x3)
                      /\ 1 <= x' < 1 + 2 /\ 0 <= y' < 0 + 2)
           then load src_2x2 ((y' - 0) * 2 + (x' - 1))
           else cell_at (back_buffer session_4x3) x' y'.
Proof. apply (tb_blit_effect 1 0 2 2 src_2x2 session_4x3); by_evaluation. Defined.

Lemma api_invariant_witness :
  exists s',
    run_calls junk_pattern sample_calls session_3x2 = Some s'
    /\ session_inv s'
    /\ tb_width s' = width (back_buffer s') /\ tb_height s' = height (back_buffer s')
    /\ width (front_buffer s') = tb_width s' /\ height (front_buffer s') = tb_height s'
    /\ Z.of_nat (length (cells (back_buffer s'))) = tb_width s' * tb_height s'
    /\ tty_handles s' = tty_handles session_3x2 /\ inbuf s' = inbuf session_3x2.
Proof.
  apply (api_invariant junk_pattern sample_calls session_3x2).
  - by_evaluation.
  - unfold sample_calls. repeat (constructor; [by_evaluation|]). constructor.
Defined.

Lemma tb_present_twice_witness :
  exists s1,
    tb_present junk_pattern win_3x2 session_pending_A = Some s1
    /\ tb_present junk_pattern win_4x3 s1 = Some (emit Fflush s1)
    /\ tty_out (emit Fflush s1) = tty_out s1 ++ [Fflush]
    /\ back_buffer (emit Fflush s1) = back_buffer s1
    /\ front_buffer (emit Fflush s1) = front_buffer s1
    /\ caches (emit Fflush s1) = caches s1.
Proof.
  apply (tb_present_twice junk_pattern win_3x2 win_4x3 session_pending_A); by_evaluation.
Defined.

Lemma tb_present_resize_witness :
  exists s',
    tb_present junk_pattern win_4x3 (sigwinch_handler session_pending_A) = Some s'
    /\ tb_width s' = ws_col win_4x3 /\ tb_height s' = ws_row win_4x3
    /\ width (back_buffer s') = ws_col win_4x3 /\ height (back_buffer s') = ws_row win_4x3
    /\ front_buffer s' = back_buffer s'
    /\ sigwinch_r s' = 0
    /\ forall x y, 0 <= x < ws_col win_4x3 -> 0 <= y < ws_row win_4x3 ->
         cell_at (back_buffer s') x y
         = if decide (x < width (back_buffer (sigwinch_handler session_pending_A))
                      /\ y < height (back_buffer (sigwinch_handler session_pending_A)))
           then cell_at (back_buffer (sigwinch_handler session_pending_A)) x y
           else Some blank_cell.
Proof.
  apply (tb_present_resize junk_pattern win_4x3 (sigwinch_handler session_pending_A));
    by_evaluation.
Defined.

Lemma tb_clear_resize_then_present_witness :
  exists s1,
    tb_clear junk_pattern win_4x3 (sigwinch_handler session_pending_A) = Some s1
    /\ tb_width s1 = ws_col win_4x3 /\ tb_height s1 = ws_row win_4x3
    /\ all_blank (back_buffer s1) /\ front_buffer s1 = back_buffer s1
    /\ tty_out s1
       = tty_out (sigwinch_handler session_pending_A)
         ++ (if decide (TB_WHITE <> lastfg (sigwinch_handler session_pending_A)
                        \/ TB_BLACK <> lastbg (sigwinch_handler session_pending_A))
             then attr_items TB_BOLD TB_WHITE TB_BLACK else [])
         ++ [Fputs T_CLEAR_SCREEN; Fflush]
    /\ tb_present junk_pattern win_3x2 s1 = Some (emit Fflush s1).
Proof.
  apply (tb_clear_resize_then_present junk_pattern win_4x3 win_3x2
           (sigwinch_handler session_pending_A)); by_evaluation.
Defined.

Lemma tb_init_success_witness :
  exists s',
    tb_init junk_pattern flags0 env_ok (tb_state0 ring0) = Some (0, s')
    /\ session_inv s'
    /\ tb_width s' = ws_col (ioctl_winsize env_ok)
    /\ tb_height s' = ws_row (ioctl_winsize env_ok)
    /\ all_blank (back_buffer s') /\ front_buffer s' = back_buffer s'
    /\ orig_tios s' = tcgetattr_tios env_ok
    /\ out s' = Some {| fileno := 3 |} /\ in_ s' = Some {| fileno := 4 |}
    /\ tty_out s' = tty_out (tb_state0 ring0)
                    ++ [Fputs T_ENTER_CA; Fputs T_ENTER_KEYPAD;
                        Fputs T_HIDE_CURSOR; Fputs T_CLEAR_SCREEN; Fflush]
    /\ sys_log s'
       = sys_log (tb_state0 ring0)
         ++ [Signal_SIGWINCH;
             Tcsetattr (fileno {| fileno := 3 |})
               {| c_iflag := 0; c_oflag := 0; c_cflag := CS8 flags0; c_lflag := 0;
                  c_cc_VMIN := 0; c_cc_VTIME := 0 |}].
Proof.
  apply (tb_init_success junk_pattern flags0 env_ok {| fileno := 3 |} {| fileno := 4 |}
           (tb_state0 ring0)); by_evaluation.
Defined.


Lemma wait_fill_event_idle_witness :
  wait_fill_event extract_event_1
    ([Sel_not_ready; Sel_read []; Sel_not_ready] ++ [Sel_read [0x61]]) session_3x2
  = wait_fill_event extract_event_1 [Sel_read [0x61]] session_3x2.
Proof.
  apply (wait_fill_event_idle extract_event_1 [Sel_not_ready; Sel_read []; Sel_not_ready]
           [Sel_read [0x61]] session_3x2).
  constructor; [left; reflexivity|]. constructor; [right; reflexivity|].
  constructor; [left; reflexivity|]. constructor.
Defined.

Lemma peek_timeval_exact_witness :
  0 <= fst (peek_timeval 1500)
  /\ 0 <= snd (peek_timeval 1500) < 1000000
  /\ snd (peek_timeval 1500) mod 1000 = 0
  /\ fst (peek_timeval 1500) * 1000000 + snd (peek_timeval 1500) = 1500 * 1000.
Proof. apply (peek_timeval_exact 1500). lia. Defined.

Lemma cellbuf_resize_there_and_back_witness :
  exists b1 b2,
    cellbuf_resize junk_pattern buf_3x2 2 1 = Some b1
    /\ cellbuf_resize junk_pattern b1 (width buf_3x2) (height buf_3x2) = Some b2
    /\ width b2 = width buf_3x2 /\ height b2 = height buf_3x2
    /\ forall x y, 0 <= x < width buf_3x2 -> 0 <= y < height buf_3x2 ->
         cell_at b2 x y
         = if decide (x < 2 /\ y < 1) then cell_at buf_3x2 x y else Some blank_cell.
Proof.
  apply (cellbuf_resize_there_and_back junk_pattern buf_3x2 2 1); [by_evaluation | lia ..].
Defined.

Lemma tb_present_one_cell_witness :
  exists s',
    tb_present junk_pattern win_3x2 session_pending_A = Some s'
    /\ tty_out s'
       = tty_out session_pending_A
         ++ (if decide (fg cell_A <> lastfg session_pending_A
                        \/ bg cell_A <> lastbg session_pending_A)
             then attr_items TB_BOLD (fg cell_A) (bg cell_A) else [])
         ++ char_items 0 1 (ch cell_A) session_pending_A
         ++ [Fflush]
    /\ front_buffer s' = back_buffer session_pending_A
    /\ back_buffer s' = back_buffer session_pending_A
    /\ caches s' = (fg cell_A, bg cell_A, sint32 0, sint32 1).
Proof.
  apply (tb_present_one_cell junk_pattern win_3x2 0 1 cell_A blank_cell session_pending_A).
  - by_evaluation.
  - reflexivity.
  - by_evaluation.
  - by_evaluation.
  - by_evaluation.
  - by_evaluation.
  - by_evaluation.
  - intros x' y' Hx Hy Hn.
    change (width (back_buffer session_pending_A)) with 3 in Hx.
    change (height (back_buffer session_pending_A)) with 2 in Hy.
    assert (Hxs : x' = 0 \/ x' = 1 \/ x' = 2) by lia.
    assert (Hys : y' = 0 \/ y' = 1) by lia.
    destruct Hxs as [-> | [-> | ->]], Hys as [-> | ->];
      solve [reflexivity | exfalso; apply Hn; split; reflexivity].
Defined.
